(** * The deduplicating ingestion pipeline of [scripts/Texting_Theory_Scraper.py]

    A shallow embedding of the scraper: the source resolver
    ([get_image_urls_from_submission], [_normalize_reddit_image_url]), the
    download step ([download_and_dedupe] and its filename helpers), the driver
    loop of [main], and the state store ([load_state], [save_state]).

    Python [str] values are modelled as [string] (one [ascii] per character,
    ASCII case mapping); [bytes] as [list byte]; [set] as [gset string]; the
    dynamically typed attributes that PRAW fills from Reddit's JSON as
    [pyval]; exceptions as the [Raise] branch of [result]; the file tree as
    [gmap string node].  The libraries behind the script come in two kinds:
    [urllib.parse.urlparse], [os.path] and the [str] methods are modelled by
    functions that compute; SHA-256, [unquote], the JSON codec, the home
    directory and what the file system takes of a write are the fields of
    [Collaborators], and every property of the driver and of the state store
    holds for all of them. *)

From Stdlib Require Import ZArith Ascii String List.
From Stdlib.Strings Require Import Byte.
From stdpp Require Import base option list gmap strings sorting.

Open Scope string_scope.
Open Scope list_scope.

(** ** Python string primitives *)

Module Py.

(** [c in chars] for a single character [c]. *)
Fixpoint char_in (c : ascii) (chars : string) : bool :=
  match chars with
  | EmptyString => false
  | String d rest => if Ascii.eqb c d then true else char_in c rest
  end.

(** [s.startswith(p)]. *)
Fixpoint startswith (s p : string) {struct p} : bool :=
  match p with
  | EmptyString => true
  | String b p' =>
      match s with
      | EmptyString => false
      | String a s' => Ascii.eqb a b && startswith s' p'
      end
  end.

(** [s.endswith(suffix)]. *)
Fixpoint endswith (s suffix : string) : bool :=
  if String.eqb s suffix then true
  else match s with
       | EmptyString => false
       | String _ rest => endswith rest suffix
       end.

(** [sub in s] for strings: substring test. *)
Fixpoint contains (s sub : string) : bool :=
  if startswith s sub then true
  else match s with
       | EmptyString => false
       | String _ rest => contains rest sub
       end.

Definition lower_char (c : ascii) : ascii :=
  let n := nat_of_ascii c in
  if (65 <=? n)%nat && (n <=? 90)%nat then ascii_of_nat (n + 32) else c.

(** [s.lower()] on ASCII text. *)
Fixpoint lower (s : string) : string :=
  match s with
  | EmptyString => EmptyString
  | String c rest => String (lower_char c) (lower rest)
  end.

(** [s[n:]]. *)
Fixpoint drop (n : nat) (s : string) : string :=
  match n, s with
  | O, _ => s
  | S _, EmptyString => EmptyString
  | S k, String _ rest => drop k rest
  end.

(** [s.replace(old, new)] for a non-empty [old]: one left-to-right pass over
    non-overlapping occurrences.  [skip] counts the characters of the
    occurrence being replaced that are still to be consumed. *)
Fixpoint replace_from (old new s : string) (skip : nat) : string :=
  match s with
  | EmptyString => EmptyString
  | String c rest =>
      match skip with
      | S k => replace_from old new rest k
      | O =>
          if startswith s old
          then new +:+ replace_from old new rest (String.length old - 1)
          else String c (replace_from old new rest 0)
      end
  end.

Definition replace (s old new : string) : string := replace_from old new s 0.

(** [s.split(c, 1)] when [c in s]: the text before and after the first [c];
    [None] when [c] is absent ([s.find(c) < 0]). *)
Fixpoint partition (c : ascii) (s : string) : option (string * string) :=
  match s with
  | EmptyString => None
  | String a rest =>
      if Ascii.eqb a c then Some (EmptyString, rest)
      else match partition c rest with
           | Some (before, after) => Some (String a before, after)
           | None => None
           end
  end.

(** The text before and after the last [c] ([s.rfind(c)]); [None] when [c]
    is absent. *)
Fixpoint rpartition (c : ascii) (s : string) : option (string * string) :=
  match s with
  | EmptyString => None
  | String a rest =>
      match rpartition c rest with
      | Some (before, after) => Some (String a before, after)
      | None => if Ascii.eqb a c then Some (EmptyString, rest) else None
      end
  end.

(** Split [s] in front of its first character that belongs to [stops]. *)
Fixpoint break_at (stops : string) (s : string) : string * string :=
  match s with
  | EmptyString => (EmptyString, EmptyString)
  | String a rest =>
      if char_in a stops then (EmptyString, s)
      else let '(before, after) := break_at stops rest in (String a before, after)
  end.

(** [all(c in chars for c in s)]. *)
Fixpoint all_in (chars : string) (s : string) : bool :=
  match s with
  | EmptyString => true
  | String a rest => char_in a chars && all_in chars rest
  end.

(** [s.lstrip(chars)]. *)
Fixpoint lstrip (chars : string) (s : string) : string :=
  match s with
  | EmptyString => EmptyString
  | String a rest => if char_in a chars then lstrip chars rest else s
  end.

(** Removal of every character of [chars]: the chained
    [s.replace(b, "")] over single characters [b]. *)
Fixpoint remove_chars (chars : string) (s : string) : string :=
  match s with
  | EmptyString => EmptyString
  | String a rest =>
      if char_in a chars then remove_chars chars rest
      else String a (remove_chars chars rest)
  end.

(** [str(n)] for a non-negative integer. *)
Definition digit_char (d : nat) : ascii := ascii_of_nat (48 + d).

Fixpoint str_of_nat_fuel (fuel n : nat) (acc : string) : string :=
  match fuel with
  | O => acc
  | S f =>
      let acc' := String (digit_char (n mod 10)) acc in
      if (n <? 10)%nat then acc' else str_of_nat_fuel f (n / 10) acc'
  end.

Definition str_of_nat (n : nat) : string := str_of_nat_fuel (S n) n EmptyString.

End Py.

(** ** Exceptions and dynamically typed values *)

Inductive exn := AttributeError | KeyError | TypeError | ValueError.

(** The outcome of a Python expression: a value, or a raised exception (all
    four are subclasses of [Exception], so [except Exception] catches them). *)
Inductive result (A : Type) : Type :=
| Ok (a : A)
| Raise (e : exn).
Arguments Ok {A} a.
Arguments Raise {A} e.

#[global] Instance result_ret : MRet result := fun A a => Ok a.
#[global] Instance result_bind : MBind result := fun A B f m =>
  match m with
  | Ok a => f a
  | Raise e => Raise e
  end.

(** A value decoded from Reddit's JSON.  A JSON object is an association
    list; only the zero-ness of a number is ever observed here. *)
Inductive pyval :=
| PNone
| PBool (b : bool)
| PInt (z : Z)
| PStr (s : string)
| PList (l : list pyval)
| PDict (d : list (string * pyval)).

Definition truthy (v : pyval) : bool :=
  match v with
  | PNone => false
  | PBool b => b
  | PInt z => negb (z =? 0)%Z
  | PStr s => negb (String.eqb s "")
  | PList l => match l with [] => false | _ => true end
  | PDict d => match d with [] => false | _ => true end
  end.

Fixpoint assoc (k : string) (d : list (string * pyval)) : option pyval :=
  match d with
  | [] => None
  | (k', v) :: rest => if String.eqb k k' then Some v else assoc k rest
  end.

(** [v[key]] for a string [key]. *)
Definition getitem (v : pyval) (key : string) : result pyval :=
  match v with
  | PDict d => match assoc key d with Some x => Ok x | None => Raise KeyError end
  | _ => Raise TypeError
  end.

(** [v.get(key, default)]: a [dict] method, so an [AttributeError] on
    anything else; an unhashable key is a [TypeError]; the keys of a JSON
    object are strings, so only a string key can be found. *)
Definition dict_get (v key default : pyval) : result pyval :=
  match v with
  | PDict d =>
      match key with
      | PStr k => Ok (match assoc k d with Some x => x | None => default end)
      | PList _ | PDict _ => Raise TypeError
      | _ => Ok default
      end
  | _ => Raise AttributeError
  end.

Fixpoint chars_of (s : string) : list pyval :=
  match s with
  | EmptyString => []
  | String c rest => PStr (String c EmptyString) :: chars_of rest
  end.

(** The sequence a [for] loop walks through. *)
Definition iterate (v : pyval) : result (list pyval) :=
  match v with
  | PList l => Ok l
  | PDict d => Ok (map (fun kv => PStr (fst kv)) d)
  | PStr s => Ok (chars_of s)
  | _ => Raise TypeError
  end.

Definition is_str (v : pyval) (s : string) : bool :=
  match v with
  | PStr s' => String.eqb s' s
  | _ => false
  end.

(** [key in v] for a string [key]. *)
Definition py_in (key : string) (v : pyval) : result bool :=
  match v with
  | PDict d => Ok (match assoc key d with Some _ => true | None => false end)
  | PList l => Ok (existsb (fun x => is_str x key) l)
  | PStr s => Ok (Py.contains s key)
  | _ => Raise TypeError
  end.

(** A [str] method called on [v]. *)
Definition as_str (v : pyval) : result string :=
  match v with
  | PStr s => Ok s
  | _ => Raise AttributeError
  end.

(** [v or default]. *)
Definition py_or (v default : pyval) : pyval := if truthy v then v else default.

(** ** [urllib.parse.urlparse]

    A model of CPython 3.10's [urlsplit] and [urlparse] on ASCII text (the
    NFKC test of [_checknetloc] only concerns a non-ASCII netloc).  Later
    releases also want the scheme to begin with a letter and refuse a
    bracketed host that is no IP literal; every URL that the script parses
    has passed a [startswith("http")] test, on the text or on its lower
    case. *)

Record ParseResult := {
  scheme : string; netloc : string; path : string;
  params : string; query : string; fragment : string }.

Definition scheme_chars : string :=
  "abcdefghijklmnopqrstuvwxyzABCDEFGHIJKLMNOPQRSTUVWXYZ0123456789+-.".

Definition uses_params : list string :=
  [""; "ftp"; "hdl"; "prospero"; "http"; "imap"; "https"; "shttp"; "rtsp";
   "rtspu"; "sip"; "sips"; "mms"; "sftp"; "tel"].

(** The characters [chr(0)] to [chr(32)]. *)
Definition WHATWG_C0_CONTROL_OR_SPACE : string :=
  string_of_list_ascii (map ascii_of_nat (seq 0 33)).

(** Tab, carriage return and line feed. *)
Definition UNSAFE_URL_BYTES_TO_REMOVE : string :=
  string_of_list_ascii (map ascii_of_nat [9; 13; 10]).

Definition in_list (s : string) (l : list string) : bool :=
  existsb (String.eqb s) l.

(** [_splitparams]: cut the path at the first [;] of its last segment. *)
Definition splitparams (url : string) : string * string :=
  match Py.rpartition "/" url with
  | Some (dir, seg) =>
      match Py.partition ";" seg with
      | Some (before, after) => (dir +:+ "/" +:+ before, after)
      | None => (url, "")
      end
  | None =>
      match Py.partition ";" url with
      | Some (before, after) => (before, after)
      | None => (url, "")
      end
  end.

(** The scheme, when the text before the first colon is a non-empty run of
    scheme characters. *)
Definition split_scheme (url : string) : string * string :=
  match Py.partition ":" url with
  | Some (before, after) =>
      if negb (String.eqb before "") && Py.all_in scheme_chars before
      then (Py.lower before, after)
      else ("", url)
  | None => ("", url)
  end.

(** The netloc after a leading [//], up to the first of [/?#]
    ([_splitnetloc]); unbalanced brackets are an "Invalid IPv6 URL".  The
    test that CPython 3.11.4 and later make on the text between balanced
    brackets (an IPv6 or IPvFuture literal) is not part of this model: it
    can only turn a parse that succeeds here into a [ValueError], and only
    for a host with brackets, which is no native image host. *)
Definition split_netloc (url : string) : result (string * string) :=
  if Py.startswith url "//" then
    let '(loc, rest) := Py.break_at "/?#" (Py.drop 2 url) in
    if xorb (Py.char_in "[" loc) (Py.char_in "]" loc)
    then Raise ValueError
    else Ok (loc, rest)
  else Ok ("", url).

(** [url, tail = url.split(c, 1)] under [if c in url]. *)
Definition cut (c : ascii) (url : string) : string * string :=
  match Py.partition c url with
  | Some (before, after) => (before, after)
  | None => (url, "")
  end.

Definition urlsplit (url : string) : result (string * string * string * string * string) :=
  let url := Py.lstrip WHATWG_C0_CONTROL_OR_SPACE url in
  let url := Py.remove_chars UNSAFE_URL_BYTES_TO_REMOVE url in
  let '(sch, url) := split_scheme url in
  '(loc, url) ← split_netloc url;
  let '(url, frag) := cut "#" url in
  let '(url, qry) := cut "?" url in
  Ok (sch, loc, url, qry, frag).

Definition urlparse (url : string) : result ParseResult :=
  '(sch, loc, url, qry, frag) ← urlsplit url;
  let '(url, prm) :=
    if in_list sch uses_params && Py.char_in ";" url
    then splitparams url
    else (url, "") in
  Ok {| scheme := sch; netloc := loc; path := url;
        params := prm; query := qry; fragment := frag |}.

(** ** The source resolver *)

(** A post as PRAW exposes it: an attribute is [None] when the object does
    not have it (reading it raises [AttributeError]). *)
Module submission.
Record t := mk {
  id : string;
  url : option pyval;
  is_gallery : option pyval;
  media_metadata : option pyval;
  gallery_data : option pyval;
  preview : option pyval }.
End submission.

(** [submission.name]. *)
Definition attr (a : option pyval) : result pyval :=
  match a with
  | Some v => Ok v
  | None => Raise AttributeError
  end.

(** [getattr(submission, name, default)]. *)
Definition getattr (a : option pyval) (default : pyval) : pyval :=
  match a with
  | Some v => v
  | None => default
  end.

Definition REDDIT_IMAGE_HOSTS : gset string :=
  {[ "i.redd.it"; "preview.redd.it"; "i.reddituploads.com" ]}.

Definition IMAGE_EXTENSIONS : list string :=
  [".jpg"; ".jpeg"; ".png"; ".gif"; ".webp"].

Definition _normalize_reddit_image_url (u : string) : string :=
  match urlparse u with
  | Ok p =>
      let host := Py.lower (netloc p) in
      if bool_decide (host ∈ REDDIT_IMAGE_HOSTS)
      then scheme p +:+ "://" +:+ host +:+ path p
      else u
  | Raise _ => u
  end.

(** [src and src.startswith("http")], then [src.replace("&amp;", "&")]:
    the URL a source field contributes, if any. *)
Definition usable_source (src : pyval) : result (option string) :=
  if truthy src then
    s ← as_str src;
    if Py.startswith s "http"
    then Ok (Some (Py.replace s "&amp;" "&"))
    else Ok None
  else Ok None.

(** The source representation URL that the metadata records for a gallery
    item, [media_metadata[item["media_id"]]["s"]["u"]], when all of it is
    there: what the description of rule 1 calls the per-item source URL. *)
Definition item_source_url (metadata item : pyval) : option string :=
  match getitem item "media_id" with
  | Ok (PStr media_id) =>
      match getitem metadata media_id with
      | Ok meta =>
          match getitem meta "s" with
          | Ok s =>
              match getitem s "u" with
              | Ok (PStr u) => Some u
              | _ => None
              end
          | _ => None
          end
      | _ => None
      end
  | _ => None
  end.

(** The body of the gallery loop for one [item]. *)
Definition gallery_item_source (metadata item : pyval) : result (option string) :=
  media_id ← getitem item "media_id";
  meta ← dict_get metadata media_id (PDict []);
  s ← dict_get meta (PStr "s") PNone;
  src ← dict_get (py_or s (PDict [])) (PStr "u") PNone;
  usable_source src.

(** The gallery loop appends to [urls]; an exception leaves the loop with
    what was appended so far. *)
Fixpoint gallery_loop (metadata : pyval) (items : list pyval)
    (urls : list string) : list string :=
  match items with
  | [] => urls
  | item :: rest =>
      match gallery_item_source metadata item with
      | Ok (Some u) => gallery_loop metadata rest (urls ++ [u])
      | Ok None => gallery_loop metadata rest urls
      | Raise _ => urls
      end
  end.

(** What the gallery rule has to walk through, when it applies. *)
Definition gallery_items (sub : submission.t) : result (option (pyval * list pyval)) :=
  if truthy (getattr (submission.is_gallery sub) (PBool false)) then
    metadata ← attr (submission.media_metadata sub);
    if truthy metadata then
      data ← attr (submission.gallery_data sub);
      items ← getitem data "items";
      l ← iterate items;
      Ok (Some (metadata, l))
    else Ok None
  else Ok None.

(** Rule 1, with its [try ... except Exception: pass]. *)
Definition gallery_urls (sub : submission.t) : list string :=
  match gallery_items sub with
  | Ok (Some (metadata, items)) => gallery_loop metadata items []
  | Ok None | Raise _ => []
  end.

(** Rule 2; nothing catches what it raises. *)
Definition native_host_urls (sub : submission.t) : result (list string) :=
  v ← attr (submission.url sub);
  u ← as_str (py_or v (PStr ""));
  if Py.startswith u "http" then
    p ← urlparse u;
    if bool_decide (Py.lower (netloc p) ∈ REDDIT_IMAGE_HOSTS) then Ok [u] else Ok []
  else Ok [].

(** Rule 3. *)
Definition direct_link_urls (sub : submission.t) : result (list string) :=
  v ← attr (submission.url sub);
  u ← as_str (py_or v (PStr ""));
  if Py.startswith (Py.lower u) "http"
     && existsb (Py.endswith (Py.lower u)) IMAGE_EXTENSIONS
  then Ok [u] else Ok [].

(** The body of the preview loop for one [img]. *)
Definition preview_image_source (img : pyval) : result (option string) :=
  source ← dict_get img (PStr "source") (PDict []);
  src ← dict_get source (PStr "url") PNone;
  usable_source src.

(** The preview loop stops at the first usable source. *)
Fixpoint preview_loop (images : list pyval) : result (list string) :=
  match images with
  | [] => Ok []
  | img :: rest =>
      o ← preview_image_source img;
      match o with
      | Some u => Ok [u]
      | None => preview_loop rest
      end
  end.

(** Rule 4, with its [try ... except Exception: pass]. *)
Definition preview_urls (sub : submission.t) : list string :=
  let block : result (list string) :=
    p ← attr (submission.preview sub);
    if truthy p then
      b ← py_in "images" p;
      if (b : bool) then
        images ← getitem p "images";
        l ← iterate images;
        preview_loop l
      else Ok []
    else Ok [] in
  match block with
  | Ok urls => urls
  | Raise _ => []
  end.

(** The four rules in order: a rule only runs when [urls] is still empty. *)
Definition candidate_urls (sub : submission.t) : result (list string) :=
  let urls := gallery_urls sub in
  urls ← (if urls is [] then native_host_urls sub else Ok urls);
  urls ← (if urls is [] then direct_link_urls sub else Ok urls);
  Ok (if urls is [] then preview_urls sub else urls).

(** The closing loop: keep [x] unless its canonical form was seen. *)
Fixpoint dedupe_loop (urls : list string) (deduped : list string)
    (seen : gset string) : list string :=
  match urls with
  | [] => deduped
  | x :: rest =>
      let canon := _normalize_reddit_image_url x in
      if bool_decide (canon ∈ seen)
      then dedupe_loop rest deduped seen
      else dedupe_loop rest (deduped ++ [x]) ({[ canon ]} ∪ seen)
  end.

Definition get_image_urls_from_submission (sub : submission.t) : result (list string) :=
  urls ← candidate_urls sub;
  Ok (dedupe_loop urls [] ∅).

(** ** The download step and the driver loop *)

(** What [requests.get] and reading the body come to: an exception of the
    transport (connection error, timeout, broken stream), or a response. *)
Inductive fetched :=
| TransportError
| Response (status_code : nat) (headers : list (string * string)) (content : list byte).

(** The transport collaborator: within a run, what a location answers. *)
Definition transport := string → fetched.

(** The exceptions of the download step, all caught by the driver. *)
Inductive download_error := HTTPError (status_code : nat) | OtherError.

(** What [download_and_dedupe] hands back to the driver. *)
Inductive download :=
| Failed (e : download_error)
| Duplicate
| Saved (fpath : string) (file_hash : string).

(** [os.path.join(a, b)] on POSIX. *)
Definition path_join (a b : string) : string :=
  if Py.startswith b "/" then b
  else if String.eqb a "" || Py.endswith a "/" then a +:+ b
  else a +:+ "/" +:+ b.

(** [os.path.basename]. *)
Definition basename (p : string) : string :=
  match Py.rpartition "/" p with
  | Some (_, name) => name
  | None => p
  end.

(** [os.path.splitext] on POSIX: the extension starts at the last dot of
    the last component, unless only dots come before it there. *)
Definition splitext (p : string) : string * string :=
  match Py.rpartition "." p with
  | Some (root, e) =>
      if Py.char_in "/" e then (p, "")
      else if Py.all_in "." (basename root) then (p, "")
      else (root, String "." e)
  | None => (p, "")
  end.

(** [headers.get("Content-Type", "")] on the case-insensitive headers of a
    response. *)
Fixpoint header_get (name : string) (headers : list (string * string))
    (default : string) : string :=
  match headers with
  | [] => default
  | (k, v) :: rest =>
      if String.eqb (Py.lower k) (Py.lower name) then v
      else header_get name rest default
  end.

Definition infer_extension_from_headers (headers : list (string * string))
    (fallback : string) : string :=
  let ctype := Py.lower (header_get "Content-Type" headers "") in
  if Py.contains ctype "image/png" then ".png"
  else if Py.contains ctype "image/jpeg" || Py.contains ctype "image/jpg" then ".jpg"
  else if Py.contains ctype "image/gif" then ".gif"
  else if Py.contains ctype "image/webp" then ".webp"
  else fallback.

(** The effects of a run on the outside: the URLs requested, and the files
    written (path and bytes), both in order.  The pause after a save and the
    printed messages are left out. *)
Record world := {
  requests : list string;
  files : list (string * list byte) }.

(** The sets and counters of [main]. *)
Record run := {
  seen_post_ids : gset string;
  seen_hashes : gset string;
  downloaded : nat;
  skipped_posts : nat;
  skipped_hashes : nat;
  resolved : list string;
  outside : world }.

Definition POST_LIMIT : nat := 100.

(** A path of the file tree holds a file with its text, or a directory
    (empty or not). *)
Inductive node :=
| File (text : string)
| Dir (empty : bool).

(** What the script takes from its libraries and its environment. *)
Class Collaborators := {
  (** [hashlib.sha256(data).hexdigest()] *)
  sha256_hexdigest : list byte → string;
  (** [urllib.parse.unquote] *)
  unquote : string → string;
  (** [os.path.expanduser("~")] *)
  home : string;
  (** [json.load] on the text of the state file: [None] when it raises *)
  json_load : string → option pyval;
  (** the pieces of text that [json.dump(state, f, indent=2, sort_keys=True)]
      writes to [f], in order *)
  json_dump : pyval → list string;
  (** [open(path, "wb")] and the [f.write] under it: [false] when they
      raise, as [open] does on a name that holds a NUL character
      ([ValueError]) or is longer than the file system takes ([OSError]) *)
  open_wb : string → bool }.

Section Scraper.
Context `{Collaborators}.

Definition SAVE_DIR : string := path_join home "texting_theory_screenshots".

Definition sha256_bytes (data : list byte) : string := sha256_hexdigest data.

Definition filename_from_url (url : string) : result string :=
  p ← urlparse url;
  let name := unquote (basename (path p)) in
  Ok (if String.eqb name "" then "image" else name).

(** The name under which a fetched body is stored. *)
Definition artifact_name (url post_id : string) (idx : nat)
    (headers : list (string * string)) : result string :=
  base ← filename_from_url url;
  let ext := snd (splitext base) in
  let ext := if String.eqb ext "" then infer_extension_from_headers headers ".jpg" else ext in
  Ok (post_id +:+ "_" +:+ Py.str_of_nat idx +:+ ext).

Definition download_and_dedupe (net : transport) (url post_id : string) (idx : nat)
    (seen : gset string) (w : world) : world * download :=
  let w := {| requests := requests w ++ [url]; files := files w |} in
  match net url with
  | TransportError => (w, Failed OtherError)
  | Response status headers content =>
      if (400 <=? status)%nat && (status <? 600)%nat then (w, Failed (HTTPError status))
      else
        let file_hash := sha256_bytes content in
        if bool_decide (file_hash ∈ seen) then (w, Duplicate)
        else
          match artifact_name url post_id idx headers with
          | Raise _ => (w, Failed OtherError)
          | Ok fname =>
              let fpath := path_join SAVE_DIR fname in
              if open_wb fpath then
                ({| requests := requests w; files := files w ++ [(fpath, content)] |},
                 Saved fpath file_hash)
              else (w, Failed OtherError)
          end
  end.

(** What the body of the candidate loop does with the outcome of one
    download. *)
Definition record_outcome (res : download) (w : world) (st : run) : run :=
  match res with
  | Duplicate =>
      {| seen_post_ids := seen_post_ids st; seen_hashes := seen_hashes st;
         downloaded := downloaded st; skipped_posts := skipped_posts st;
         skipped_hashes := skipped_hashes st + 1;
         resolved := resolved st; outside := w |}
  | Saved fpath h =>
      {| seen_post_ids := seen_post_ids st; seen_hashes := {[ h ]} ∪ seen_hashes st;
         downloaded := downloaded st + 1; skipped_posts := skipped_posts st;
         skipped_hashes := skipped_hashes st;
         resolved := resolved st; outside := w |}
  | Failed _ =>
      {| seen_post_ids := seen_post_ids st; seen_hashes := seen_hashes st;
         downloaded := downloaded st; skipped_posts := skipped_posts st;
         skipped_hashes := skipped_hashes st;
         resolved := resolved st; outside := w |}
  end.

(** [for i, url in enumerate(urls, start=1)]: [i] is the index of the head
    of [urls]. *)
Fixpoint candidates_loop (net : transport) (pid : string) (urls : list string)
    (i : nat) (st : run) : run :=
  match urls with
  | [] => st
  | url :: rest =>
      let '(w, res) := download_and_dedupe net url pid i (seen_hashes st) (outside st) in
      candidates_loop net pid rest (S i) (record_outcome res w st)
  end.

Definition mark_seen (pid : string) (st : run) : run :=
  {| seen_post_ids := {[ pid ]} ∪ seen_post_ids st; seen_hashes := seen_hashes st;
     downloaded := downloaded st; skipped_posts := skipped_posts st;
     skipped_hashes := skipped_hashes st;
     resolved := resolved st; outside := outside st |}.

(** One iteration of the loop over the feed.  An exception of the resolver
    is not caught: it ends the run. *)
Definition process_submission (net : transport) (st : run) (sub : submission.t) : result run :=
  let pid := submission.id sub in
  if bool_decide (pid ∈ seen_post_ids st) then
    Ok {| seen_post_ids := seen_post_ids st; seen_hashes := seen_hashes st;
          downloaded := downloaded st; skipped_posts := skipped_posts st + 1;
          skipped_hashes := skipped_hashes st;
          resolved := resolved st; outside := outside st |}
  else
    let st := {| seen_post_ids := seen_post_ids st; seen_hashes := seen_hashes st;
                 downloaded := downloaded st; skipped_posts := skipped_posts st;
                 skipped_hashes := skipped_hashes st;
                 resolved := resolved st ++ [pid]; outside := outside st |} in
    urls ← get_image_urls_from_submission sub;
    match urls with
    | [] => Ok (mark_seen pid st)
    | _ => Ok (mark_seen pid (candidates_loop net pid urls 1 st))
    end.

(** [for submission in sub.new(limit=POST_LIMIT)]. *)
Fixpoint feed_loop (net : transport) (feed : list submission.t) (st : run) : result run :=
  match feed with
  | [] => Ok st
  | sub :: rest =>
      st ← process_submission net st sub;
      feed_loop net rest st
  end.

(** The sets of a run that starts from the persisted lists, with the
    counters at zero and nothing requested or written yet. *)
Definition start (ids hashes : list string) : run :=
  {| seen_post_ids := list_to_set ids; seen_hashes := list_to_set hashes;
     downloaded := 0; skipped_posts := 0; skipped_hashes := 0;
     resolved := []; outside := {| requests := []; files := [] |} |}.

(** [sorted(s)] for a set of strings. *)
Definition sorted (s : gset string) : list string :=
  merge_sort String.le (elements s).

(** The body of [main] between [load_state] and [save_state]: from the two
    persisted lists to the two lists to persist, with the final [run]. *)
Definition main_body (net : transport) (feed : list submission.t)
    (ids hashes : list string) : result (list string * list string * run) :=
  st ← feed_loop net (take POST_LIMIT feed) (start ids hashes);
  Ok (sorted (seen_post_ids st), sorted (seen_hashes st), st).

(** Vocabulary for the outcomes of a fetch.  [url] serves [body]: the
    response carries [body] and [raise_for_status] lets it through. *)
Definition serves (net : transport) (url : string) (body : list byte) : Prop :=
  ∃ status headers,
    net url = Response status headers body ∧
    (400 <=? status)%nat && (status <? 600)%nat = false.

(** [url] cannot lead to a file: the fetch fails, or it brings bytes whose
    digest is in [seen]. *)
Definition yields_no_file (net : transport) (seen : gset string) (url : string) : Prop :=
  match net url with
  | TransportError => True
  | Response status _ body =>
      (400 <=? status)%nat && (status <? 600)%nat = true ∨ sha256_bytes body ∈ seen
  end.

(** From [st] to [st'], every file written holds bytes of a digest that
    was not in the set and that no other file written shares, and the set
    has grown by exactly these digests. *)
Definition each_digest_saved_once (st st' : run) : Prop :=
  ∃ new,
    files (outside st') = files (outside st) ++ new ∧
    seen_hashes st' = list_to_set (map (λ f, sha256_bytes f.2) new) ∪ seen_hashes st ∧
    NoDup (map (λ f, sha256_bytes f.2) new) ∧
    ∀ f, f ∈ new → sha256_bytes f.2 ∉ seen_hashes st.

(** ** The state store *)

Definition STATE_PATH : string := path_join SAVE_DIR ".download_state.json".

Definition empty_state : pyval :=
  PDict [("seen_post_ids", PList []); ("seen_hashes", PList [])].

(** [p] is the path [dir] or a path below it. *)
Definition inside (dir p : string) : bool :=
  String.eqb p dir || Py.startswith p (dir +:+ "/").

(** [p], a path inside [src], once [src] has become [dst]. *)
Definition rebase (src dst p : string) : string :=
  dst +:+ Py.drop (String.length src) p.

(** The tree after the directory [src] has moved to [dst], with all that is
    below it. *)
Definition move_tree (src dst : string) (t : gmap string node) : gmap string node :=
  list_to_map
    (map (λ kv, (rebase src dst kv.1, kv.2))
         (map_to_list (filter (λ kv, inside src kv.1 = true) t)))
  ∪ filter (λ kv, inside src kv.1 = false) t.

(** [os.rename] and [os.replace] on POSIX, as far as the tree decides them:
    a file does not replace a directory; a directory replaces nothing but an
    empty directory, does not go below itself, and takes along what is below
    it.  [None] is an [OSError]. *)
Definition os_rename (src dst : string) (t : gmap string node) : option (gmap string node) :=
  match t !! src with
  | None => None
  | Some (File c) =>
      match t !! dst with
      | Some (Dir _) => None
      | _ => Some (<[dst := File c]> (delete src t))
      end
  | Some (Dir e) =>
      if String.eqb src dst then Some t
      else if inside src dst then None
      else
        match t !! dst with
        | Some (File _) | Some (Dir false) => None
        | _ => Some (move_tree src dst t)
        end
  end.

(** [open(path, "r")] followed by [json.load]. *)
Definition read_json (path : string) (t : gmap string node) : option pyval :=
  match t !! path with
  | Some (File c) => json_load c
  | _ => None
  end.

Definition load_state (t : gmap string node) : gmap string node * pyval :=
  match t !! STATE_PATH with
  | None => (t, empty_state)
  | Some _ =>
      match read_json STATE_PATH t with
      | Some state => (t, state)
      | None =>
          let t' :=
            match os_rename STATE_PATH (STATE_PATH +:+ ".corrupt") t with
            | Some t' => t'
            | None => t
            end in
          (t', empty_state)
      end
  end.

(** The steps of [save_state], each of them one call to the operating
    system. *)
Inductive fs_op :=
| OpenW (path : string)
| Append (path : string) (text : string)
| Replace (src dst : string).

Definition step (op : fs_op) (t : gmap string node) : option (gmap string node) :=
  match op with
  | OpenW p =>
      match t !! p with
      | Some (Dir _) => None
      | _ => Some (<[p := File ""]> t)
      end
  | Append p text =>
      match t !! p with
      | Some (File c) => Some (<[p := File (c +:+ text)]> t)
      | _ => None
      end
  | Replace src dst => os_rename src dst t
  end.

(** The tree after the steps [ops], up to the first one that fails. *)
Fixpoint steps (ops : list fs_op) (t : gmap string node) : gmap string node * bool :=
  match ops with
  | [] => (t, true)
  | op :: rest =>
      match step op t with
      | Some t' => steps rest t'
      | None => (t, false)
      end
  end.

Definition save_state_ops (state : pyval) : list fs_op :=
  let tmp := STATE_PATH +:+ ".tmp" in
  OpenW tmp :: map (Append tmp) (json_dump state) ++ [Replace tmp STATE_PATH].

Definition save_state (state : pyval) (t : gmap string node) : gmap string node * bool :=
  steps (save_state_ops state) t.

(** A run of [save_state] that the process does not survive: only the first
    [n] steps happen. *)
Definition save_state_killed (n : nat) (state : pyval) (t : gmap string node)
    : gmap string node * bool :=
  steps (take n (save_state_ops state)) t.

End Scraper.

(** ** Sample posts *)

Module Sample.

Definition image (source_url : string) : pyval :=
  PDict [("source", PDict [("url", PStr source_url); ("width", PInt 1080);
                           ("height", PInt 2340)]);
         ("resolutions", PList [PDict [("url", PStr "https://preview.redd.it/small.jpg?width=108");
                                       ("width", PInt 108)]]);
         ("id", PStr "img0")].

Definition preview_of (source_url : string) : pyval :=
  PDict [("images", PList [image source_url]); ("enabled", PBool true)].

Definition media (source_url : string) : pyval :=
  PDict [("status", PStr "valid"); ("e", PStr "Image"); ("m", PStr "image/jpg");
         ("p", PList [PDict [("u", PStr "https://preview.redd.it/small.jpg?width=108");
                             ("x", PInt 108)]]);
         ("s", PDict [("u", PStr source_url); ("x", PInt 1080); ("y", PInt 2340)])].

Definition items (ids : list string) : pyval :=
  PDict [("items", PList (map (λ k, PDict [("media_id", PStr k); ("id", PInt 1)]) ids))].

(** A gallery whose two items are the same image in two sizes, with the
    ampersands escaped as Reddit's JSON has them. *)
Definition gallery_two_sizes : submission.t :=
  {| submission.id := "abc123";
     submission.url := Some (PStr "https://www.reddit.com/gallery/abc123");
     submission.is_gallery := Some (PBool true);
     submission.media_metadata := Some (PDict
       [("m1", media "https://preview.redd.it/a.jpg?width=640&amp;s=11");
        ("m2", media "https://preview.redd.it/a.jpg?width=1080&amp;s=22")]);
     submission.gallery_data := Some (items ["m1"; "m2"]);
     submission.preview := None |}.

(** A gallery of two different images. *)
Definition gallery_two_images : submission.t :=
  {| submission.id := "abc123";
     submission.url := Some (PStr "https://www.reddit.com/gallery/abc123");
     submission.is_gallery := Some (PBool true);
     submission.media_metadata := Some (PDict
       [("m1", media "https://preview.redd.it/a.jpg?width=1080&amp;s=11");
        ("m2", media "https://preview.redd.it/b.jpg?width=1080&amp;s=22")]);
     submission.gallery_data := Some (items ["m1"; "m2"]);
     submission.preview := Some (preview_of "https://external-preview.redd.it/p.jpg?s=1") |}.

(** A gallery whose only item is animated: its source has no still image
    URL; the post also has a preview. *)
Definition gallery_animated : submission.t :=
  {| submission.id := "gif001";
     submission.url := Some (PStr "https://www.reddit.com/gallery/gif001");
     submission.is_gallery := Some (PBool true);
     submission.media_metadata := Some (PDict
       [("m1", PDict [("status", PStr "valid"); ("e", PStr "AnimatedImage");
                      ("s", PDict [("gif", PStr "https://i.redd.it/x.gif");
                                   ("mp4", PStr "https://preview.redd.it/x.gif?format=mp4");
                                   ("x", PInt 480); ("y", PInt 480)])])]);
     submission.gallery_data := Some (items ["m1"]);
     submission.preview := Some (preview_of "https://external-preview.redd.it/p.jpg?s=1") |}.

(** A gallery of an image, an animated item and another image; the post
    also has a preview. *)
Definition gallery_mixed : submission.t :=
  {| submission.id := "mix001";
     submission.url := Some (PStr "https://www.reddit.com/gallery/mix001");
     submission.is_gallery := Some (PBool true);
     submission.media_metadata := Some (PDict
       [("m1", media "https://preview.redd.it/a.jpg?width=1080&amp;s=11");
        ("m2", PDict [("status", PStr "valid"); ("e", PStr "AnimatedImage");
                      ("s", PDict [("gif", PStr "https://i.redd.it/x.gif");
                                   ("mp4", PStr "https://preview.redd.it/x.gif?format=mp4");
                                   ("x", PInt 480); ("y", PInt 480)])]);
        ("m3", media "https://preview.redd.it/c.jpg?width=1080&amp;s=33")]);
     submission.gallery_data := Some (items ["m1"; "m2"; "m3"]);
     submission.preview := Some (preview_of "https://external-preview.redd.it/p.jpg?s=1") |}.

(** A gallery of three images whose second item has no [media_id]. *)
Definition gallery_item_without_id : submission.t :=
  {| submission.id := "cut001";
     submission.url := Some (PStr "https://www.reddit.com/gallery/cut001");
     submission.is_gallery := Some (PBool true);
     submission.media_metadata := Some (PDict
       [("m1", media "https://preview.redd.it/a.jpg?width=1080&amp;s=11");
        ("m2", media "https://preview.redd.it/b.jpg?width=1080&amp;s=22");
        ("m3", media "https://preview.redd.it/c.jpg?width=1080&amp;s=33")]);
     submission.gallery_data := Some (PDict [("items", PList
       [PDict [("media_id", PStr "m1"); ("id", PInt 1)];
        PDict [("id", PInt 2)];
        PDict [("media_id", PStr "m3"); ("id", PInt 3)]])]);
     submission.preview := None |}.

(** A link post whose URL has an opening bracket without a closing one,
    with a preview. *)
Definition link_unparsable : submission.t :=
  {| submission.id := "bad001";
     submission.url := Some (PStr "http://[::1/article");
     submission.is_gallery := None;
     submission.media_metadata := None;
     submission.gallery_data := None;
     submission.preview := Some (preview_of "https://external-preview.redd.it/p.jpg?s=1") |}.

(** A link post to an article whose preview lists, before an image, an
    image whose source is [null]. *)
Definition link_preview_broken : submission.t :=
  {| submission.id := "lnk003";
     submission.url := Some (PStr "https://example.com/article");
     submission.is_gallery := None;
     submission.media_metadata := None;
     submission.gallery_data := None;
     submission.preview := Some (PDict [("images", PList
       [PDict [("source", PNone); ("id", PStr "img0")];
        image "https://external-preview.redd.it/p.jpg?s=1"])]) |}.

(** A link post: the page is not an image, its query string ends in [.png]. *)
Definition link_extension_in_query : submission.t :=
  {| submission.id := "lnk001";
     submission.url := Some (PStr "https://example.com/view?file=shot.png");
     submission.is_gallery := None;
     submission.media_metadata := None;
     submission.gallery_data := None;
     submission.preview := Some (preview_of "https://external-preview.redd.it/p.jpg?s=1") |}.

(** A link post to an article, with a preview whose first image has no
    source URL. *)
Definition link_article : submission.t :=
  {| submission.id := "lnk002";
     submission.url := Some (PStr "https://example.com/article");
     submission.is_gallery := Some (PBool false);
     submission.media_metadata := None;
     submission.gallery_data := None;
     submission.preview := Some (PDict [("images", PList
       [PDict [("id", PStr "img0")];
        image "https://external-preview.redd.it/p.jpg?width=1080&amp;s=1";
        image "https://external-preview.redd.it/q.jpg?width=1080&amp;s=2"])]) |}.

(** A single image on a native host whose submitted URL has an escaped
    ampersand. *)
Definition native_escaped : submission.t :=
  {| submission.id := "xyz789";
     submission.url := Some (PStr "https://i.redd.it/a.jpg?width=640&amp;s=11");
     submission.is_gallery := None;
     submission.media_metadata := None;
     submission.gallery_data := None;
     submission.preview := Some (preview_of "https://preview.redd.it/a.jpg?width=640&amp;s=11") |}.

(** A post whose preview source was escaped twice. *)
Definition preview_twice_escaped : submission.t :=
  {| submission.id := "dbl001";
     submission.url := Some (PStr "https://example.com/article");
     submission.is_gallery := None;
     submission.media_metadata := None;
     submission.gallery_data := None;
     submission.preview := Some (preview_of "https://external-preview.redd.it/p.jpg?a=1&amp;amp;b=2") |}.

(** A single-image post. *)
Definition single (pid url : string) : submission.t :=
  {| submission.id := pid;
     submission.url := Some (PStr url);
     submission.is_gallery := Some (PBool false);
     submission.media_metadata := None;
     submission.gallery_data := None;
     submission.preview := None |}.

Definition bytes_of (s : string) : list byte := list_byte_of_string s.

(** Stand-ins for the collaborators in the sample runs: the digest of some
    bytes is their text (distinct bytes, distinct digests); the names in the
    sample URLs have no percent escape, which is where [unquote] changes
    nothing; the reader knows the empty object and takes any other text for
    unparsable; the writer prints a value in pieces; a file is written unless
    its path holds a NUL character or its name is longer than 255
    characters. *)
Definition quote : string := String (ascii_of_nat 34) "".

Fixpoint print (v : pyval) : list string :=
  match v with
  | PNone => ["null"]
  | PBool b => [if b then "true" else "false"]
  | PInt z =>
      [if (z <? 0)%Z then "-" +:+ Py.str_of_nat (Z.to_nat (- z))
       else Py.str_of_nat (Z.to_nat z)]
  | PStr s => [quote +:+ s +:+ quote]
  | PList l =>
      ["["] ++
      (fix items (l : list pyval) : list string :=
         match l with
         | [] => []
         | [x] => print x
         | x :: rest => print x ++ [", "] ++ items rest
         end) l ++ ["]"]
  | PDict d =>
      ["{"] ++
      (fix members (d : list (string * pyval)) : list string :=
         match d with
         | [] => []
         | [(k, x)] => [quote +:+ k +:+ quote; ": "] ++ print x
         | (k, x) :: rest => [quote +:+ k +:+ quote; ": "] ++ print x ++ [", "] ++ members rest
         end) d ++ ["}"]
  end.

#[local] Instance collaborators : Collaborators := {|
  sha256_hexdigest := string_of_list_byte;
  unquote := λ s, s;
  home := "/home/user";
  json_load := λ text, if String.eqb text "{}" then Some (PDict []) else None;
  json_dump := print;
  open_wb := λ p, negb (Py.char_in "000" p)
                  && (String.length (basename p) <=? 255)%nat |}.

Definition jpeg (body : string) : fetched :=
  Response 200 [("Content-Type", "image/jpeg")] (bytes_of body).

(** Every location serves the same bytes. *)
Definition net_same_bytes : transport := λ _, jpeg "same bytes".

(** Nothing can be fetched. *)
Definition net_down : transport := λ _, TransportError.

(** The first image of [gallery_two_images] is gone (404), the second one is
    served. *)
Definition net_first_gone : transport := λ url,
  if String.eqb url "https://preview.redd.it/b.jpg?width=1080&s=22"
  then jpeg "image b"
  else Response 404 [] [].

(** Each image of [gallery_two_images] is served. *)
Definition net_gallery : transport := λ url,
  if String.eqb url "https://preview.redd.it/a.jpg?width=1080&s=11" then jpeg "image a"
  else if String.eqb url "https://preview.redd.it/b.jpg?width=1080&s=22" then jpeg "image b"
  else Response 404 [] [].

(** A location whose name has an extension of 300 characters. *)
Definition long_extension_url : string :=
  "https://i.redd.it/shot." +:+ string_of_list_ascii (repeat "x"%char 300).

(** A fresh run: nothing persisted. *)
Definition fresh : run := start [] [].

(** The state at the end of a first run over a gallery and a link post. *)
Definition first_run : run :=
  match feed_loop net_gallery [gallery_two_images; link_article] fresh with
  | Ok st => st
  | Raise _ => fresh
  end.

Definition state_path : string :=
  "/home/user/texting_theory_screenshots/.download_state.json".

(** The state file holds a truncated text. *)
Definition tree_corrupt : gmap string node :=
  {[ state_path := File "{ seen_hashes: [" ]}.

(** The same, with a directory where the sidecar would go. *)
Definition tree_corrupt_blocked : gmap string node :=
  <[ state_path +:+ ".corrupt" := Dir true ]> tree_corrupt.

(** A directory sits at the state path, with a file in it. *)
Definition tree_directory : gmap string node :=
  {[ state_path := Dir false;
     state_path +:+ "/child.txt" := File "kept";
     state_path +:+ ".bak" := File "{}" ]}.

(** The state file holds the empty object. *)
Definition tree_valid : gmap string node :=
  {[ state_path := File "{}" ]}.

Definition state_two : pyval :=
  PDict [("seen_hashes", PList [PStr "image a"; PStr "image b"]);
         ("seen_post_ids", PList [PStr "abc123"])].

End Sample.

(** * Properties *)

(** ** Strings *)

Lemma app_cons (a : ascii) (s t : string) : String a s +:+ t = String a (s +:+ t).
Proof. reflexivity. Qed.

Lemma app_nil_l (t : string) : "" +:+ t = t.
Proof. reflexivity. Qed.

Lemma app_assoc_str (s t u : string) : (s +:+ t) +:+ u = s +:+ (t +:+ u).
Proof. induction s as [|a s IH]; [done|]. by rewrite !app_cons, IH. Qed.

Lemma char_in_app (c : ascii) (s t : string) :
  Py.char_in c (s +:+ t) = Py.char_in c s || Py.char_in c t.
Proof.
  induction s as [|a s IH]; [done|].
  rewrite app_cons. simpl. by destruct (Ascii.eqb c a).
Qed.

Lemma lstrip_app_stop chars (b : string) (c : ascii) (q : string) :
  Py.char_in c chars = false →
  Py.lstrip chars (b +:+ String c q) = Py.lstrip chars b +:+ String c q.
Proof.
  intros Hc. induction b as [|a b IH].
  - rewrite app_nil_l. simpl. by rewrite Hc.
  - rewrite app_cons. simpl. by destruct (Py.char_in a chars).
Qed.

Lemma lstrip_char_in chars (x : ascii) (b : string) :
  Py.char_in x b = false → Py.char_in x (Py.lstrip chars b) = false.
Proof.
  induction b as [|a b IH]; [done|]. simpl.
  destruct (Ascii.eqb x a) eqn:E; [done|]. intros H.
  destruct (Py.char_in a chars); [by apply IH|]. simpl. by rewrite E.
Qed.

Lemma remove_chars_app chars (s t : string) :
  Py.remove_chars chars (s +:+ t) = Py.remove_chars chars s +:+ Py.remove_chars chars t.
Proof.
  induction s as [|a s IH]; [done|].
  rewrite app_cons. simpl. destruct (Py.char_in a chars); [done|].
  by rewrite app_cons, IH.
Qed.

Lemma remove_chars_char_in chars (x : ascii) (b : string) :
  Py.char_in x b = false → Py.char_in x (Py.remove_chars chars b) = false.
Proof.
  induction b as [|a b IH]; [done|]. simpl.
  destruct (Ascii.eqb x a) eqn:E; [done|]. intros H.
  destruct (Py.char_in a chars); [by apply IH|]. simpl. rewrite E. by apply IH.
Qed.

Lemma partition_app_l (c : ascii) (s t x y : string) :
  Py.partition c s = Some (x, y) → Py.partition c (s +:+ t) = Some (x, y +:+ t).
Proof.
  revert x y. induction s as [|a s IH]; intros x y; [done|].
  rewrite app_cons. simpl. destruct (Ascii.eqb a c); [by intros [= <- <-]|].
  destruct (Py.partition c s) as [[x' y']|]; [|done].
  intros [= <- <-]. by rewrite (IH x' y').
Qed.

Lemma partition_None (c : ascii) (s : string) :
  Py.partition c s = None ↔ Py.char_in c s = false.
Proof.
  induction s as [|a s IH]; [done|]. simpl.
  rewrite (Ascii.eqb_sym c a). destruct (Ascii.eqb a c); [done|].
  destruct (Py.partition c s) as [[x y]|]; [|exact IH].
  split; [done|]. intros H. apply IH in H. done.
Qed.

Lemma partition_absent_app (c : ascii) (s t : string) :
  Py.char_in c s = false →
  Py.partition c (s +:+ t) =
    match Py.partition c t with
    | Some (x, y) => Some (s +:+ x, y)
    | None => None
    end.
Proof.
  induction s as [|a s IH]; simpl.
  - intros _. rewrite app_nil_l. by destruct (Py.partition c t) as [[??]|].
  - rewrite (Ascii.eqb_sym c a). destruct (Ascii.eqb a c) eqn:E; [done|].
    intros H. rewrite (IH H).
    by destruct (Py.partition c t) as [[??]|].
Qed.

Lemma partition_here (c : ascii) (s q : string) :
  Py.char_in c s = false → Py.partition c (s +:+ String c q) = Some (s, q).
Proof.
  intros H. rewrite (partition_absent_app _ _ _ H). simpl.
  rewrite Ascii.eqb_refl. f_equal. f_equal.
  clear H. induction s as [|a s IH]; [done|]. by rewrite app_cons, IH.
Qed.

Lemma partition_char_in (c x : ascii) (s before after : string) :
  Py.partition c s = Some (before, after) →
  Py.char_in x s = false →
  Py.char_in x before = false ∧ Py.char_in x after = false.
Proof.
  revert before after. induction s as [|a s IH]; intros before after; [done|].
  simpl. destruct (Ascii.eqb x a) eqn:E; [done|].
  destruct (Ascii.eqb a c).
  - by intros [= <- <-] ?.
  - destruct (Py.partition c s) as [[b' a']|]; [|done].
    intros [= <- <-] H. destruct (IH b' a' eq_refl H) as [H1 H2].
    simpl. by rewrite E.
Qed.

Lemma all_in_app_stop chars (s : string) (c : ascii) (q : string) :
  Py.char_in c chars = false → Py.all_in chars (s +:+ String c q) = false.
Proof.
  intros Hc. induction s as [|a s IH].
  - rewrite app_nil_l. simpl. by rewrite Hc.
  - rewrite app_cons. simpl. rewrite IH. apply andb_false_r.
Qed.

Lemma break_at_app_stop stops (b : string) (c : ascii) (q : string) :
  Py.char_in c stops = true →
  Py.break_at stops (b +:+ String c q) =
    ((Py.break_at stops b).1, (Py.break_at stops b).2 +:+ String c q).
Proof.
  intros Hc. induction b as [|a b IH].
  - rewrite app_nil_l. simpl. by rewrite Hc.
  - rewrite app_cons. simpl. destruct (Py.char_in a stops); [done|].
    rewrite IH. by destruct (Py.break_at stops b).
Qed.

Lemma break_at_char_in stops (x : ascii) (b : string) :
  Py.char_in x b = false →
  Py.char_in x (Py.break_at stops b).1 = false ∧
  Py.char_in x (Py.break_at stops b).2 = false.
Proof.
  induction b as [|a b IH]; [done|]. simpl.
  destruct (Ascii.eqb x a) eqn:E; [done|]. intros H.
  destruct (Py.char_in a stops); simpl; [by rewrite E|].
  destruct (IH H) as [H1 H2]. destruct (Py.break_at stops b); simpl in *.
  by rewrite E.
Qed.

Lemma drop_char_in (x : ascii) (n : nat) (b : string) :
  Py.char_in x b = false → Py.char_in x (Py.drop n b) = false.
Proof.
  revert b. induction n as [|n IH]; intros [|a b]; simpl; try done.
  destruct (Ascii.eqb x a); [done|]. apply IH.
Qed.

Lemma prefix_slashes_query (b q : string) :
  Py.startswith (b +:+ String "?" q) "//" = Py.startswith b "//".
Proof.
  destruct b as [|a [|a' b]]; [reflexivity| |reflexivity].
  rewrite app_cons, app_nil_l. simpl. by rewrite andb_false_r.
Qed.

Lemma drop2_app (b r : string) :
  Py.startswith b "//" = true → Py.drop 2 (b +:+ r) = Py.drop 2 b +:+ r.
Proof. destruct b as [|a [|a' b]]; simpl; try done. by rewrite andb_false_r. Qed.

(** ** [urlparse] does not look at the query to find scheme, netloc and path *)

Lemma split_scheme_query (b q : string) :
  Py.char_in "?" b = false →
  split_scheme (b +:+ String "?" q) =
    ((split_scheme b).1, (split_scheme b).2 +:+ String "?" q).
Proof.
  intros Hb. unfold split_scheme.
  destruct (Py.partition ":" b) as [[x y]|] eqn:Hp.
  - rewrite (partition_app_l _ _ _ _ _ Hp).
    by destruct (negb (String.eqb x "") && Py.all_in scheme_chars x).
  - apply partition_None in Hp. rewrite (partition_absent_app _ _ _ Hp).
    destruct (Py.partition ":" (String "?" q)) as [[x y]|] eqn:Hq; [|done].
    simpl in Hq. destruct (Py.partition ":" q) as [[x' y']|]; [|done].
    injection Hq as <- <-.
    rewrite (all_in_app_stop scheme_chars b "?" x'); [|done].
    by rewrite andb_false_r.
Qed.

Lemma split_scheme_char_in (x : ascii) (b : string) :
  Py.char_in x b = false → Py.char_in x (split_scheme b).2 = false.
Proof.
  intros Hb. unfold split_scheme.
  destruct (Py.partition ":" b) as [[u v]|] eqn:Hp; [|done].
  destruct (partition_char_in _ x _ _ _ Hp Hb) as [_ Hv].
  by destruct (negb (String.eqb u "") && Py.all_in scheme_chars u).
Qed.

Lemma split_netloc_query (b q : string) :
  split_netloc (b +:+ String "?" q) =
    match split_netloc b with
    | Ok (loc, rest) => Ok (loc, rest +:+ String "?" q)
    | Raise e => Raise e
    end.
Proof.
  unfold split_netloc. rewrite prefix_slashes_query.
  destruct (Py.startswith b "//") eqn:Hp; [|done].
  rewrite (drop2_app _ _ Hp), break_at_app_stop by done.
  destruct (Py.break_at "/?#" (Py.drop 2 b)) as [loc rest]. simpl.
  by destruct (xorb (Py.char_in "[" loc) (Py.char_in "]" loc)).
Qed.

Lemma split_netloc_char_in (x : ascii) (b loc rest : string) :
  split_netloc b = Ok (loc, rest) →
  Py.char_in x b = false → Py.char_in x rest = false.
Proof.
  unfold split_netloc. destruct (Py.startswith b "//").
  - intros H Hb.
    destruct (break_at_char_in "/?#" x (Py.drop 2 b) (drop_char_in x 2 b Hb)) as [_ H2].
    destruct (Py.break_at "/?#" (Py.drop 2 b)) as [l r].
    destruct (xorb (Py.char_in "[" l) (Py.char_in "]" l)); [done|].
    by injection H as <- <-.
  - by intros [= <- <-].
Qed.

Lemma cut_absent (c : ascii) (b : string) :
  Py.char_in c b = false → cut c b = (b, "").
Proof. intros H. unfold cut. apply partition_None in H. by rewrite H. Qed.

Lemma cut_query_here (b q : string) :
  Py.char_in "?" b = false → cut "?" (b +:+ String "?" q) = (b, q).
Proof. intros H. unfold cut. by rewrite partition_here. Qed.

Lemma cut_fragment_query (b q : string) :
  Py.char_in "#" b = false →
  cut "#" (b +:+ String "?" q) = (b +:+ String "?" (cut "#" q).1, (cut "#" q).2).
Proof.
  intros H. unfold cut. rewrite (partition_absent_app _ _ _ H). simpl.
  by destruct (Py.partition "#" q) as [[x y]|].
Qed.

Lemma urlsplit_query (base q : string) :
  Py.char_in "?" base = false → Py.char_in "#" base = false →
  match urlsplit base with
  | Ok (sch, loc, p, _, _) =>
      ∃ qry frag, urlsplit (base +:+ String "?" q) = Ok (sch, loc, p, qry, frag)
  | Raise e => urlsplit (base +:+ String "?" q) = Raise e
  end.
Proof.
  intros Hq Hf. unfold urlsplit.
  rewrite lstrip_app_stop by done.
  rewrite remove_chars_app.
  change (Py.remove_chars UNSAFE_URL_BYTES_TO_REMOVE (String "?" q))
    with (String "?" (Py.remove_chars UNSAFE_URL_BYTES_TO_REMOVE q)).
  set (b := Py.remove_chars _ (Py.lstrip _ base)).
  set (q' := Py.remove_chars _ q).
  assert (Hbq : Py.char_in "?" b = false)
    by by apply remove_chars_char_in, lstrip_char_in.
  assert (Hbf : Py.char_in "#" b = false)
    by by apply remove_chars_char_in, lstrip_char_in.
  rewrite (split_scheme_query b q' Hbq).
  pose proof (split_scheme_char_in "?" b Hbq) as Hsq.
  pose proof (split_scheme_char_in "#" b Hbf) as Hsf.
  destruct (split_scheme b) as [sch b3]. simpl in *.
  rewrite split_netloc_query.
  destruct (split_netloc b3) as [[loc rest]|e] eqn:Hn; [|done]. simpl.
  pose proof (split_netloc_char_in "?" _ _ _ Hn Hsq) as Hrq.
  pose proof (split_netloc_char_in "#" _ _ _ Hn Hsf) as Hrf.
  rewrite (cut_absent "#" rest Hrf), (cut_absent "?" rest Hrq).
  rewrite (cut_fragment_query rest q' Hrf).
  rewrite (cut_query_here rest _ Hrq). eauto.
Qed.

Lemma urlparse_query (base q : string) :
  Py.char_in "?" base = false → Py.char_in "#" base = false →
  match urlparse base with
  | Ok p =>
      ∃ p', urlparse (base +:+ String "?" q) = Ok p' ∧
            scheme p' = scheme p ∧ netloc p' = netloc p ∧ path p' = path p
  | Raise e => urlparse (base +:+ String "?" q) = Raise e
  end.
Proof.
  intros Hq Hf. pose proof (urlsplit_query base q Hq Hf) as H.
  unfold urlparse.
  destruct (urlsplit base) as [[[[[sch loc] p] qry] frag]|e].
  - destruct H as (qry' & frag' & ->). unfold mbind, result_bind.
    destruct (in_list sch uses_params && Py.char_in ";" p).
    + destruct (splitparams p) as [p1 prm]. by eexists.
    + by eexists.
  - by rewrite H.
Qed.

Lemma normalize_query (base q : string) (p : ParseResult) :
  Py.char_in "?" base = false → Py.char_in "#" base = false →
  urlparse base = Ok p →
  Py.lower (netloc p) ∈ REDDIT_IMAGE_HOSTS →
  _normalize_reddit_image_url (base +:+ String "?" q) =
    scheme p +:+ "://" +:+ Py.lower (netloc p) +:+ path p.
Proof.
  intros Hq Hf Hp Hhost. pose proof (urlparse_query base q Hq Hf) as H.
  rewrite Hp in H. destruct H as (p' & Hp' & Hs & Hn & Hpath).
  unfold _normalize_reddit_image_url. rewrite Hp'. simpl.
  rewrite Hs, Hn, Hpath. by rewrite bool_decide_eq_true_2.
Qed.

(** ** The closing loop of the resolver *)

Lemma dedupe_loop_acc (urls deduped : list string) (seen : gset string) :
  dedupe_loop urls deduped seen = deduped ++ dedupe_loop urls [] seen.
Proof.
  revert deduped seen. induction urls as [|x urls IH]; intros deduped seen; simpl.
  - by rewrite app_nil_r.
  - case_bool_decide; [apply IH|].
    rewrite (IH (deduped ++ [x])), (IH [x]). by rewrite <- app_assoc.
Qed.

Lemma dedupe_loop_seen (c : string) (urls : list string) (seen : gset string) :
  c ∈ seen →
  filter (λ x, _normalize_reddit_image_url x = c) (dedupe_loop urls [] seen) = [].
Proof.
  revert seen. induction urls as [|x urls IH]; intros seen Hc; simpl; [done|].
  case_bool_decide as Hx; [by apply IH|].
  rewrite dedupe_loop_acc. rewrite filter_app, filter_cons, filter_nil.
  rewrite IH by set_solver.
  case_decide as Hxc; [|done]. by subst c.
Qed.

Lemma dedupe_loop_first (c : string) (urls : list string) (seen : gset string) :
  c ∉ seen →
  filter (λ x, _normalize_reddit_image_url x = c) (dedupe_loop urls [] seen) =
    take 1 (filter (λ x, _normalize_reddit_image_url x = c) urls).
Proof.
  revert seen. induction urls as [|x urls IH]; intros seen Hc; simpl; [done|].
  rewrite filter_cons.
  destruct (decide (_normalize_reddit_image_url x ∈ seen)) as [Hx|Hx].
  - rewrite bool_decide_eq_true_2 by done.
    case_decide as Hxc; [congruence|]. by apply IH.
  - rewrite bool_decide_eq_false_2 by done.
    rewrite dedupe_loop_acc, filter_app, filter_cons, filter_nil.
    case_decide as Hxc.
    + rewrite dedupe_loop_seen by set_solver. done.
    + simpl. apply IH. intros [Hc'%elem_of_singleton|Hc']%elem_of_union; by auto.
Qed.

Lemma dedupe_loop_subset (urls : list string) (seen : gset string) (x : string) :
  x ∈ dedupe_loop urls [] seen → x ∈ urls.
Proof.
  revert seen. induction urls as [|y urls IH]; intros seen; simpl; [done|].
  case_bool_decide as Hy.
  - intros H. right. by eapply IH.
  - rewrite dedupe_loop_acc. intros [H|H]%elem_of_app.
    + apply list_elem_of_singleton in H as ->. left.
    + right. by eapply IH.
Qed.

Lemma resolver_dedupes (sub : submission.t) (urls : list string) :
  candidate_urls sub = Ok urls →
  get_image_urls_from_submission sub = Ok (dedupe_loop urls [] ∅).
Proof. intros H. unfold get_image_urls_from_submission. by rewrite H. Qed.

(** C6. Two emitted URLs on a native image host that differ only in their
    query string have the same canonical form, scheme + host + path, and the
    resolver output keeps exactly one candidate of that form: the text of
    the first occurrence. *)
Theorem canonical_dedupe_collapses_query_variants
    (sub : submission.t) (pre mid post : list string) (base q1 q2 : string)
    (p : ParseResult) :
  candidate_urls sub =
    Ok (pre ++ (base +:+ String "?" q1) :: mid ++ (base +:+ String "?" q2) :: post) →
  Py.char_in "?" base = false →
  Py.char_in "#" base = false →
  urlparse base = Ok p →
  Py.lower (netloc p) ∈ REDDIT_IMAGE_HOSTS →
  Forall (λ x, _normalize_reddit_image_url x ≠
               scheme p +:+ "://" +:+ Py.lower (netloc p) +:+ path p) pre →
  _normalize_reddit_image_url (base +:+ String "?" q1) =
    scheme p +:+ "://" +:+ Py.lower (netloc p) +:+ path p ∧
  _normalize_reddit_image_url (base +:+ String "?" q2) =
    scheme p +:+ "://" +:+ Py.lower (netloc p) +:+ path p ∧
  ∃ out, get_image_urls_from_submission sub = Ok out ∧
         filter (λ x, _normalize_reddit_image_url x =
                      scheme p +:+ "://" +:+ Py.lower (netloc p) +:+ path p) out =
           [base +:+ String "?" q1].
Proof.
  intros Hurls Hq Hf Hp Hhost Hpre.
  pose proof (normalize_query base q1 p Hq Hf Hp Hhost) as H1.
  pose proof (normalize_query base q2 p Hq Hf Hp Hhost) as H2.
  split; [done|]. split; [done|].
  eexists. split; [by apply resolver_dedupes|].
  rewrite dedupe_loop_first by set_solver.
  rewrite filter_app, filter_cons.
  assert (filter (λ x, _normalize_reddit_image_url x =
            scheme p +:+ "://" +:+ Py.lower (netloc p) +:+ path p) pre = []) as ->.
  { clear Hurls. induction Hpre as [|x pre Hx _ IH]; [done|].
    rewrite filter_cons. by case_decide. }
  by case_decide.
Qed.

(** ** The rules of the resolver *)

Arguments Py.startswith : simpl never.
Arguments Py.endswith : simpl never.
Arguments Py.lower : simpl never.
Arguments Py.replace : simpl never.
Arguments urlparse : simpl never.
Arguments _normalize_reddit_image_url : simpl never.

Lemma startswith_nonempty (s p : string) :
  Py.startswith s p = true → p ≠ "" → s ≠ "".
Proof. destruct p, s; try done. Qed.

Lemma usable_source_str (src : string) :
  Py.startswith src "http" = true →
  usable_source (PStr src) = Ok (Some (Py.replace src "&amp;" "&")).
Proof.
  intros H. unfold usable_source.
  assert (truthy (PStr src) = true) as -> by (destruct src; [discriminate H|done]).
  unfold as_str, mbind, result_bind. by rewrite H.
Qed.

Lemma usable_source_inv (v : pyval) (x : string) :
  usable_source v = Ok (Some x) →
  ∃ src, v = PStr src ∧ Py.startswith src "http" = true ∧
         x = Py.replace src "&amp;" "&".
Proof.
  unfold usable_source. destruct (truthy v); [|done].
  destruct v as [| | |src| |]; try done.
  unfold as_str, mbind, result_bind.
  destruct (Py.startswith src "http") eqn:E; [|done].
  intros [= <-]. by exists src.
Qed.

Lemma getitem_dict_get (v : pyval) (k : string) (x default : pyval) :
  getitem v k = Ok x → dict_get v (PStr k) default = Ok x.
Proof.
  destruct v as [| | | | |d]; try done. simpl.
  by destruct (assoc k d); [intros [= ->]|].
Qed.

Lemma getitem_truthy (v : pyval) (k : string) (x : pyval) :
  getitem v k = Ok x → truthy v = true.
Proof. destruct v as [| | | | |[|kv d]]; done. Qed.

Lemma gallery_item_source_of (metadata item : pyval) (src : string) :
  item_source_url metadata item = Some src →
  Py.startswith src "http" = true →
  gallery_item_source metadata item = Ok (Some (Py.replace src "&amp;" "&")).
Proof.
  unfold item_source_url, gallery_item_source. intros H Hhttp.
  destruct (getitem item "media_id") as [[| | |k| |]|]; try done. simpl.
  destruct (getitem metadata k) as [meta|] eqn:Hm; [|done].
  rewrite (getitem_dict_get _ _ _ _ Hm). simpl.
  destruct (getitem meta "s") as [s|] eqn:Hs; [|done].
  rewrite (getitem_dict_get _ _ _ _ Hs). simpl.
  destruct (getitem s "u") as [[| | |u| |]|] eqn:Hu; try done.
  injection H as ->. unfold py_or. rewrite (getitem_truthy _ _ _ Hu).
  rewrite (getitem_dict_get _ _ _ _ Hu). simpl.
  by apply usable_source_str.
Qed.

Lemma dict_get_found (v key default x : pyval) :
  dict_get v key default = Ok x → x ≠ default →
  ∃ k, key = PStr k ∧ getitem v k = Ok x.
Proof.
  destruct v as [| | | | |d]; try done. simpl.
  destruct key as [| | |k| |]; try done; try by intros [= <-].
  intros [= <-] Hx. exists k. split; [done|]. by destruct (assoc k d).
Qed.

(** What the body of the gallery loop appends is the stored source URL of
    the item, decoded. *)
Lemma gallery_item_source_inv (metadata item : pyval) (x : string) :
  gallery_item_source metadata item = Ok (Some x) →
  ∃ src, item_source_url metadata item = Some src ∧
         Py.startswith src "http" = true ∧
         x = Py.replace src "&amp;" "&".
Proof.
  unfold gallery_item_source, item_source_url, mbind, result_bind.
  destruct (getitem item "media_id") as [media_id|]; [|done].
  destruct (dict_get metadata media_id (PDict [])) as [meta|] eqn:Hmeta; [|done].
  destruct (dict_get meta (PStr "s") PNone) as [s|] eqn:Hs; [|done].
  destruct (dict_get (py_or s (PDict [])) (PStr "u") PNone) as [v|] eqn:Hu; [|done].
  intros (src & -> & Hhttp & ->)%usable_source_inv. exists src.
  apply dict_get_found in Hu as (k & [= <-] & Hu); [|done].
  assert (py_or s (PDict []) = s) as Hor.
  { unfold py_or in *. by destruct (truthy s). }
  rewrite Hor in Hu.
  apply dict_get_found in Hs as (k & [= <-] & Hs); [|by intros ->].
  apply dict_get_found in Hmeta as (k & -> & Hmeta); [|by intros ->].
  by rewrite Hmeta, Hs, Hu.
Qed.

(** What the body of the preview loop takes is the stored source URL of
    the image, decoded. *)
Lemma preview_image_source_inv (img : pyval) (x : string) :
  preview_image_source img = Ok (Some x) →
  ∃ source src, getitem img "source" = Ok source ∧
                getitem source "url" = Ok (PStr src) ∧
                Py.startswith src "http" = true ∧
                x = Py.replace src "&amp;" "&".
Proof.
  unfold preview_image_source, mbind, result_bind.
  destruct (dict_get img (PStr "source") (PDict [])) as [source|] eqn:Hsource; [|done].
  destruct (dict_get source (PStr "url") PNone) as [v|] eqn:Hv; [|done].
  intros (src & -> & Hhttp & ->)%usable_source_inv. exists source, src.
  apply dict_get_found in Hv as (k & [= <-] & Hv); [|done].
  apply dict_get_found in Hsource as (k & [= <-] & Hsource); [|by intros ->].
  done.
Qed.

(** The gallery loop on items that the body gets through, each with a
    stored source URL beginning with [http] or passed over. *)
Lemma gallery_loop_classified (metadata : pyval) (good : list pyval)
    (outs : list (option string)) (tail : list pyval) (urls : list string) :
  Forall2 (λ item o,
             match o with
             | Some src => item_source_url metadata item = Some src ∧
                           Py.startswith src "http" = true
             | None => gallery_item_source metadata item = Ok None
             end) good outs →
  gallery_loop metadata (good ++ tail) urls =
    gallery_loop metadata tail
      (urls ++ map (λ src, Py.replace src "&amp;" "&") (omap id outs)).
Proof.
  intros H. revert urls. induction H as [|item o good outs Hi _ IH]; intros urls.
  - simpl. by rewrite app_nil_r.
  - simpl. destruct o as [src|]; simpl.
    + destruct Hi as [Hi Hhttp].
      rewrite (gallery_item_source_of _ _ _ Hi Hhttp), IH.
      by rewrite <- app_assoc.
    + rewrite Hi. apply IH.
Qed.

Lemma gallery_loop_stored (metadata : pyval) (items : list pyval)
    (urls : list string) (x : string) :
  x ∈ gallery_loop metadata items urls →
  x ∈ urls ∨
  ∃ item src, item ∈ items ∧ item_source_url metadata item = Some src ∧
              Py.startswith src "http" = true ∧
              x = Py.replace src "&amp;" "&".
Proof.
  revert urls. induction items as [|item items IH]; intros urls; simpl; [by left|].
  destruct (gallery_item_source metadata item) as [[u|]|e] eqn:Hi; [| |by left].
  - intros [[Hx|Hx]%elem_of_app|(it & src & Hin & Hrest)]%IH; [by left| |].
    + apply list_elem_of_singleton in Hx as ->. right.
      destruct (gallery_item_source_inv _ _ _ Hi) as (src & Hsrc & Hhttp & ->).
      exists item, src. split_and!; [apply elem_of_cons; by left|done..].
    + right. exists it, src. split; [apply elem_of_cons; by right|done].
  - intros [Hx|(it & src & Hin & Hrest)]%IH; [by left|].
    right. exists it, src. split; [apply elem_of_cons; by right|done].
Qed.

Lemma gallery_urls_stored (sub : submission.t) (x : string) :
  x ∈ gallery_urls sub →
  ∃ metadata items item src,
    gallery_items sub = Ok (Some (metadata, items)) ∧ item ∈ items ∧
    item_source_url metadata item = Some src ∧
    Py.startswith src "http" = true ∧
    x = Py.replace src "&amp;" "&".
Proof.
  unfold gallery_urls.
  destruct (gallery_items sub) as [[[metadata items]|]|]; [| |];
    try by intros ?%elem_of_nil.
  intros [?%elem_of_nil|(item & src & Hrest)]%gallery_loop_stored; [done|].
  by exists metadata, items, item, src.
Qed.

Lemma preview_loop_stored (images : list pyval) (urls : list string) (x : string) :
  preview_loop images = Ok urls → x ∈ urls →
  ∃ img source src, img ∈ images ∧ getitem img "source" = Ok source ∧
                    getitem source "url" = Ok (PStr src) ∧
                    Py.startswith src "http" = true ∧
                    x = Py.replace src "&amp;" "&".
Proof.
  induction images as [|img images IH]; simpl.
  - by intros [= <-] ?%elem_of_nil.
  - destruct (preview_image_source img) as [[u|]|] eqn:Hi; simpl; [| |done].
    + intros [= <-] ->%list_elem_of_singleton.
      destruct (preview_image_source_inv _ _ Hi) as (source & src & Hrest).
      exists img, source, src. split; [apply elem_of_cons; by left|done].
    + intros Hl Hx. destruct (IH Hl Hx) as (i & source & src & Hin & Hrest).
      exists i, source, src. split; [apply elem_of_cons; by right|done].
Qed.

Lemma preview_urls_stored (sub : submission.t) (x : string) :
  x ∈ preview_urls sub →
  ∃ pv images l img source src,
    submission.preview sub = Some pv ∧ getitem pv "images" = Ok images ∧
    iterate images = Ok l ∧ img ∈ l ∧
    getitem img "source" = Ok source ∧
    getitem source "url" = Ok (PStr src) ∧
    Py.startswith src "http" = true ∧
    x = Py.replace src "&amp;" "&".
Proof.
  unfold preview_urls.
  destruct (submission.preview sub) as [p|]; simpl; [|by intros ?%elem_of_nil].
  destruct (truthy p); [|by intros ?%elem_of_nil].
  destruct (py_in "images" p) as [[|]|]; simpl; try by intros ?%elem_of_nil.
  destruct (getitem p "images") as [images|] eqn:Himages; simpl;
    [|by intros ?%elem_of_nil].
  destruct (iterate images) as [l|] eqn:Hit; simpl; [|by intros ?%elem_of_nil].
  destruct (preview_loop l) as [urls|] eqn:Hl; [|by intros ?%elem_of_nil].
  intros Hx. destruct (preview_loop_stored l _ _ Hl Hx) as (img & source & src & Hrest).
  exists p, images, l, img, source, src. by do 3 (split; [done|]).
Qed.

Lemma gallery_loop_sources (metadata : pyval) (items : list pyval)
    (srcs urls : list string) :
  Forall2 (λ item src, item_source_url metadata item = Some src) items srcs →
  Forall (λ src, Py.startswith src "http" = true) srcs →
  gallery_loop metadata items urls =
    urls ++ map (λ src, Py.replace src "&amp;" "&") srcs.
Proof.
  intros H. revert urls. induction H as [|item src items srcs Hi _ IH];
    intros urls Hhttp; simpl.
  - by rewrite app_nil_r.
  - apply Forall_cons in Hhttp as [Hsrc Hhttp].
    rewrite (gallery_item_source_of _ _ _ Hi Hsrc), IH by done.
    by rewrite <- app_assoc.
Qed.

Lemma gallery_loop_inv (metadata : pyval) (items : list pyval)
    (urls : list string) (x : string) :
  x ∈ gallery_loop metadata items urls →
  x ∈ urls ∨ ∃ src, Py.startswith src "http" = true ∧
                    x = Py.replace src "&amp;" "&".
Proof.
  revert urls. induction items as [|item items IH]; intros urls; simpl; [by left|].
  destruct (gallery_item_source metadata item) as [[u|]|e] eqn:Hi; [| |by left].
  - intros [[Hx|Hx]%elem_of_app|Hx]%IH; [by left| |by right].
    apply list_elem_of_singleton in Hx as ->. right.
    unfold gallery_item_source in Hi.
    destruct (getitem item "media_id") as [media_id|]; [|done]. simpl in Hi.
    destruct (dict_get metadata media_id (PDict [])) as [meta|]; [|done]. simpl in Hi.
    destruct (dict_get meta (PStr "s") PNone) as [s|]; [|done]. simpl in Hi.
    destruct (dict_get (py_or s (PDict [])) (PStr "u") PNone) as [src|]; [|done].
    simpl in Hi. apply usable_source_inv in Hi as (src' & _ & ? & ?). eauto.
  - apply IH.
Qed.

Lemma gallery_urls_inv (sub : submission.t) (x : string) :
  x ∈ gallery_urls sub →
  ∃ src, Py.startswith src "http" = true ∧ x = Py.replace src "&amp;" "&".
Proof.
  unfold gallery_urls.
  destruct (gallery_items sub) as [[[metadata items]|]|]; [| |];
    try by intros ?%elem_of_nil.
  intros [?%elem_of_nil|H]%gallery_loop_inv; done.
Qed.

Lemma preview_loop_inv (images : list pyval) (urls : list string) (x : string) :
  preview_loop images = Ok urls → x ∈ urls →
  ∃ src, Py.startswith src "http" = true ∧ x = Py.replace src "&amp;" "&".
Proof.
  induction images as [|img images IH]; simpl.
  - by intros [= <-] ?%elem_of_nil.
  - destruct (preview_image_source img) as [[u|]|] eqn:Hi; simpl; [| |done].
    + intros [= <-] ->%list_elem_of_singleton.
      unfold preview_image_source in Hi.
      destruct (dict_get img (PStr "source") (PDict [])) as [source|]; [|done].
      simpl in Hi.
      destruct (dict_get source (PStr "url") PNone) as [src|]; [|done].
      simpl in Hi. apply usable_source_inv in Hi as (src' & _ & ? & ?). eauto.
    + apply IH.
Qed.

Lemma preview_urls_inv (sub : submission.t) (x : string) :
  x ∈ preview_urls sub →
  ∃ src, Py.startswith src "http" = true ∧ x = Py.replace src "&amp;" "&".
Proof.
  unfold preview_urls.
  destruct (attr (submission.preview sub)) as [p|]; simpl;
    [|by intros ?%elem_of_nil].
  destruct (truthy p); [|by intros ?%elem_of_nil].
  destruct (py_in "images" p) as [[|]|]; simpl; try by intros ?%elem_of_nil.
  destruct (getitem p "images") as [images|]; simpl; [|by intros ?%elem_of_nil].
  destruct (iterate images) as [l|]; simpl; [|by intros ?%elem_of_nil].
  destruct (preview_loop l) as [urls|] eqn:Hl; [|by intros ?%elem_of_nil].
  by apply (preview_loop_inv l).
Qed.

Lemma item_source_url_metadata (metadata item : pyval) (src : string) :
  item_source_url metadata item = Some src → truthy metadata = true.
Proof.
  unfold item_source_url.
  destruct (getitem item "media_id") as [[| | |k| |]|]; try done.
  destruct (getitem metadata k) as [meta|] eqn:Hm; [|done].
  intros _. by eapply getitem_truthy.
Qed.

Lemma dedupe_loop_singleton (x : string) : dedupe_loop [x] [] ∅ = [x].
Proof. reflexivity. Qed.

(** C2, as the code has it. For a post flagged as a gallery that carries
    metadata, the gallery rule walks through the items for as long as the
    loop body does not raise: an item whose metadata records a source URL
    beginning with [http] contributes that URL with its ["&amp;"] decoded,
    an item without one is passed over, and an item on which the body raises
    ends the loop with what was appended kept.  When that is at least one
    URL, the resolver emits these URLs in gallery order, minus every URL
    whose canonical form an earlier one already had, and nothing else,
    whatever the preview structure and the submitted URL are. *)
Theorem gallery_emits_decoded_sources
    (sub : submission.t) (metadata data : pyval) (good rest : list pyval)
    (outs : list (option string)) :
  truthy (getattr (submission.is_gallery sub) (PBool false)) = true →
  submission.media_metadata sub = Some metadata →
  truthy metadata = true →
  submission.gallery_data sub = Some data →
  getitem data "items" = Ok (PList (good ++ rest)) →
  Forall2 (λ item o,
             match o with
             | Some src => item_source_url metadata item = Some src ∧
                           Py.startswith src "http" = true
             | None => gallery_item_source metadata item = Ok None
             end) good outs →
  (rest = [] ∨
   ∃ bad rest' e, rest = bad :: rest' ∧ gallery_item_source metadata bad = Raise e) →
  gallery_urls sub = map (λ src, Py.replace src "&amp;" "&") (omap id outs) ∧
  (omap id outs ≠ [] →
   get_image_urls_from_submission sub =
     Ok (dedupe_loop (map (λ src, Py.replace src "&amp;" "&") (omap id outs)) [] ∅) ∧
   ∀ out x, get_image_urls_from_submission sub = Ok out → x ∈ out →
            ∃ src, src ∈ omap id outs ∧ x = Py.replace src "&amp;" "&").
Proof.
  intros Hflag Hmeta Htruthy Hdata Hitems Hgood Hrest.
  assert (Hg : gallery_urls sub =
                 map (λ src, Py.replace src "&amp;" "&") (omap id outs)).
  { unfold gallery_urls, gallery_items.
    rewrite Hflag, Hmeta, Hdata. simpl. rewrite Htruthy, Hitems. simpl.
    rewrite (gallery_loop_classified _ _ outs) by done. simpl.
    destruct Hrest as [->|(bad & rest' & e & -> & Hbad)]; [done|].
    simpl. by rewrite Hbad. }
  split; [done|]. intros Hne.
  assert (Hres : get_image_urls_from_submission sub =
    Ok (dedupe_loop (map (λ src, Py.replace src "&amp;" "&") (omap id outs)) [] ∅)).
  { apply resolver_dedupes. unfold candidate_urls. rewrite Hg.
    by destruct (omap id outs). }
  split; [done|].
  intros out x Hout Hx. rewrite Hres in Hout. injection Hout as <-.
  apply dedupe_loop_subset in Hx.
  apply list_elem_of_fmap in Hx as (src & -> & Hx). eauto.
Qed.

(** C5, as the code has it. For a post not flagged as a gallery, whose
    submitted URL is not on a native image host and, read as plain text in
    lower case, does not end in a recognized image extension, and whose
    preview structure lists an image with a source URL beginning with
    [http] after images that contribute nothing, the resolver emits exactly
    one location: that first source URL, with its ["&amp;"] decoded. *)
Theorem preview_is_the_last_resort
    (sub : submission.t) (u : string) (pv source img : pyval)
    (before after : list pyval) (src : string) :
  truthy (getattr (submission.is_gallery sub) (PBool false)) = false →
  submission.url sub = Some (PStr u) →
  (Py.startswith u "http" = false ∨
   ∃ p, urlparse u = Ok p ∧ Py.lower (netloc p) ∉ REDDIT_IMAGE_HOSTS) →
  Py.startswith (Py.lower u) "http"
    && existsb (Py.endswith (Py.lower u)) IMAGE_EXTENSIONS = false →
  submission.preview sub = Some pv →
  getitem pv "images" = Ok (PList (before ++ img :: after)) →
  Forall (λ i, preview_image_source i = Ok None) before →
  getitem img "source" = Ok source →
  getitem source "url" = Ok (PStr src) →
  Py.startswith src "http" = true →
  get_image_urls_from_submission sub = Ok [Py.replace src "&amp;" "&"].
Proof.
  intros Hflag Hurl Hhost Hext Hpv Himages Hbefore Hsource Hsrc Hhttp.
  rewrite <- dedupe_loop_singleton. apply resolver_dedupes.
  unfold candidate_urls, gallery_urls, gallery_items. rewrite Hflag.
  assert (native_host_urls sub = Ok []) as ->.
  { unfold native_host_urls. rewrite Hurl. simpl.
    assert (py_or (PStr u) (PStr "") = PStr u ∨ u = "") as [->| ->].
    { unfold py_or. simpl. destruct u; auto. }
    - simpl. destruct Hhost as [->|(p & -> & Hp)]; [done|].
      destruct (Py.startswith u "http"); [|done]. simpl.
      by rewrite bool_decide_eq_false_2.
    - done. }
  simpl.
  assert (direct_link_urls sub = Ok []) as ->.
  { unfold direct_link_urls. rewrite Hurl. unfold attr, mbind, result_bind.
    assert (py_or (PStr u) (PStr "") = PStr u ∨ u = "") as [->| ->].
    { unfold py_or. simpl. destruct u; auto. }
    - unfold as_str. by rewrite Hext.
    - done. }
  simpl. unfold preview_urls. rewrite Hpv. simpl.
  rewrite (getitem_truthy _ _ _ Himages).
  assert (py_in "images" pv = Ok true) as ->.
  { destruct pv as [| | | | |d]; try done. simpl in *.
    by destruct (assoc "images" d). }
  simpl. rewrite Himages. simpl.
  assert (preview_loop (before ++ img :: after) =
          Ok [Py.replace src "&amp;" "&"]) as ->; [|done].
  clear Himages. induction Hbefore as [|i before Hi _ IH]; simpl.
  - unfold preview_image_source.
    rewrite (getitem_dict_get _ _ _ _ Hsource). simpl.
    rewrite (getitem_dict_get _ _ _ _ Hsrc). simpl.
    by rewrite (usable_source_str _ Hhttp).
  - rewrite Hi. exact IH.
Qed.

(** ** One pass of ["&amp;"] decoding *)

Lemma startswith_split (s p : string) :
  Py.startswith s p = true → ∃ t, s = p +:+ t.
Proof.
  revert s. induction p as [|b p IH]; intros s; [by exists s|].
  destruct s as [|a s]; [done|]. unfold Py.startswith; fold Py.startswith.
  intros [Ha Hs]%andb_true_iff. apply Ascii.eqb_eq in Ha as ->.
  destruct (IH s Hs) as [t ->]. by exists t.
Qed.

Lemma startswith_app (p t : string) : Py.startswith (p +:+ t) p = true.
Proof.
  induction p as [|b p IH]; [done|].
  rewrite app_cons. unfold Py.startswith; fold Py.startswith.
  by rewrite Ascii.eqb_refl, IH.
Qed.

Lemma replace_amp_match (t : string) :
  Py.replace ("&amp;" +:+ t) "&amp;" "&" = String "&" (Py.replace t "&amp;" "&").
Proof. reflexivity. Qed.

Lemma replace_amp_other (c : ascii) (s : string) :
  Py.startswith (String c s) "&amp;" = false →
  Py.replace (String c s) "&amp;" "&" = String c (Py.replace s "&amp;" "&").
Proof. intros H. unfold Py.replace. simpl. by rewrite H. Qed.

Lemma replace_amp_head (b : ascii) (t rest : string) :
  b ≠ "&"%char →
  Py.replace t "&amp;" "&" = String b rest →
  ∃ t', t = String b t' ∧ Py.replace t' "&amp;" "&" = rest.
Proof.
  intros Hb. destruct t as [|c t]; [done|].
  destruct (Py.startswith (String c t) "&amp;") eqn:E.
  - apply startswith_split in E as [t' ->]. rewrite replace_amp_match.
    intros [= <- _]. done.
  - rewrite (replace_amp_other _ _ E). intros [= <- <-]. by exists t.
Qed.

Lemma replace_amp_tail (t : string) :
  Py.startswith (Py.replace t "&amp;" "&") "amp;" = true →
  Py.startswith t "amp;" = true.
Proof.
  intros [r Hr]%startswith_split.
  change ("amp;" +:+ r) with (String "a" (String "m" (String "p" (String ";" r)))) in Hr.
  apply replace_amp_head in Hr as (t1 & -> & Hr); [|done].
  apply replace_amp_head in Hr as (t2 & -> & Hr); [|done].
  apply replace_amp_head in Hr as (t3 & -> & Hr); [|done].
  apply replace_amp_head in Hr as (t4 & -> & Hr); [|done].
  apply (startswith_app "amp;" t4).
Qed.

Lemma replace_amp_startswith (s : string) :
  Py.startswith (Py.replace s "&amp;" "&") "&amp;" = true →
  Py.startswith s "&amp;amp;" = true.
Proof.
  destruct s as [|c s]; [done|].
  destruct (Py.startswith (String c s) "&amp;") eqn:E.
  - apply startswith_split in E as [t Ht]. rewrite Ht, replace_amp_match.
    unfold Py.startswith at 1; fold Py.startswith. rewrite Ascii.eqb_refl. simpl.
    intros H%replace_amp_tail. apply startswith_split in H as [t' ->].
    apply (startswith_app "&amp;amp;" t').
  - rewrite (replace_amp_other _ _ E).
    unfold Py.startswith at 1; fold Py.startswith.
    intros [Hc H%replace_amp_tail]%andb_true_iff.
    apply Ascii.eqb_eq in Hc as ->. apply startswith_split in H as [t' ->].
    pose proof (startswith_app "&amp;" t') as E'.
    change ("&amp;" +:+ t') with (String "&" ("amp;" +:+ t')) in E'. congruence.
Qed.

Lemma contains_cons (c : ascii) (s sub : string) :
  Py.contains s sub = true → Py.contains (String c s) sub = true.
Proof. intros H. simpl. rewrite H. by destruct (Py.startswith (String c s) sub). Qed.

Lemma contains_app (p s sub : string) :
  Py.contains s sub = true → Py.contains (p +:+ s) sub = true.
Proof.
  intros H. induction p as [|c p IH]; [done|].
  rewrite app_cons. by apply contains_cons.
Qed.

Lemma contains_startswith (s sub : string) :
  Py.startswith s sub = true → Py.contains s sub = true.
Proof. intros H. destruct s; simpl; by rewrite H. Qed.

Lemma contains_inv (c : ascii) (s sub : string) :
  Py.contains (String c s) sub = true →
  Py.startswith (String c s) sub = true ∨ Py.contains s sub = true.
Proof. simpl. destruct (Py.startswith (String c s) sub); auto. Qed.

(** What one pass leaves behind: the output has an escaped ampersand only
    where the input had a twice escaped one. *)
Lemma replace_amp_contains (s : string) :
  Py.contains (Py.replace s "&amp;" "&") "&amp;" = true →
  Py.contains s "&amp;amp;" = true.
Proof.
  remember (String.length s) as n eqn:Hn.
  revert s Hn. induction n as [n IH] using lt_wf_ind. intros s Hn.
  destruct s as [|c s]; [done|].
  destruct (Py.startswith (String c s) "&amp;") eqn:E.
  - destruct (startswith_split _ _ E) as [t Ht]. rewrite Ht, replace_amp_match.
    intros [H|H]%contains_inv.
    + apply contains_startswith, replace_amp_startswith.
      by rewrite replace_amp_match.
    + apply contains_app. apply (IH (String.length t)); [|done|done].
      rewrite Hn, Ht, !app_cons, app_nil_l. simpl. lia.
  - rewrite (replace_amp_other _ _ E). intros [H|H]%contains_inv.
    + apply contains_startswith, replace_amp_startswith.
      by rewrite (replace_amp_other _ _ E).
    + apply contains_cons. apply (IH (String.length s)); [|done|done].
      rewrite Hn. simpl. lia.
Qed.

(** The HTML escaping of ampersands, and its inverse. *)
Lemma replace_amp_decodes_escaped (raw : string) :
  Py.replace (Py.replace raw "&" "&amp;") "&amp;" "&" = raw.
Proof.
  induction raw as [|c raw IH]; [done|].
  destruct (Ascii.eqb c "&") eqn:E.
  - apply Ascii.eqb_eq in E as ->.
    change (Py.replace (String "&" raw) "&" "&amp;")
      with ("&amp;" +:+ Py.replace raw "&" "&amp;").
    by rewrite replace_amp_match, IH.
  - assert (Py.replace (String c raw) "&" "&amp;" =
            String c (Py.replace raw "&" "&amp;")) as ->.
    { unfold Py.replace. simpl. unfold Py.startswith. by rewrite E. }
    rewrite replace_amp_other, IH; [done|].
    unfold Py.startswith. by rewrite E.
Qed.

Lemma submitted_url_text (v : pyval) (u : string) :
  as_str (py_or v (PStr "")) = Ok u → u ≠ "" → v = PStr u.
Proof.
  unfold py_or. destruct (truthy v) eqn:E.
  - destruct v; try done. by intros [= ->].
  - by intros [= <-].
Qed.

Lemma native_host_urls_inv (sub : submission.t) (l : list string) (x : string) :
  native_host_urls sub = Ok l → x ∈ l → submission.url sub = Some (PStr x).
Proof.
  unfold native_host_urls.
  destruct (submission.url sub) as [v|]; [|done]. simpl.
  destruct (as_str (py_or v (PStr ""))) as [u|] eqn:Hu; [|done]. simpl.
  destruct (Py.startswith u "http") eqn:Hhttp; simpl;
    [|by intros [= <-] ?%elem_of_nil].
  destruct (urlparse u) as [p|]; [|done]. simpl.
  case_bool_decide; simpl; [|by intros [= <-] ?%elem_of_nil].
  intros [= <-] ->%list_elem_of_singleton. f_equal.
  apply (submitted_url_text _ _ Hu). by intros ->.
Qed.

Lemma direct_link_urls_inv (sub : submission.t) (l : list string) (x : string) :
  direct_link_urls sub = Ok l → x ∈ l → submission.url sub = Some (PStr x).
Proof.
  unfold direct_link_urls.
  destruct (submission.url sub) as [v|]; [|done].
  unfold attr, mbind, result_bind.
  destruct (as_str (py_or v (PStr ""))) as [u|] eqn:Hu; [|done].
  destruct (Py.startswith (Py.lower u) "http"
            && existsb (Py.endswith (Py.lower u)) IMAGE_EXTENSIONS) eqn:Hc;
    [|by intros [= <-] ?%elem_of_nil].
  apply andb_true_iff in Hc as [Hhttp _].
  intros [= <-] ->%list_elem_of_singleton. f_equal.
  apply (submitted_url_text _ _ Hu). by intros ->.
Qed.

(** The rule that produced an emitted URL. *)
Lemma candidate_urls_inv (sub : submission.t) (urls : list string) (x : string) :
  candidate_urls sub = Ok urls → x ∈ urls →
  x ∈ gallery_urls sub ∨
  gallery_urls sub = [] ∧
    (submission.url sub = Some (PStr x) ∨ x ∈ preview_urls sub).
Proof.
  unfold candidate_urls.
  destruct (gallery_urls sub) as [|g gs] eqn:Hg.
  - destruct (native_host_urls sub) as [[|u2 r2]|] eqn:H2; [| |done].
    + simpl. destruct (direct_link_urls sub) as [[|u3 r3]|] eqn:H3; [| |done].
      * simpl. intros [= <-] Hx. eauto.
      * simpl. intros [= <-] Hx. right. split; [done|]. left.
        by eapply direct_link_urls_inv.
    + simpl. intros [= <-] Hx. right. split; [done|]. left.
      by eapply native_host_urls_inv.
  - simpl. intros [= <-] Hx. by left.
Qed.

(** C7, as the code has it. Ampersand decoding is a step of the gallery rule
    and of the preview rule, one left-to-right replacement of ["&amp;"] by
    ["&"] in the stored URL.  A URL emitted under the gallery rule is the
    result of that replacement on the source URL that the metadata records
    for one of the gallery items; a URL emitted under the preview rule is
    its result on the source URL of one of the preview images; either still
    contains ["&amp;"] only where the stored URL contained ["&amp;amp;"].  A
    URL emitted under the native-host or the direct-link rule is the
    submitted URL, unchanged. *)
Theorem ampersands_decoded_by_gallery_and_preview_rules
    (sub : submission.t) (out : list string) (x : string) :
  get_image_urls_from_submission sub = Ok out →
  x ∈ out →
  (∃ metadata items item src,
     gallery_items sub = Ok (Some (metadata, items)) ∧ item ∈ items ∧
     item_source_url metadata item = Some src ∧
     Py.startswith src "http" = true ∧
     x = Py.replace src "&amp;" "&" ∧
     (Py.contains x "&amp;" = true → Py.contains src "&amp;amp;" = true))
  ∨ (gallery_urls sub = [] ∧
     ∃ pv images l img source src,
       submission.preview sub = Some pv ∧ getitem pv "images" = Ok images ∧
       iterate images = Ok l ∧ img ∈ l ∧
       getitem img "source" = Ok source ∧
       getitem source "url" = Ok (PStr src) ∧
       Py.startswith src "http" = true ∧
       x = Py.replace src "&amp;" "&" ∧
       (Py.contains x "&amp;" = true → Py.contains src "&amp;amp;" = true))
  ∨ (gallery_urls sub = [] ∧ submission.url sub = Some (PStr x)).
Proof.
  unfold get_image_urls_from_submission.
  destruct (candidate_urls sub) as [urls|] eqn:Hc; [|done]. simpl.
  intros [= <-] Hx%dedupe_loop_subset.
  destruct (candidate_urls_inv _ _ _ Hc Hx) as [Hg|[Hg [Hu|Hp]]].
  - left.
    destruct (gallery_urls_stored _ _ Hg)
      as (metadata & items & item & src & Hitems & Hin & Hsrc & Hhttp & ->).
    exists metadata, items, item, src.
    split_and!; [done..|apply replace_amp_contains].
  - right. by right.
  - right. left. split; [done|].
    destruct (preview_urls_stored _ _ Hp)
      as (pv & images & l & img & source & src & Hpv & Himages & Hl & Hin &
          Hsource & Hsrc & Hhttp & ->).
    exists pv, images, l, img, source, src.
    split_and!; [done..|apply replace_amp_contains].
Qed.

(** *** The resolver on the sample posts *)

(** C2 fails as stated. Every item of the first gallery has a source URL,
    and the resolver emits one URL, which is neither of them; the second
    post is flagged as a gallery and carries metadata, and the resolver
    emits the source URL of its preview; the third gallery has a source URL
    for its first and its last item, and the resolver emits the first one
    only, the item between them having no [media_id]. *)
Lemma gallery_output_is_not_the_source_list :
  (∃ metadata items,
     submission.media_metadata Sample.gallery_two_sizes = Some metadata ∧
     submission.gallery_data Sample.gallery_two_sizes = Some (PDict [("items", PList items)]) ∧
     map (item_source_url metadata) items =
       [Some "https://preview.redd.it/a.jpg?width=640&amp;s=11";
        Some "https://preview.redd.it/a.jpg?width=1080&amp;s=22"] ∧
     get_image_urls_from_submission Sample.gallery_two_sizes =
       Ok ["https://preview.redd.it/a.jpg?width=640&s=11"]) ∧
  (truthy (getattr (submission.is_gallery Sample.gallery_animated) (PBool false)) = true ∧
   (∃ metadata, submission.media_metadata Sample.gallery_animated = Some metadata ∧
                truthy metadata = true) ∧
   submission.preview Sample.gallery_animated =
     Some (Sample.preview_of "https://external-preview.redd.it/p.jpg?s=1") ∧
   get_image_urls_from_submission Sample.gallery_animated =
     Ok ["https://external-preview.redd.it/p.jpg?s=1"]) ∧
  (∃ metadata items,
     submission.media_metadata Sample.gallery_item_without_id = Some metadata ∧
     submission.gallery_data Sample.gallery_item_without_id =
       Some (PDict [("items", PList items)]) ∧
     map (item_source_url metadata) items =
       [Some "https://preview.redd.it/a.jpg?width=1080&amp;s=11";
        None;
        Some "https://preview.redd.it/c.jpg?width=1080&amp;s=33"] ∧
     map (gallery_item_source metadata) items =
       [Ok (Some "https://preview.redd.it/a.jpg?width=1080&s=11");
        Raise KeyError;
        Ok (Some "https://preview.redd.it/c.jpg?width=1080&s=33")] ∧
     get_image_urls_from_submission Sample.gallery_item_without_id =
       Ok ["https://preview.redd.it/a.jpg?width=1080&s=11"]).
Proof.
  split; [|split].
  - eexists _, _. split_and!; reflexivity.
  - split_and!; [reflexivity| |reflexivity|reflexivity].
    eexists. split; reflexivity.
  - eexists _, _. split_and!; reflexivity.
Qed.

(** A gallery of an image, an animated item and an image: the resolver
    emits the two source URLs, decoded, and not the preview. *)
Lemma gallery_emits_decoded_sources_witness :
  get_image_urls_from_submission Sample.gallery_mixed =
    Ok (dedupe_loop
          (map (λ src, Py.replace src "&amp;" "&")
             (omap id [Some "https://preview.redd.it/a.jpg?width=1080&amp;s=11";
                       None;
                       Some "https://preview.redd.it/c.jpg?width=1080&amp;s=33"]))
          [] ∅) ∧
  dedupe_loop
    (map (λ src, Py.replace src "&amp;" "&")
       (omap id [Some "https://preview.redd.it/a.jpg?width=1080&amp;s=11";
                 None;
                 Some "https://preview.redd.it/c.jpg?width=1080&amp;s=33"]))
    [] ∅ =
    ["https://preview.redd.it/a.jpg?width=1080&s=11";
     "https://preview.redd.it/c.jpg?width=1080&s=33"].
Proof.
  split; [|reflexivity].
  refine (proj1 (proj2 (gallery_emits_decoded_sources Sample.gallery_mixed _ _
    [PDict [("media_id", PStr "m1"); ("id", PInt 1)];
     PDict [("media_id", PStr "m2"); ("id", PInt 1)];
     PDict [("media_id", PStr "m3"); ("id", PInt 1)]] []
    [Some "https://preview.redd.it/a.jpg?width=1080&amp;s=11";
     None;
     Some "https://preview.redd.it/c.jpg?width=1080&amp;s=33"] _ _ _ _ _ _ _) _)).
  - reflexivity.
  - reflexivity.
  - reflexivity.
  - reflexivity.
  - reflexivity.
  - repeat constructor.
  - by left.
  - discriminate.
Defined.

(** C5 fails as stated, in three ways. The first post is not a gallery, its
    host is not a native image host, the path of its URL is [/view], and it
    has a preview with a source URL; the resolver emits the submitted URL,
    whose text ends in [.png]. The second post has a preview with a source
    URL and a submitted URL that [urlparse] refuses: the resolver raises.
    The third post has a preview whose second image has a source URL, and
    whose first image has [null] for its source: the resolver emits
    nothing. *)
Lemma preview_source_is_not_always_emitted :
  (truthy (getattr (submission.is_gallery Sample.link_extension_in_query) (PBool false)) = false ∧
   (∃ p, urlparse "https://example.com/view?file=shot.png" = Ok p ∧
         netloc p = "example.com" ∧ path p = "/view" ∧
         (Py.lower (netloc p) ∉ REDDIT_IMAGE_HOSTS) ∧
         existsb (Py.endswith (Py.lower (path p))) IMAGE_EXTENSIONS = false) ∧
   submission.preview Sample.link_extension_in_query =
     Some (Sample.preview_of "https://external-preview.redd.it/p.jpg?s=1") ∧
   get_image_urls_from_submission Sample.link_extension_in_query =
     Ok ["https://example.com/view?file=shot.png"]) ∧
  (truthy (getattr (submission.is_gallery Sample.link_unparsable) (PBool false)) = false ∧
   submission.url Sample.link_unparsable = Some (PStr "http://[::1/article") ∧
   urlparse "http://[::1/article" = Raise ValueError ∧
   existsb (Py.endswith (Py.lower "http://[::1/article")) IMAGE_EXTENSIONS = false ∧
   submission.preview Sample.link_unparsable =
     Some (Sample.preview_of "https://external-preview.redd.it/p.jpg?s=1") ∧
   get_image_urls_from_submission Sample.link_unparsable = Raise ValueError) ∧
  (truthy (getattr (submission.is_gallery Sample.link_preview_broken) (PBool false)) = false ∧
   (∃ p, urlparse "https://example.com/article" = Ok p ∧
         (Py.lower (netloc p) ∉ REDDIT_IMAGE_HOSTS) ∧
         existsb (Py.endswith (Py.lower "https://example.com/article"))
           IMAGE_EXTENSIONS = false) ∧
   submission.preview Sample.link_preview_broken =
     Some (PDict [("images", PList
       [PDict [("source", PNone); ("id", PStr "img0")];
        Sample.image "https://external-preview.redd.it/p.jpg?s=1"])]) ∧
   preview_image_source (PDict [("source", PNone); ("id", PStr "img0")]) =
     Raise AttributeError ∧
   get_image_urls_from_submission Sample.link_preview_broken = Ok []).
Proof.
  split; [|split].
  - split_and!; [reflexivity| |reflexivity|reflexivity].
    eexists. split_and!; [reflexivity..| |reflexivity].
    vm_compute. set_solver.
  - split_and!; reflexivity.
  - split_and!; [reflexivity| |reflexivity..].
    eexists. split_and!; [reflexivity| |reflexivity].
    vm_compute. set_solver.
Qed.

Lemma preview_is_the_last_resort_witness :
  get_image_urls_from_submission Sample.link_article =
    Ok ["https://external-preview.redd.it/p.jpg?width=1080&s=1"].
Proof.
  refine (preview_is_the_last_resort Sample.link_article "https://example.com/article"
    _ _ _ [PDict [("id", PStr "img0")]] _
    "https://external-preview.redd.it/p.jpg?width=1080&amp;s=1" _ _ _ _ _ _ _ _ _ _).
  - reflexivity.
  - reflexivity.
  - right. eexists. split; [reflexivity|]. vm_compute. set_solver.
  - reflexivity.
  - reflexivity.
  - reflexivity.
  - repeat constructor.
  - reflexivity.
  - reflexivity.
  - reflexivity.
Defined.

Lemma canonical_dedupe_collapses_query_variants_witness :
  ∃ out, get_image_urls_from_submission Sample.gallery_two_sizes = Ok out ∧
         filter (λ x, _normalize_reddit_image_url x = "https://preview.redd.it/a.jpg") out =
           ["https://preview.redd.it/a.jpg?width=640&s=11"].
Proof.
  refine (proj2 (proj2 (canonical_dedupe_collapses_query_variants
    Sample.gallery_two_sizes [] [] [] "https://preview.redd.it/a.jpg"
    "width=640&s=11" "width=1080&s=22"
    {| scheme := "https"; netloc := "preview.redd.it"; path := "/a.jpg";
       params := ""; query := ""; fragment := "" |} _ _ _ _ _ _))).
  - reflexivity.
  - reflexivity.
  - reflexivity.
  - reflexivity.
  - vm_compute. set_solver.
  - constructor.
Defined.

(** C7 fails as stated. The URL of a post on a native host is emitted with
    its ["&amp;"], and a preview source that was escaped twice is emitted
    with one ["&amp;"] left. *)
Lemma escaped_ampersand_in_the_output :
  (get_image_urls_from_submission Sample.native_escaped =
     Ok ["https://i.redd.it/a.jpg?width=640&amp;s=11"] ∧
   Py.contains "https://i.redd.it/a.jpg?width=640&amp;s=11" "&amp;" = true) ∧
  (get_image_urls_from_submission Sample.preview_twice_escaped =
     Ok ["https://external-preview.redd.it/p.jpg?a=1&amp;b=2"] ∧
   Py.contains "https://external-preview.redd.it/p.jpg?a=1&amp;b=2" "&amp;" = true).
Proof. split_and!; reflexivity. Qed.

Lemma ampersands_decoded_by_gallery_and_preview_rules_witness :
  ∃ metadata items item src,
    gallery_items Sample.gallery_two_images = Ok (Some (metadata, items)) ∧
    item ∈ items ∧
    item_source_url metadata item = Some src ∧
    Py.startswith src "http" = true ∧
    "https://preview.redd.it/b.jpg?width=1080&s=22" = Py.replace src "&amp;" "&" ∧
    (Py.contains "https://preview.redd.it/b.jpg?width=1080&s=22" "&amp;" = true →
     Py.contains src "&amp;amp;" = true).
Proof.
  destruct (ampersands_decoded_by_gallery_and_preview_rules Sample.gallery_two_images
    ["https://preview.redd.it/a.jpg?width=1080&s=11";
     "https://preview.redd.it/b.jpg?width=1080&s=22"]
    "https://preview.redd.it/b.jpg?width=1080&s=22") as [H|[[H _]|[H _]]].
  - reflexivity.
  - set_solver.
  - exact H.
  - discriminate H.
  - discriminate H.
Defined.

(** ** The driver loop *)

Section Driver.
Context `{Collaborators}.

Lemma download_requests (net : transport) (url pid : string) (i : nat)
    (seen : gset string) (w : world) :
  requests (download_and_dedupe net url pid i seen w).1 = requests w ++ [url].
Proof.
  unfold download_and_dedupe.
  destruct (net url) as [|status headers content]; [done|].
  destruct ((400 <=? status)%nat && (status <? 600)%nat); [done|].
  case_bool_decide; [done|].
  destruct (artifact_name url pid i headers) as [name|]; [|done].
  by destruct (open_wb (path_join SAVE_DIR name)).
Qed.

Lemma Ok_inj {A : Type} (a b : A) : Ok a = Ok b → a = b.
Proof. by intros [= ->]. Qed.

Lemma candidates_loop_cons (net : transport) (pid url : string)
    (urls : list string) (i : nat) (st : run) :
  candidates_loop net pid (url :: urls) i st =
    candidates_loop net pid urls (S i)
      (record_outcome
         (download_and_dedupe net url pid i (seen_hashes st) (outside st)).2
         (download_and_dedupe net url pid i (seen_hashes st) (outside st)).1 st).
Proof.
  simpl. by destruct (download_and_dedupe net url pid i (seen_hashes st) (outside st)).
Qed.

Lemma record_outcome_seen_post_ids (res : download) (w : world) (st : run) :
  seen_post_ids (record_outcome res w st) = seen_post_ids st.
Proof. by destruct res. Qed.

Lemma record_outcome_resolved (res : download) (w : world) (st : run) :
  resolved (record_outcome res w st) = resolved st.
Proof. by destruct res. Qed.

Lemma record_outcome_outside (res : download) (w : world) (st : run) :
  outside (record_outcome res w st) = w.
Proof. by destruct res. Qed.

Lemma candidates_loop_seen_post_ids (net : transport) (pid : string)
    (urls : list string) (i : nat) (st : run) :
  seen_post_ids (candidates_loop net pid urls i st) = seen_post_ids st.
Proof.
  revert i st. induction urls as [|url urls IH]; intros i st; [done|].
  by rewrite candidates_loop_cons, IH, record_outcome_seen_post_ids.
Qed.

Lemma candidates_loop_resolved (net : transport) (pid : string)
    (urls : list string) (i : nat) (st : run) :
  resolved (candidates_loop net pid urls i st) = resolved st.
Proof.
  revert i st. induction urls as [|url urls IH]; intros i st; [done|].
  by rewrite candidates_loop_cons, IH, record_outcome_resolved.
Qed.

(** Every candidate is requested, in order, whatever happens to the ones
    before it. *)
Lemma candidates_loop_requests (net : transport) (pid : string)
    (urls : list string) (i : nat) (st : run) :
  requests (outside (candidates_loop net pid urls i st)) =
    requests (outside st) ++ urls.
Proof.
  revert i st. induction urls as [|url urls IH]; intros i st.
  - simpl. by rewrite app_nil_r.
  - rewrite candidates_loop_cons, IH, record_outcome_outside, download_requests.
    by rewrite <- app_assoc.
Qed.

Arguments candidates_loop : simpl never.

Lemma process_submission_seen (net : transport) (st : run) (sub : submission.t) :
  submission.id sub ∈ seen_post_ids st →
  process_submission net st sub =
    Ok {| seen_post_ids := seen_post_ids st; seen_hashes := seen_hashes st;
          downloaded := downloaded st; skipped_posts := skipped_posts st + 1;
          skipped_hashes := skipped_hashes st;
          resolved := resolved st; outside := outside st |}.
Proof. intros Hin. unfold process_submission. by rewrite bool_decide_eq_true_2. Qed.

Lemma process_submission_marks (net : transport) (st st' : run) (sub : submission.t) :
  process_submission net st sub = Ok st' →
  submission.id sub ∈ seen_post_ids st' ∧ seen_post_ids st ⊆ seen_post_ids st'.
Proof.
  unfold process_submission. case_bool_decide as Hseen.
  - by intros <-%Ok_inj.
  - destruct (get_image_urls_from_submission sub) as [urls|]; [|done].
    unfold mbind, result_bind.
    destruct urls as [|u urls]; intros <-%Ok_inj; unfold mark_seen;
      cbn [seen_post_ids]; rewrite ?candidates_loop_seen_post_ids;
      cbn [seen_post_ids]; set_solver.
Qed.

Lemma feed_loop_marks (net : transport) (feed : list submission.t) (st st' : run) :
  feed_loop net feed st = Ok st' →
  seen_post_ids st ⊆ seen_post_ids st' ∧
  ∀ sub, sub ∈ feed → submission.id sub ∈ seen_post_ids st'.
Proof.
  revert st. induction feed as [|sub feed IH]; intros st; simpl.
  - intros <-%Ok_inj. split; [done|]. by intros sub ?%elem_of_nil.
  - destruct (process_submission net st sub) as [st1|] eqn:H1; [|done]. simpl.
    intros H2. destruct (process_submission_marks _ _ _ _ H1) as [Hid Hsub].
    destruct (IH _ H2) as [Hsub' Hall]. split; [by etrans|].
    intros sub' [->|Hin]%elem_of_cons; [by apply Hsub'|by apply Hall].
Qed.

Lemma feed_loop_total (net : transport) (feed : list submission.t) (st : run) :
  Forall (λ sub, ∃ urls, get_image_urls_from_submission sub = Ok urls) feed →
  ∃ st', feed_loop net feed st = Ok st'.
Proof.
  intros Hfeed. revert st. induction Hfeed as [|sub feed [urls Hu] _ IH];
    intros st; simpl; [by eexists|].
  assert (∃ st1, process_submission net st sub = Ok st1) as [st1 ->]; [|apply IH].
  unfold process_submission. case_bool_decide; [by eexists|].
  rewrite Hu. simpl. destruct urls; by eexists.
Qed.

(** C4. A post that is not in the processed set is in it once its iteration
    is over, whatever the transport does: every candidate that the resolver
    emitted is requested, in order, even after a failed or duplicate one;
    and as long as the resolver returns for every post, no transport outcome
    keeps the loop from reaching every post of the feed. *)
Theorem forward_progress (net : transport) (st : run) :
  (∀ sub urls,
     submission.id sub ∉ seen_post_ids st →
     get_image_urls_from_submission sub = Ok urls →
     ∃ st', process_submission net st sub = Ok st' ∧
            submission.id sub ∈ seen_post_ids st' ∧
            requests (outside st') = requests (outside st) ++ urls) ∧
  (∀ feed,
     Forall (λ sub, ∃ urls, get_image_urls_from_submission sub = Ok urls) feed →
     ∃ st', feed_loop net feed st = Ok st' ∧
            ∀ sub, sub ∈ feed → submission.id sub ∈ seen_post_ids st').
Proof.
  split.
  - intros sub urls Hnew Hurls.
    assert (∃ st', process_submission net st sub = Ok st' ∧
              requests (outside st') = requests (outside st) ++ urls)
      as (st' & Hst' & Hreq).
    { unfold process_submission. rewrite bool_decide_eq_false_2 by done.
      rewrite Hurls. unfold mbind, result_bind. destruct urls as [|u urls].
      - eexists. split; [done|]. simpl. by rewrite app_nil_r.
      - eexists. split; [done|]. unfold mark_seen. cbn [outside].
        by rewrite candidates_loop_requests. }
    exists st'. split_and!; [done| |done].
    exact (proj1 (process_submission_marks _ _ _ _ Hst')).
  - intros feed Hfeed. destruct (feed_loop_total net feed st Hfeed) as [st' Hst'].
    exists st'. split; [done|]. exact (proj2 (feed_loop_marks _ _ _ _ Hst')).
Qed.

(** *** A second run *)

Lemma list_to_set_sorted (s : gset string) : list_to_set (sorted s) = s.
Proof.
  unfold sorted. apply set_eq. intros x.
  rewrite elem_of_list_to_set, merge_sort_Permutation. apply elem_of_elements.
Qed.

(** The loop over posts that are all in the processed set: nothing but the
    counter of skipped posts changes. *)
Lemma feed_loop_all_seen (net : transport) (feed : list submission.t) (st : run) :
  (∀ sub, sub ∈ feed → submission.id sub ∈ seen_post_ids st) →
  feed_loop net feed st =
    Ok {| seen_post_ids := seen_post_ids st; seen_hashes := seen_hashes st;
          downloaded := downloaded st;
          skipped_posts := skipped_posts st + length feed;
          skipped_hashes := skipped_hashes st;
          resolved := resolved st; outside := outside st |}.
Proof.
  revert st. induction feed as [|sub feed IH]; intros st Hall.
  - simpl. rewrite Nat.add_0_r. by destruct st.
  - cbn [feed_loop]. rewrite process_submission_seen by (apply Hall; left).
    unfold mbind, result_bind. rewrite IH.
    + simpl. do 2 f_equal. lia.
    + intros sub' Hin. simpl. apply Hall. by right.
Qed.

(** C1. When a run over a feed has completed, a second run over the same
    feed, started from the lists that the first one persisted, skips every
    post at the membership test: it resolves nothing, requests nothing,
    writes no file, and leaves both sets, and so the lists to persist, as
    they were. *)
Theorem second_run_is_idle (net net' : transport) (feed : list submission.t)
    (ids hashes ids1 hashes1 : list string) (st1 : run) :
  main_body net feed ids hashes = Ok (ids1, hashes1, st1) →
  ∃ st2, main_body net' feed ids1 hashes1 = Ok (ids1, hashes1, st2) ∧
         resolved st2 = [] ∧
         requests (outside st2) = [] ∧
         files (outside st2) = [] ∧
         downloaded st2 = 0 ∧
         seen_post_ids st2 = seen_post_ids st1 ∧
         seen_hashes st2 = seen_hashes st1 ∧
         skipped_posts st2 = length (take POST_LIMIT feed).
Proof.
  unfold main_body.
  destruct (feed_loop net (take POST_LIMIT feed) (start ids hashes))
    as [st|] eqn:Hrun; [|done].
  unfold mbind, result_bind. intros [= <- <- <-]%Ok_inj.
  destruct (feed_loop_marks _ _ _ _ Hrun) as [_ Hall].
  rewrite feed_loop_all_seen.
  - unfold start. cbn [seen_post_ids seen_hashes downloaded skipped_posts
      resolved outside requests files]. rewrite !list_to_set_sorted.
    eexists. split; [reflexivity|]. by split_and!.
  - intros sub Hin. unfold start. cbn [seen_post_ids].
    rewrite list_to_set_sorted. by apply Hall.
Qed.


(** *** Downloads *)

Lemma artifact_name_index (url pid : string) (idx : nat)
    (headers : list (string * string)) (name : string) :
  artifact_name url pid idx headers = Ok name →
  ∃ ext, name = pid +:+ "_" +:+ Py.str_of_nat idx +:+ ext.
Proof.
  unfold artifact_name. destruct (filename_from_url url) as [base|]; [|done].
  unfold mbind, result_bind. intros <-%Ok_inj. by eexists.
Qed.

Lemma artifact_name_parsed (url pid : string) (idx : nat)
    (headers : list (string * string)) (p : ParseResult) :
  urlparse url = Ok p → ∃ name, artifact_name url pid idx headers = Ok name.
Proof.
  intros Hp. unfold artifact_name, filename_from_url. rewrite Hp.
  unfold mbind, result_bind. by eexists.
Qed.

Lemma download_duplicate (net : transport) (url pid : string) (i : nat)
    (seen : gset string) (w : world) (body : list byte) :
  serves net url body →
  sha256_bytes body ∈ seen →
  download_and_dedupe net url pid i seen w =
    ({| requests := requests w ++ [url]; files := files w |}, Duplicate).
Proof.
  intros (status & headers & Hnet & Hok) Hseen. unfold download_and_dedupe.
  rewrite Hnet, Hok. by rewrite bool_decide_eq_true_2.
Qed.

Lemma download_saved (net : transport) (url pid : string) (i : nat)
    (seen : gset string) (w : world) (status : nat)
    (headers : list (string * string)) (body : list byte) (name : string) :
  net url = Response status headers body →
  (400 <=? status)%nat && (status <? 600)%nat = false →
  sha256_bytes body ∉ seen →
  artifact_name url pid i headers = Ok name →
  open_wb (path_join SAVE_DIR name) = true →
  download_and_dedupe net url pid i seen w =
    ({| requests := requests w ++ [url];
        files := files w ++ [(path_join SAVE_DIR name, body)] |},
     Saved (path_join SAVE_DIR name) (sha256_bytes body)).
Proof.
  intros Hnet Hok Hseen Hname Hopen. unfold download_and_dedupe.
  rewrite Hnet, Hok. rewrite bool_decide_eq_false_2 by done.
  by rewrite Hname, Hopen.
Qed.

(** A fetch after which nothing can be written: no name can be derived
    from the URL, or the file system refuses the name. *)
Lemma download_not_written (net : transport) (url pid : string) (i : nat)
    (seen : gset string) (w : world) (status : nat)
    (headers : list (string * string)) (body : list byte) :
  net url = Response status headers body →
  (∀ name, artifact_name url pid i headers = Ok name →
           open_wb (path_join SAVE_DIR name) = false) →
  ∃ res, download_and_dedupe net url pid i seen w =
           ({| requests := requests w ++ [url]; files := files w |}, res) ∧
         ∀ fpath h, res ≠ Saved fpath h.
Proof.
  intros Hnet Hrefused. unfold download_and_dedupe. rewrite Hnet.
  destruct ((400 <=? status)%nat && (status <? 600)%nat); [by eexists|].
  case_bool_decide; [by eexists|].
  destruct (artifact_name url pid i headers) as [name|]; [|by eexists].
  rewrite (Hrefused name eq_refl). by eexists.
Qed.

Lemma download_no_file (net : transport) (url pid : string) (i : nat)
    (seen : gset string) (w : world) :
  yields_no_file net seen url →
  ∃ res, download_and_dedupe net url pid i seen w =
           ({| requests := requests w ++ [url]; files := files w |}, res) ∧
         ∀ fpath h, res ≠ Saved fpath h.
Proof.
  unfold yields_no_file, download_and_dedupe.
  destruct (net url) as [|status headers body]; [by eexists|].
  intros [-> | Hseen]; [by eexists|].
  destruct ((400 <=? status)%nat && (status <? 600)%nat); [by eexists|].
  rewrite bool_decide_eq_true_2 by done. by eexists.
Qed.

(** A download that saves names the file after the index it was given. *)
Lemma download_saved_inv (net : transport) (url pid : string) (i : nat)
    (seen : gset string) (w w' : world) (fpath h : string) :
  download_and_dedupe net url pid i seen w = (w', Saved fpath h) →
  ∃ status headers body ext,
    net url = Response status headers body ∧
    fpath = path_join SAVE_DIR (pid +:+ "_" +:+ Py.str_of_nat i +:+ ext) ∧
    h = sha256_bytes body ∧ (h ∉ seen) ∧
    files w' = files w ++ [(fpath, body)] ∧
    open_wb fpath = true.
Proof.
  unfold download_and_dedupe.
  destruct (net url) as [|status headers body]; [done|].
  destruct ((400 <=? status)%nat && (status <? 600)%nat); [done|].
  case_bool_decide as Hseen; [done|].
  destruct (artifact_name url pid i headers) as [name|] eqn:Hname; [|done].
  destruct (open_wb (path_join SAVE_DIR name)) eqn:Hopen; [|done].
  destruct (artifact_name_index _ _ _ _ _ Hname) as [ext ->].
  intros [= <- <- <-]. by exists status, headers, body, ext.
Qed.

Lemma download_files (net : transport) (url pid : string) (i : nat)
    (seen : gset string) (w : world) :
  (∃ fpath h body, 
     download_and_dedupe net url pid i seen w =
       ({| requests := requests w ++ [url]; files := files w ++ [(fpath, body)] |},
        Saved fpath h)) ∨
  (files (download_and_dedupe net url pid i seen w).1 = files w ∧
   ∀ fpath h, (download_and_dedupe net url pid i seen w).2 ≠ Saved fpath h).
Proof.
  unfold download_and_dedupe.
  destruct (net url) as [|status headers body]; [by right|].
  destruct ((400 <=? status)%nat && (status <? 600)%nat); [by right|].
  case_bool_decide as Hseen; [by right|].
  destruct (artifact_name url pid i headers) as [name|] eqn:Hname; [|by right].
  destruct (open_wb (path_join SAVE_DIR name)); [|by right].
  left. by eexists _, _, _.
Qed.

(** Candidates that all serve bytes whose digest is in the set: each one is
    requested and discarded. *)
Lemma candidates_loop_all_duplicates (net : transport) (pid : string)
    (urls : list string) (i : nat) (st : run) (body : list byte) :
  Forall (λ u, serves net u body) urls →
  sha256_bytes body ∈ seen_hashes st →
  candidates_loop net pid urls i st =
    {| seen_post_ids := seen_post_ids st; seen_hashes := seen_hashes st;
       downloaded := downloaded st; skipped_posts := skipped_posts st;
       skipped_hashes := skipped_hashes st + length urls;
       resolved := resolved st;
       outside := {| requests := requests (outside st) ++ urls;
                     files := files (outside st) |} |}.
Proof.
  intros Hall. revert i st. induction Hall as [|u urls Hu _ IH]; intros i st Hseen.
  - simpl. rewrite Nat.add_0_r, app_nil_r. by destruct st as [? ? ? ? ? ? []].
  - rewrite candidates_loop_cons.
    rewrite (download_duplicate net u pid i _ _ body Hu Hseen).
    cbn [fst snd record_outcome]. rewrite IH by done.
    cbn [seen_post_ids seen_hashes downloaded skipped_posts skipped_hashes
         resolved outside requests files length].
    rewrite <- app_assoc. f_equal. lia.
Qed.

(** The invariant of content dedupe, step by step. *)
Lemma each_digest_saved_once_refl (st st' : run) :
  files (outside st') = files (outside st) →
  seen_hashes st' = seen_hashes st →
  each_digest_saved_once st st'.
Proof.
  intros Hf Hs. exists []. simpl. rewrite app_nil_r, Hs.
  split_and!; [done| |constructor|by intros f ?%elem_of_nil].
  by rewrite (left_id_L ∅ (∪)).
Qed.

Lemma each_digest_saved_once_trans (st1 st2 st3 : run) :
  each_digest_saved_once st1 st2 →
  each_digest_saved_once st2 st3 →
  each_digest_saved_once st1 st3.
Proof.
  intros (new1 & Hf1 & Hs1 & Hd1 & Hn1) (new2 & Hf2 & Hs2 & Hd2 & Hn2).
  exists (new1 ++ new2). rewrite Hf2, Hf1, Hs2, Hs1, map_app, list_to_set_app_L.
  split_and!.
  - by rewrite <- app_assoc.
  - rewrite (assoc_L (∪)). f_equal. apply (comm_L (∪)).
  - apply NoDup_app. split_and!; [done| |done].
    intros h Hh1 (f & -> & Hf)%list_elem_of_fmap.
    apply (Hn2 f Hf). rewrite Hs1. apply elem_of_union_l.
    by apply elem_of_list_to_set.
  - intros f [Hf|Hf]%elem_of_app; [by apply Hn1|].
    intros Hin. apply (Hn2 f Hf). rewrite Hs1. by apply elem_of_union_r.
Qed.

Lemma record_outcome_saved_once (net : transport) (url pid : string) (i : nat)
    (st : run) :
  each_digest_saved_once st
    (record_outcome
       (download_and_dedupe net url pid i (seen_hashes st) (outside st)).2
       (download_and_dedupe net url pid i (seen_hashes st) (outside st)).1 st).
Proof.
  destruct (download_and_dedupe net url pid i (seen_hashes st) (outside st))
    as [w res] eqn:Hdl.
  destruct res as [e| |fpath h].
  - pose proof (download_files net url pid i (seen_hashes st) (outside st)) as Hd.
    rewrite Hdl in Hd. destruct Hd as [(? & ? & ? & [=])|[Hf _]].
    by apply each_digest_saved_once_refl.
  - pose proof (download_files net url pid i (seen_hashes st) (outside st)) as Hd.
    rewrite Hdl in Hd. destruct Hd as [(? & ? & ? & [=])|[Hf _]].
    by apply each_digest_saved_once_refl.
  - destruct (download_saved_inv _ _ _ _ _ _ _ _ _ Hdl)
      as (status & headers & body & ext & Hnet & -> & -> & Hnew & Hf & _).
    exists [(path_join SAVE_DIR (pid +:+ "_" +:+ Py.str_of_nat i +:+ ext), body)].
    simpl. split_and!; [done| |by apply NoDup_singleton|].
    { by rewrite (right_id_L ∅ (∪)). }
    by intros f ->%list_elem_of_singleton.
Qed.

Lemma candidates_loop_saved_once (net : transport) (pid : string)
    (urls : list string) (i : nat) (st : run) :
  each_digest_saved_once st (candidates_loop net pid urls i st).
Proof.
  revert i st. induction urls as [|u urls IH]; intros i st.
  - by apply each_digest_saved_once_refl.
  - rewrite candidates_loop_cons.
    eapply each_digest_saved_once_trans; [apply record_outcome_saved_once|apply IH].
Qed.

Lemma process_submission_saved_once (net : transport) (st st' : run)
    (sub : submission.t) :
  process_submission net st sub = Ok st' → each_digest_saved_once st st'.
Proof.
  unfold process_submission. case_bool_decide as Hseen.
  - intros <-%Ok_inj. by apply each_digest_saved_once_refl.
  - destruct (get_image_urls_from_submission sub) as [urls|]; [|done].
    unfold mbind, result_bind.
    destruct urls as [|u urls]; intros <-%Ok_inj.
    + by apply each_digest_saved_once_refl.
    + eapply each_digest_saved_once_trans;
        [|apply (each_digest_saved_once_refl _ (mark_seen _ _)); done].
      eapply each_digest_saved_once_trans;
        [|apply candidates_loop_saved_once].
      by apply each_digest_saved_once_refl.
Qed.

Lemma feed_loop_saved_once (net : transport) (feed : list submission.t)
    (st st' : run) :
  feed_loop net feed st = Ok st' → each_digest_saved_once st st'.
Proof.
  revert st. induction feed as [|sub feed IH]; intros st; simpl.
  - intros <-%Ok_inj. by apply each_digest_saved_once_refl.
  - destruct (process_submission net st sub) as [st1|] eqn:H1; [|done]. simpl.
    intros H2. eapply each_digest_saved_once_trans; [|by apply IH].
    by eapply process_submission_saved_once.
Qed.

(** C3. Bytes whose digest is in the set are discarded: the request is
    made, no file is written, the outcome is [Duplicate]. And when all the
    candidates of two posts serve the same bytes, whose digest is not in the
    set yet, and the name derived for the first candidate is one that the
    file system takes, the two iterations write exactly one file, for the
    first candidate of the first post, add exactly that digest, and count
    every other candidate as a duplicate. Wherever two such posts are in a
    feed, the run writes no two files of the same digest, and none of a
    digest that was in the set. *)
Theorem same_bytes_saved_once (net : transport) (body : list byte) :
  (∀ url pid i seen w,
     serves net url body →
     sha256_bytes body ∈ seen →
     download_and_dedupe net url pid i seen w =
       ({| requests := requests w ++ [url]; files := files w |}, Duplicate)) ∧
  (∀ st p1 p2 u1 urls1 urls2 status headers name,
     submission.id p1 ∉ seen_post_ids st →
     submission.id p2 ∉ seen_post_ids st →
     submission.id p1 ≠ submission.id p2 →
     get_image_urls_from_submission p1 = Ok (u1 :: urls1) →
     get_image_urls_from_submission p2 = Ok urls2 →
     Forall (λ u, serves net u body) (u1 :: urls1 ++ urls2) →
     sha256_bytes body ∉ seen_hashes st →
     net u1 = Response status headers body →
     artifact_name u1 (submission.id p1) 1 headers = Ok name →
     open_wb (path_join SAVE_DIR name) = true →
     ∃ st' ext,
       feed_loop net [p1; p2] st = Ok st' ∧
       name = submission.id p1 +:+ "_1" +:+ ext ∧
       files (outside st') =
         files (outside st) ++ [(path_join SAVE_DIR name, body)] ∧
       seen_hashes st' = {[ sha256_bytes body ]} ∪ seen_hashes st ∧
       downloaded st' = downloaded st + 1 ∧
       skipped_hashes st' = skipped_hashes st + length urls1 + length urls2 ∧
       requests (outside st') = requests (outside st) ++ u1 :: urls1 ++ urls2) ∧
  (∀ feed st st',
     feed_loop net feed st = Ok st' → each_digest_saved_once st st').
Proof.
  split; [intros; by eapply download_duplicate|].
  split; [|intros feed st st'; apply feed_loop_saved_once].
  intros st p1 p2 u1 urls1 urls2 status headers name
    Hp1 Hp2 Hne Hu1 Hu2 Hall Hnew Hnet Hname Hopen.
  apply Forall_cons in Hall as [Hserve1 Hall].
  apply Forall_app in Hall as [Hall1 Hall2].
  assert (Hok : (400 <=? status)%nat && (status <? 600)%nat = false).
  { destruct Hserve1 as (status' & headers' & Hnet' & Hok).
    rewrite Hnet in Hnet'. by injection Hnet' as -> _. }
  pose proof (download_saved net u1 (submission.id p1) 1 (seen_hashes st)
                (outside st) status headers body name
                Hnet Hok Hnew Hname Hopen) as Hdl.
  assert (H1 : process_submission net st p1 =
    Ok (mark_seen (submission.id p1)
          (candidates_loop net (submission.id p1) (u1 :: urls1) 1
             {| seen_post_ids := seen_post_ids st; seen_hashes := seen_hashes st;
                downloaded := downloaded st; skipped_posts := skipped_posts st;
                skipped_hashes := skipped_hashes st;
                resolved := resolved st ++ [submission.id p1];
                outside := outside st |}))).
  { unfold process_submission. rewrite bool_decide_eq_false_2 by done.
    by rewrite Hu1. }
  rewrite candidates_loop_cons in H1. cbn [seen_hashes outside] in H1.
  rewrite Hdl in H1. cbn [fst snd record_outcome] in H1.
  rewrite (candidates_loop_all_duplicates _ _ _ _ _ body Hall1) in H1
    by (simpl; set_solver).
  unfold mark_seen in H1.
  cbn [seen_post_ids seen_hashes downloaded skipped_posts skipped_hashes
       resolved outside requests files] in H1.
  set (st1 := {| seen_post_ids := _ |}) in H1.
  assert (H2 : process_submission net st1 p2 =
    Ok (mark_seen (submission.id p2)
          (candidates_loop net (submission.id p2) urls2 1
             {| seen_post_ids := seen_post_ids st1; seen_hashes := seen_hashes st1;
                downloaded := downloaded st1; skipped_posts := skipped_posts st1;
                skipped_hashes := skipped_hashes st1;
                resolved := resolved st1 ++ [submission.id p2];
                outside := outside st1 |}))).
  { unfold process_submission.
    rewrite bool_decide_eq_false_2; [by rewrite Hu2; destruct urls2|].
    subst st1. simpl. intros [Heq%elem_of_singleton|Hin]%elem_of_union; by auto. }
  rewrite (candidates_loop_all_duplicates _ _ _ _ _ body Hall2) in H2
    by (subst st1; simpl; apply elem_of_union_l, elem_of_singleton_2; done).
  destruct (artifact_name_index _ _ _ _ _ Hname) as [ext Hext].
  eexists _, ext. split.
  { cbn [feed_loop]. rewrite H1. unfold mbind at 1, result_bind.
    rewrite H2. reflexivity. }
  subst st1. unfold mark_seen. simpl. split_and!; try done.
  by rewrite <- !app_assoc.
Qed.

(** *** The index in the name of a saved file *)

Lemma candidates_loop_app (net : transport) (pid : string)
    (pre rest : list string) (i : nat) (st : run) :
  candidates_loop net pid (pre ++ rest) i st =
    candidates_loop net pid rest (i + length pre) (candidates_loop net pid pre i st).
Proof.
  revert i st. induction pre as [|u pre IH]; intros i st.
  - simpl. by rewrite Nat.add_0_r.
  - rewrite <- app_comm_cons, !candidates_loop_cons, IH. simpl.
    by rewrite Nat.add_succ_r.
Qed.

Lemma candidates_loop_no_file (net : transport) (pid : string)
    (urls : list string) (i : nat) (st : run) :
  Forall (yields_no_file net (seen_hashes st)) urls →
  files (outside (candidates_loop net pid urls i st)) = files (outside st) ∧
  seen_hashes (candidates_loop net pid urls i st) = seen_hashes st.
Proof.
  intros Hall. revert i st Hall.
  induction urls as [|u urls IH]; intros i st Hall; [done|].
  apply Forall_cons in Hall as [Hu Hall].
  destruct (download_no_file net u pid i (seen_hashes st) (outside st) Hu)
    as (res & Hdl & Hres).
  rewrite candidates_loop_cons, Hdl. cbn [fst snd].
  assert (seen_hashes (record_outcome res
            {| requests := requests (outside st) ++ [u]; files := files (outside st) |}
            st) = seen_hashes st) as Hsame.
  { destruct res as [e| |fpath h]; [done..|]. by destruct (Hres fpath h). }
  destruct (IH (S i) (record_outcome res
            {| requests := requests (outside st) ++ [u]; files := files (outside st) |}
            st)) as [Hf Hs].
  { by rewrite Hsame. }
  rewrite Hf, Hs, record_outcome_outside. by split.
Qed.

Lemma candidates_loop_files (net : transport) (pid : string)
    (urls : list string) (i : nat) (st : run) :
  ∃ new,
    files (outside (candidates_loop net pid urls i st)) = files (outside st) ++ new ∧
    Forall (λ f, ∃ k url ext status headers,
                   urls !! k = Some url ∧
                   net url = Response status headers f.2 ∧
                   f.1 = path_join SAVE_DIR
                           (pid +:+ "_" +:+ Py.str_of_nat (i + k) +:+ ext)) new.
Proof.
  revert i st. induction urls as [|u urls IH]; intros i st.
  - exists []. simpl. by rewrite app_nil_r.
  - rewrite candidates_loop_cons.
    destruct (IH (S i) (record_outcome
        (download_and_dedupe net u pid i (seen_hashes st) (outside st)).2
        (download_and_dedupe net u pid i (seen_hashes st) (outside st)).1 st))
      as (new & -> & Hnew).
    rewrite record_outcome_outside.
    assert (Hshift : Forall (λ f, ∃ k url ext status headers,
              (u :: urls) !! k = Some url ∧
              net url = Response status headers f.2 ∧
              f.1 = path_join SAVE_DIR
                      (pid +:+ "_" +:+ Py.str_of_nat (i + k) +:+ ext)) new).
    { eapply Forall_impl; [exact Hnew|].
      intros f (k & url & ext & status & headers & Hk & Hnet & Hname).
      exists (S k), url, ext, status, headers. split_and!; [done..|].
      by rewrite Nat.add_succ_r. }
    destruct (download_and_dedupe net u pid i (seen_hashes st) (outside st))
      as [w res] eqn:Hdl.
    destruct res as [e| |fpath h].
    + pose proof (download_files net u pid i (seen_hashes st) (outside st)) as Hd.
      rewrite Hdl in Hd. destruct Hd as [(? & ? & ? & [=])|[Hf _]].
      exists new. simpl in *. by rewrite Hf.
    + pose proof (download_files net u pid i (seen_hashes st) (outside st)) as Hd.
      rewrite Hdl in Hd. destruct Hd as [(? & ? & ? & [=])|[Hf _]].
      exists new. simpl in *. by rewrite Hf.
    + destruct (download_saved_inv _ _ _ _ _ _ _ _ _ Hdl)
        as (status & headers & body & ext & Hnet & -> & _ & _ & Hf & _).
      exists ((path_join SAVE_DIR (pid +:+ "_" +:+ Py.str_of_nat i +:+ ext), body) :: new).
      simpl. rewrite Hf, <- app_assoc. split; [done|].
      apply Forall_cons. split; [|done].
      exists 0, u, ext, status, headers. by rewrite Nat.add_0_r.
Qed.

(** [str(n)] is the decimal numeral of [n]. *)
Lemma str_of_nat_fuel_acc (fuel n : nat) (acc : string) :
  Py.str_of_nat_fuel fuel n acc = Py.str_of_nat_fuel fuel n "" +:+ acc.
Proof.
  revert n acc. induction fuel as [|fuel IH]; intros n acc; [done|].
  cbn [Py.str_of_nat_fuel]. destruct (n <? 10)%nat; [done|].
  rewrite IH, (IH _ (String _ "")). by rewrite app_assoc_str.
Qed.

Lemma str_of_nat_fuel_enough (fuel fuel' n : nat) (acc : string) :
  (n < fuel)%nat → (n < fuel')%nat →
  Py.str_of_nat_fuel fuel n acc = Py.str_of_nat_fuel fuel' n acc.
Proof.
  revert fuel' n acc. induction fuel as [|fuel IH]; intros fuel' n acc Hf Hf';
    [lia|].
  destruct fuel' as [|fuel']; [lia|]. cbn [Py.str_of_nat_fuel].
  destruct (Nat.ltb_spec n 10) as [Hn|Hn]; [done|].
  assert (n / 10 < n) by (apply Nat.div_lt; lia).
  apply IH; lia.
Qed.

Lemma str_of_nat_decimal :
  (∀ n, (n < 10)%nat → Py.str_of_nat n = String (Py.digit_char n) "") ∧
  (∀ n, (10 ≤ n)%nat →
        Py.str_of_nat n =
          Py.str_of_nat (n / 10) +:+ String (Py.digit_char (n mod 10)) "").
Proof.
  split.
  - intros n Hn. unfold Py.str_of_nat. cbn [Py.str_of_nat_fuel].
    destruct (Nat.ltb_spec n 10) as [_|?]; [|lia].
    f_equal. f_equal. by apply Nat.mod_small.
  - intros n Hn. unfold Py.str_of_nat. cbn [Py.str_of_nat_fuel].
    destruct (Nat.ltb_spec n 10) as [?|_]; [lia|].
    assert (n / 10 < n) by (apply Nat.div_lt; lia).
    rewrite str_of_nat_fuel_acc.
    by rewrite (str_of_nat_fuel_enough n (S (n / 10))) by lia.
Qed.

(** C10. The index in the name of a saved file is the position, counted from
    1, of its URL among the candidates of the post, not the number of files
    saved so far: every file that the candidate loop writes is named
    [{post_id}_{k+1}{ext}] for a candidate at offset [k] that served its
    bytes; so when the candidates before a saved one fail or bring known
    bytes, the first file of the post carries the index of the saved
    candidate, above 1.  The index is written as a decimal numeral. *)
Theorem artifact_index_is_candidate_position (net : transport) (pid : string)
    (st : run) :
  (∀ urls, ∃ new,
     files (outside (candidates_loop net pid urls 1 st)) = files (outside st) ++ new ∧
     Forall (λ f, ∃ k url ext status headers,
                    urls !! k = Some url ∧
                    net url = Response status headers f.2 ∧
                    f.1 = path_join SAVE_DIR
                            (pid +:+ "_" +:+ Py.str_of_nat (S k) +:+ ext)) new) ∧
  (∀ pre u rest status headers body name,
     Forall (yields_no_file net (seen_hashes st)) pre →
     net u = Response status headers body →
     (400 <=? status)%nat && (status <? 600)%nat = false →
     sha256_bytes body ∉ seen_hashes st →
     artifact_name u pid (S (length pre)) headers = Ok name →
     open_wb (path_join SAVE_DIR name) = true →
     ∃ ext new,
       name = pid +:+ "_" +:+ Py.str_of_nat (S (length pre)) +:+ ext ∧
       files (outside (candidates_loop net pid (pre ++ u :: rest) 1 st)) =
         files (outside st) ++ (path_join SAVE_DIR name, body) :: new) ∧
  ((∀ n, (n < 10)%nat → Py.str_of_nat n = String (Py.digit_char n) "") ∧
   (∀ n, (10 ≤ n)%nat →
         Py.str_of_nat n =
           Py.str_of_nat (n / 10) +:+ String (Py.digit_char (n mod 10)) "")).
Proof.
  split; [|split; [|exact str_of_nat_decimal]].
  - intros urls. apply (candidates_loop_files net pid urls 1 st).
  - intros pre u rest status headers body name Hpre Hnet Hok Hnew Hname Hopen.
    destruct (candidates_loop_no_file net pid pre 1 st Hpre) as [Hf Hs].
    rewrite candidates_loop_app, candidates_loop_cons.
    rewrite (download_saved net u pid (1 + length pre)
               (seen_hashes (candidates_loop net pid pre 1 st))
               (outside (candidates_loop net pid pre 1 st))
               status headers body name) by (done || by rewrite Hs).
    cbn [fst snd].
    destruct (candidates_loop_files net pid rest (S (1 + length pre))
                (record_outcome
                   (Saved (path_join SAVE_DIR name) (sha256_bytes body))
                   {| requests := requests (outside (candidates_loop net pid pre 1 st)) ++ [u];
                      files := files (outside (candidates_loop net pid pre 1 st)) ++
                        [(path_join SAVE_DIR name, body)] |}
                   (candidates_loop net pid pre 1 st)))
      as (new & -> & _).
    destruct (artifact_name_index _ _ _ _ _ Hname) as [ext Hext].
    exists ext, new. split; [done|]. simpl. by rewrite Hf, <- app_assoc.
Qed.

(** ** The state store *)

Lemma app_neq_self (s : string) (c : ascii) (r : string) : s +:+ String c r ≠ s.
Proof. induction s as [|a s IH]; [done|]. rewrite app_cons. by intros [= ?]. Qed.

Lemma app_empty_r (s : string) : s +:+ "" = s.
Proof. induction s as [|a s IH]; [done|]. by rewrite app_cons, IH. Qed.

Lemma load_state_value (t t' : gmap string node) :
  t' !! STATE_PATH = t !! STATE_PATH → (load_state t').2 = (load_state t).2.
Proof.
  intros Heq. unfold load_state, read_json. rewrite Heq.
  destruct (t !! STATE_PATH) as [[text|e]|]; [|done..].
  by destruct (json_load text).
Qed.

(** C8, as the code has it. When the state file exists and its text does
    not parse, [load_state] returns the empty state and raises nothing, and
    the text is not lost: it is moved to the sidecar path, unless a
    directory is in the way there, in which case the rename fails, the
    failure is swallowed and the file stays where it was. *)
Theorem corrupt_state_is_set_aside (t : gmap string node) (text : string) :
  t !! STATE_PATH = Some (File text) →
  json_load text = None →
  (load_state t).2 = empty_state ∧
  match t !! (STATE_PATH +:+ ".corrupt") with
  | Some (Dir _) => (load_state t).1 = t
  | _ =>
      (load_state t).1 !! STATE_PATH = None ∧
      (load_state t).1 !! (STATE_PATH +:+ ".corrupt") = Some (File text) ∧
      ∀ p, p ≠ STATE_PATH → p ≠ STATE_PATH +:+ ".corrupt" →
           (load_state t).1 !! p = t !! p
  end.
Proof.
  intros Hfile Hparse. unfold load_state, read_json, os_rename.
  rewrite Hfile, Hparse. split; [done|].
  assert (Hne : STATE_PATH +:+ ".corrupt" ≠ STATE_PATH) by apply app_neq_self.
  destruct (t !! (STATE_PATH +:+ ".corrupt")) as [[other|e]|]; simpl.
  - split_and!.
    + rewrite lookup_insert_ne by done. apply lookup_delete_eq.
    + apply lookup_insert_eq.
    + intros p Hp1 Hp2. rewrite lookup_insert_ne by done.
      by rewrite lookup_delete_ne.
  - done.
  - split_and!.
    + rewrite lookup_insert_ne by done. apply lookup_delete_eq.
    + apply lookup_insert_eq.
    + intros p Hp1 Hp2. rewrite lookup_insert_ne by done.
      by rewrite lookup_delete_ne.
Qed.

(** Steps that open or write [tmp] leave every other path as it was. *)
Lemma steps_on_tmp (tmp : string) (ops : list fs_op) (t : gmap string node) (p : string) :
  Forall (λ op, op = OpenW tmp ∨ ∃ text, op = Append tmp text) ops →
  p ≠ tmp →
  (steps ops t).1 !! p = t !! p.
Proof.
  intros Hops Hp. revert t. induction Hops as [|op ops Hop _ IH]; intros t; [done|].
  simpl. destruct (step op t) as [t'|] eqn:Hstep; [|done].
  rewrite IH. destruct Hop as [->|[text ->]]; simpl in Hstep.
  - destruct (t !! tmp) as [[?|?]|]; simplify_eq; by rewrite lookup_insert_ne.
  - destruct (t !! tmp) as [[?|?]|]; simplify_eq; by rewrite lookup_insert_ne.
Qed.

(** The writes of the pieces, one after the other, append their text. *)
Lemma steps_writes (tmp : string) (chunks : list string) (rest : list fs_op)
    (t : gmap string node) (c : string) :
  t !! tmp = Some (File c) →
  steps (map (Append tmp) chunks ++ rest) t =
    steps rest (<[tmp := File (c +:+ foldr String.append "" chunks)]> t).
Proof.
  revert t c. induction chunks as [|x chunks IH]; intros t c Ht; simpl.
  - rewrite app_empty_r. by rewrite insert_id.
  - rewrite Ht. rewrite (IH _ (c +:+ x)) by apply lookup_insert_eq.
    by rewrite insert_insert_eq, app_assoc_str.
Qed.

(** [save_state] in closed form: where it stops and what it leaves. *)
Lemma save_state_outcome (state : pyval) (t : gmap string node) :
  save_state state t =
    match t !! (STATE_PATH +:+ ".tmp") with
    | Some (Dir _) => (t, false)
    | _ =>
        let written :=
          <[STATE_PATH +:+ ".tmp" := File (foldr String.append "" (json_dump state))]> t in
        match t !! STATE_PATH with
        | Some (Dir _) => (written, false)
        | _ =>
            (<[STATE_PATH := File (foldr String.append "" (json_dump state))]>
               (delete (STATE_PATH +:+ ".tmp") t), true)
        end
    end.
Proof.
  assert (Hne : STATE_PATH ≠ STATE_PATH +:+ ".tmp").
  { intros Heq. by apply (app_neq_self STATE_PATH "." "tmp"). }
  unfold save_state, save_state_ops. cbn [steps step].
  destruct (t !! (STATE_PATH +:+ ".tmp")) as [[?|?]|] eqn:Htmp; [|done|].
  - rewrite (steps_writes _ _ _ _ "") by apply lookup_insert_eq.
    rewrite insert_insert_eq. cbn [steps step String.append]. unfold os_rename.
    rewrite lookup_insert_eq, lookup_insert_ne by done.
    destruct (t !! STATE_PATH) as [[?|?]|]; [|done|]; by rewrite delete_insert_eq.
  - rewrite (steps_writes _ _ _ _ "") by apply lookup_insert_eq.
    rewrite insert_insert_eq. cbn [steps step String.append]. unfold os_rename.
    rewrite lookup_insert_eq, lookup_insert_ne by done.
    destruct (t !! STATE_PATH) as [[?|?]|]; [|done|]; by rewrite delete_insert_eq.
Qed.

(** C9. [save_state] writes the whole text to the temporary path and only
    then moves it over the state path, in one step: before that step the
    temporary path holds the whole text and the rest of the tree is as it
    was, and unless a directory is in the way the save completes, with the
    whole text at the state path and the temporary path free. If the process
    dies before that last step, after any number of the earlier ones, the
    state path holds what it held before, and [load_state] returns what it
    would have returned before the save. A save that fails leaves the state
    path alone. *)
Theorem state_file_is_replaced_whole (state : pyval) (t : gmap string node) :
  (∀ n, n < length (save_state_ops state) →
        (save_state_killed n state t).1 !! STATE_PATH = t !! STATE_PATH ∧
        (load_state (save_state_killed n state t).1).2 = (load_state t).2) ∧
  ((∀ e, t !! (STATE_PATH +:+ ".tmp") ≠ Some (Dir e)) →
   save_state_killed (length (save_state_ops state) - 1) state t =
     (<[STATE_PATH +:+ ".tmp" := File (foldr String.append "" (json_dump state))]> t,
      true) ∧
   ((∀ e, t !! STATE_PATH ≠ Some (Dir e)) →
    save_state state t =
      (<[STATE_PATH := File (foldr String.append "" (json_dump state))]>
         (delete (STATE_PATH +:+ ".tmp") t), true))) ∧
  (∀ t', save_state state t = (t', true) →
         t' !! STATE_PATH = Some (File (foldr String.append "" (json_dump state))) ∧
         t' !! (STATE_PATH +:+ ".tmp") = None) ∧
  (∀ t', save_state state t = (t', false) → t' !! STATE_PATH = t !! STATE_PATH).
Proof.
  assert (Hne : STATE_PATH ≠ STATE_PATH +:+ ".tmp").
  { intros Heq. by apply (app_neq_self STATE_PATH "." "tmp"). }
  assert (Hwrites : Forall (λ op, op = OpenW (STATE_PATH +:+ ".tmp") ∨
                                  ∃ text, op = Append (STATE_PATH +:+ ".tmp") text)
            (OpenW (STATE_PATH +:+ ".tmp") ::
             map (Append (STATE_PATH +:+ ".tmp")) (json_dump state))).
  { apply Forall_cons. split; [by left|]. apply Forall_forall.
    intros op (text & -> & _)%list_elem_of_fmap. right. by exists text. }
  split_and!.
  - intros n Hn.
    assert ((save_state_killed n state t).1 !! STATE_PATH = t !! STATE_PATH) as Hsame.
    { unfold save_state_killed, save_state_ops in *.
      rewrite app_comm_cons in *. rewrite length_app in Hn. simpl in Hn.
      rewrite take_app_le by (simpl; lia).
      apply (steps_on_tmp (STATE_PATH +:+ ".tmp")); [|done].
      by apply Forall_take. }
    split; [done|]. by apply load_state_value.
  - intros Htmp. split.
    + unfold save_state_killed, save_state_ops.
      cbn [length]. rewrite length_app, length_map. cbn [length].
      replace (S (length (json_dump state) + 1) - 1)
        with (S (length (json_dump state))) by lia.
      cbn [take].
      rewrite take_app_le by (rewrite length_map; lia).
      rewrite take_ge by (rewrite length_map; lia).
      cbn [steps step].
      assert (steps (map (Append (STATE_PATH +:+ ".tmp")) (json_dump state))
                (<[STATE_PATH +:+ ".tmp" := File ""]> t) =
              (<[STATE_PATH +:+ ".tmp" :=
                   File (foldr String.append "" (json_dump state))]> t, true)) as Hsteps.
      { rewrite <- (app_nil_r (map _ _)).
        rewrite (steps_writes _ _ _ _ "") by apply lookup_insert_eq.
        by rewrite insert_insert_eq. }
      destruct (t !! (STATE_PATH +:+ ".tmp")) as [[?|e]|] eqn:Hlook;
        [done|by destruct (Htmp e)|done].
    + intros Hstate. rewrite save_state_outcome. cbv zeta.
      destruct (t !! (STATE_PATH +:+ ".tmp")) as [[?|e]|];
        [|by destruct (Htmp e)|];
        (destruct (t !! STATE_PATH) as [[?|e]|]; [done|by destruct (Hstate e)|done]).
  - intros t'. rewrite save_state_outcome. cbv zeta.
    destruct (t !! (STATE_PATH +:+ ".tmp")) as [[?|?]|]; [|by intros [=]|];
      (destruct (t !! STATE_PATH) as [[?|?]|]; [|by intros [=]|]);
      intros [= <-]; rewrite lookup_insert_eq; (split; [done|]);
      rewrite lookup_insert_ne by done; apply lookup_delete_eq.
  - intros t'. rewrite save_state_outcome. cbv zeta.
    destruct (t !! (STATE_PATH +:+ ".tmp")) as [[?|?]|];
      [|by intros [= <-]|];
      (destruct (t !! STATE_PATH) as [[?|?]|] eqn:Hst; [by intros [=]| |by intros [=]]);
      intros [= <-]; by rewrite lookup_insert_ne.
Qed.

End Driver.

(** ** The driver and the state store on the sample runs *)

#[local] Existing Instance Sample.collaborators.

Lemma forward_progress_witness :
  ∃ st', process_submission Sample.net_down Sample.fresh Sample.gallery_two_images = Ok st' ∧
         "abc123" ∈ seen_post_ids st' ∧
         requests (outside st') =
           [] ++ ["https://preview.redd.it/a.jpg?width=1080&s=11";
                  "https://preview.redd.it/b.jpg?width=1080&s=22"].
Proof.
  apply (proj1 (forward_progress Sample.net_down Sample.fresh)
           Sample.gallery_two_images).
  - apply not_elem_of_empty.
  - reflexivity.
Defined.

Lemma second_run_is_idle_witness :
  ∃ st2,
    main_body Sample.net_down [Sample.gallery_two_images; Sample.link_article]
      ["abc123"; "lnk002"] ["image a"; "image b"] =
      Ok (["abc123"; "lnk002"], ["image a"; "image b"], st2) ∧
    resolved st2 = [] ∧
    requests (outside st2) = [] ∧
    files (outside st2) = [] ∧
    downloaded st2 = 0 ∧
    seen_post_ids st2 = seen_post_ids Sample.first_run ∧
    seen_hashes st2 = seen_hashes Sample.first_run ∧
    skipped_posts st2 = 2.
Proof.
  apply (second_run_is_idle Sample.net_gallery Sample.net_down
           [Sample.gallery_two_images; Sample.link_article] [] []
           ["abc123"; "lnk002"] ["image a"; "image b"] Sample.first_run).
  vm_compute. reflexivity.
Defined.

Lemma same_bytes_saved_once_witness :
  ∃ st' ext,
    feed_loop Sample.net_same_bytes
      [Sample.single "p1" "https://i.redd.it/one.png";
       Sample.single "p2" "https://example.com/two.jpg"] Sample.fresh = Ok st' ∧
    "p1_1.png" =
      submission.id (Sample.single "p1" "https://i.redd.it/one.png") +:+ "_1" +:+ ext ∧
    files (outside st') =
      files (outside Sample.fresh) ++
        [(path_join SAVE_DIR "p1_1.png", Sample.bytes_of "same bytes")] ∧
    seen_hashes st' =
      {[ sha256_bytes (Sample.bytes_of "same bytes") ]} ∪ seen_hashes Sample.fresh ∧
    downloaded st' = downloaded Sample.fresh + 1 ∧
    skipped_hashes st' =
      skipped_hashes Sample.fresh + length (@nil string) +
        length ["https://example.com/two.jpg"] ∧
    requests (outside st') =
      requests (outside Sample.fresh) ++
        "https://i.redd.it/one.png" :: [] ++ ["https://example.com/two.jpg"].
Proof.
  apply (proj1 (proj2 (same_bytes_saved_once Sample.net_same_bytes
                          (Sample.bytes_of "same bytes")))
            Sample.fresh
            (Sample.single "p1" "https://i.redd.it/one.png")
            (Sample.single "p2" "https://example.com/two.jpg")
            "https://i.redd.it/one.png" [] ["https://example.com/two.jpg"]
            200 [("Content-Type", "image/jpeg")] "p1_1.png").
  - apply not_elem_of_empty.
  - apply not_elem_of_empty.
  - discriminate.
  - reflexivity.
  - reflexivity.
  - repeat constructor; by exists 200, [("Content-Type", "image/jpeg")].
  - apply not_elem_of_empty.
  - reflexivity.
  - reflexivity.
  - reflexivity.
Defined.

(** The same two posts when the name of the first location has an
    extension of 300 characters: the file system refuses the name, no file
    is written for it and its digest is not recorded; the bytes are saved
    for the second post. *)
Example refused_name_is_not_recorded :
  download_and_dedupe Sample.net_same_bytes Sample.long_extension_url "p1" 1 ∅
      {| requests := []; files := [] |} =
    ({| requests := [Sample.long_extension_url]; files := [] |}, Failed OtherError) ∧
  ∃ st',
    feed_loop Sample.net_same_bytes
      [Sample.single "p1" Sample.long_extension_url;
       Sample.single "p2" "https://example.com/two.jpg"] Sample.fresh = Ok st' ∧
    files (outside st') =
      [("/home/user/texting_theory_screenshots/p2_1.jpg", Sample.bytes_of "same bytes")] ∧
    requests (outside st') =
      [Sample.long_extension_url; "https://example.com/two.jpg"] ∧
    downloaded st' = 1 ∧ skipped_hashes st' = 0.
Proof.
  split; [vm_compute; reflexivity|].
  eexists. split; [vm_compute; reflexivity|]. split_and!; reflexivity.
Qed.

Lemma artifact_index_is_candidate_position_witness :
  ∃ ext new,
    "abc123_2.jpg" =
      "abc123" +:+ "_" +:+
      Py.str_of_nat (S (length ["https://preview.redd.it/a.jpg?width=1080&s=11"]))
      +:+ ext ∧
    files (outside (candidates_loop Sample.net_first_gone "abc123"
                      (["https://preview.redd.it/a.jpg?width=1080&s=11"] ++
                       "https://preview.redd.it/b.jpg?width=1080&s=22" :: []) 1
                      Sample.fresh)) =
      files (outside Sample.fresh) ++
        (path_join SAVE_DIR "abc123_2.jpg", Sample.bytes_of "image b") :: new.
Proof.
  apply (proj1 (proj2 (artifact_index_is_candidate_position Sample.net_first_gone
                          "abc123" Sample.fresh))
            ["https://preview.redd.it/a.jpg?width=1080&s=11"]
            "https://preview.redd.it/b.jpg?width=1080&s=22" []
            200 [("Content-Type", "image/jpeg")]
            (Sample.bytes_of "image b") "abc123_2.jpg").
  - repeat constructor.
  - reflexivity.
  - reflexivity.
  - apply not_elem_of_empty.
  - reflexivity.
  - reflexivity.
Defined.

(** The same run, evaluated: the first candidate is gone, the second one is
    saved, and the only file of the post is [abc123_2.jpg]. *)
Example second_candidate_saved_alone :
  get_image_urls_from_submission Sample.gallery_two_images =
    Ok ["https://preview.redd.it/a.jpg?width=1080&s=11";
        "https://preview.redd.it/b.jpg?width=1080&s=22"] ∧
  files (outside (candidates_loop Sample.net_first_gone "abc123"
                    ["https://preview.redd.it/a.jpg?width=1080&s=11";
                     "https://preview.redd.it/b.jpg?width=1080&s=22"] 1
                    Sample.fresh)) =
    [("/home/user/texting_theory_screenshots/abc123_2.jpg", Sample.bytes_of "image b")].
Proof. split; reflexivity. Qed.

(** C8 fails as stated. The state file exists and does not parse, a
    directory sits at the sidecar path: [load_state] returns the empty state
    and renames nothing, the corrupt file is still at the state path. *)
Lemma corrupt_state_not_renamed :
  STATE_PATH = Sample.state_path ∧
  Sample.tree_corrupt_blocked !! STATE_PATH = Some (File "{ seen_hashes: [") ∧
  json_load "{ seen_hashes: [" = None ∧
  load_state Sample.tree_corrupt_blocked = (Sample.tree_corrupt_blocked, empty_state) ∧
  (load_state Sample.tree_corrupt_blocked).1 !! STATE_PATH = Some (File "{ seen_hashes: [") ∧
  (load_state Sample.tree_corrupt_blocked).1 !! (STATE_PATH +:+ ".corrupt") = Some (Dir true).
Proof. split_and!; reflexivity. Qed.

Lemma corrupt_state_is_set_aside_witness :
  (load_state Sample.tree_corrupt).2 = empty_state ∧
  (load_state Sample.tree_corrupt).1 !! STATE_PATH = None ∧
  (load_state Sample.tree_corrupt).1 !! (STATE_PATH +:+ ".corrupt") =
    Some (File "{ seen_hashes: [").
Proof.
  destruct (corrupt_state_is_set_aside Sample.tree_corrupt "{ seen_hashes: [")
    as [Hstate Htree].
  - reflexivity.
  - reflexivity.
  - change (Sample.tree_corrupt !! (STATE_PATH +:+ ".corrupt")) with (@None node) in Htree.
    destruct Htree as (H1 & H2 & _). by split_and!.
Defined.

Lemma state_file_is_replaced_whole_witness :
  ((save_state_killed 3 Sample.state_two Sample.tree_valid).1 !! STATE_PATH =
     Sample.tree_valid !! STATE_PATH ∧
   (load_state (save_state_killed 3 Sample.state_two Sample.tree_valid).1).2 =
     (load_state Sample.tree_valid).2) ∧
  save_state_killed (length (save_state_ops Sample.state_two) - 1)
      Sample.state_two Sample.tree_valid =
    (<[STATE_PATH +:+ ".tmp" :=
         File (foldr String.append "" (json_dump Sample.state_two))]> Sample.tree_valid,
     true) ∧
  save_state Sample.state_two Sample.tree_valid =
    (<[STATE_PATH := File (foldr String.append "" (json_dump Sample.state_two))]>
       (delete (STATE_PATH +:+ ".tmp") Sample.tree_valid), true).
Proof.
  assert (Htmp : ∀ e, Sample.tree_valid !! (STATE_PATH +:+ ".tmp") ≠ Some (Dir e))
    by (intros e; vm_compute; discriminate).
  assert (Hstate : ∀ e, Sample.tree_valid !! STATE_PATH ≠ Some (Dir e))
    by (intros e; vm_compute; discriminate).
  split_and!.
  - apply (proj1 (state_file_is_replaced_whole Sample.state_two Sample.tree_valid) 3).
    vm_compute. lia.
  - apply (proj1 (state_file_is_replaced_whole Sample.state_two Sample.tree_valid) 3).
    vm_compute. lia.
  - exact (proj1 (proj1 (proj2 (state_file_is_replaced_whole Sample.state_two
                                  Sample.tree_valid)) Htmp)).
  - exact (proj2 (proj1 (proj2 (state_file_is_replaced_whole Sample.state_two
                                  Sample.tree_valid)) Htmp) Hstate).
Defined.

(** The same save, killed after three steps and left alone: the temporary
    path holds the beginning of the text, the state path its old text; run
    to its end, the state path holds the whole text and the temporary path is
    gone. *)
Example save_killed_and_completed :
  (save_state_killed 3 Sample.state_two Sample.tree_valid).1 !! (STATE_PATH +:+ ".tmp") =
    Some (File ("{" +:+ Sample.quote +:+ "seen_hashes" +:+ Sample.quote)) ∧
  (save_state_killed 3 Sample.state_two Sample.tree_valid).1 !! STATE_PATH =
    Some (File "{}") ∧
  (save_state Sample.state_two Sample.tree_valid).2 = true ∧
  (save_state Sample.state_two Sample.tree_valid).1 !! STATE_PATH =
    Some (File (foldr String.append "" (json_dump Sample.state_two))) ∧
  (save_state Sample.state_two Sample.tree_valid).1 !! (STATE_PATH +:+ ".tmp") = None.
Proof. split_and!; reflexivity. Qed.

(** * Further properties of the resolver *)

(** ** The closing loop *)

Lemma dedupe_loop_distinct_forms (urls : list string) (seen : gset string) :
  NoDup (map _normalize_reddit_image_url (dedupe_loop urls [] seen)) ∧
  ∀ x, x ∈ dedupe_loop urls [] seen → _normalize_reddit_image_url x ∉ seen.
Proof.
  revert seen. induction urls as [|u urls IH]; intros seen; simpl.
  - split; [constructor|by intros x ?%elem_of_nil].
  - case_bool_decide as Hu; [apply IH|].
    rewrite dedupe_loop_acc. simpl.
    destruct (IH ({[ _normalize_reddit_image_url u ]} ∪ seen)) as [Hnd Hout].
    split.
    + constructor; [|done]. intros (y & Hy & Hin)%list_elem_of_fmap.
      apply (Hout y Hin). rewrite <- Hy. apply elem_of_union_l.
      by apply elem_of_singleton.
    + intros x [->|Hx]%elem_of_cons; [done|].
      intros Hs. apply (Hout x Hx). by apply elem_of_union_r.
Qed.

Lemma dedupe_loop_sublist (urls : list string) (seen : gset string) :
  sublist (dedupe_loop urls [] seen) urls.
Proof.
  revert seen. induction urls as [|u urls IH]; intros seen; simpl; [done|].
  case_bool_decide.
  - by apply sublist_cons.
  - rewrite dedupe_loop_acc. simpl. by apply sublist_skip.
Qed.

Lemma dedupe_loop_covers (urls : list string) (seen : gset string) (x : string) :
  x ∈ urls →
  _normalize_reddit_image_url x ∈ seen ∨
  ∃ y, y ∈ dedupe_loop urls [] seen ∧
       _normalize_reddit_image_url y = _normalize_reddit_image_url x.
Proof.
  revert seen. induction urls as [|u urls IH]; intros seen; simpl;
    [by intros ?%elem_of_nil|].
  intros [->|Hx]%elem_of_cons.
  - case_bool_decide as Hu; [by left|]. right. exists u. split; [|done].
    rewrite dedupe_loop_acc. by left.
  - case_bool_decide as Hu; [by apply IH|].
    rewrite dedupe_loop_acc.
    destruct (IH ({[ _normalize_reddit_image_url u ]} ∪ seen) Hx)
      as [[Heq%elem_of_singleton|Hs]%elem_of_union|(y & Hy & Hc)].
    + right. exists u. split; [by left|done].
    + by left.
    + right. exists y. split; [by right|done].
Qed.

Lemma dedupe_loop_on_distinct (urls : list string) (seen : gset string) :
  NoDup (map _normalize_reddit_image_url urls) →
  (∀ x, x ∈ urls → _normalize_reddit_image_url x ∉ seen) →
  dedupe_loop urls [] seen = urls.
Proof.
  revert seen. induction urls as [|u urls IH]; intros seen Hnd Hseen; [done|].
  simpl. apply NoDup_cons in Hnd as [Hu Hnd].
  rewrite bool_decide_eq_false_2 by (apply Hseen; left).
  rewrite dedupe_loop_acc. simpl. f_equal. apply IH; [done|].
  intros x Hx [Heq%elem_of_singleton|Hs]%elem_of_union.
  - apply Hu. rewrite <- Heq. apply list_elem_of_fmap. by exists x.
  - by apply (Hseen x); [right|].
Qed.

(** X1. No two URLs that the resolver returns have the same canonical form
    (so no two are equal either). *)
Theorem resolver_output_has_distinct_forms (sub : submission.t) (out : list string) :
  get_image_urls_from_submission sub = Ok out →
  NoDup (map _normalize_reddit_image_url out) ∧ NoDup out.
Proof.
  unfold get_image_urls_from_submission.
  destruct (candidate_urls sub) as [urls|]; [|done]. simpl.
  intros <-%Ok_inj.
  destruct (dedupe_loop_distinct_forms urls ∅) as [Hnd _].
  split; [done|]. by apply (NoDup_fmap_1 _normalize_reddit_image_url).
Qed.

Lemma resolver_output_has_distinct_forms_witness :
  NoDup (map _normalize_reddit_image_url
           ["https://preview.redd.it/a.jpg?width=1080&s=11";
            "https://preview.redd.it/b.jpg?width=1080&s=22"]) ∧
  NoDup ["https://preview.redd.it/a.jpg?width=1080&s=11";
         "https://preview.redd.it/b.jpg?width=1080&s=22"].
Proof.
  apply (resolver_output_has_distinct_forms Sample.gallery_two_images).
  reflexivity.
Defined.

(** X2. The closing loop only drops URLs: what the resolver returns is the
    list of candidates with some of them left out, in the same order, and
    every candidate still has a URL of its canonical form in the result. *)
Theorem resolver_output_covers_candidates (sub : submission.t) (urls : list string) :
  candidate_urls sub = Ok urls →
  ∃ out, get_image_urls_from_submission sub = Ok out ∧
         sublist out urls ∧
         ∀ x, x ∈ urls →
              ∃ y, y ∈ out ∧
                   _normalize_reddit_image_url y = _normalize_reddit_image_url x.
Proof.
  intros Hurls. exists (dedupe_loop urls [] ∅).
  split; [by apply resolver_dedupes|]. split; [apply dedupe_loop_sublist|].
  intros x Hx. destruct (dedupe_loop_covers urls ∅ x Hx) as [Hin|Hy]; [|done].
  by apply not_elem_of_empty in Hin.
Qed.

Lemma resolver_output_covers_candidates_witness :
  ∃ out, get_image_urls_from_submission Sample.gallery_two_sizes = Ok out ∧
         sublist out ["https://preview.redd.it/a.jpg?width=640&s=11";
                      "https://preview.redd.it/a.jpg?width=1080&s=22"] ∧
         ∀ x, x ∈ ["https://preview.redd.it/a.jpg?width=640&s=11";
                   "https://preview.redd.it/a.jpg?width=1080&s=22"] →
              ∃ y, y ∈ out ∧
                   _normalize_reddit_image_url y = _normalize_reddit_image_url x.
Proof.
  apply (resolver_output_covers_candidates Sample.gallery_two_sizes).
  reflexivity.
Defined.

(** X3. Running the closing loop on its own output changes nothing. *)
Theorem dedupe_loop_idempotent (urls : list string) :
  dedupe_loop (dedupe_loop urls [] ∅) [] ∅ = dedupe_loop urls [] ∅.
Proof.
  destruct (dedupe_loop_distinct_forms urls ∅) as [Hnd _].
  apply dedupe_loop_on_distinct; [done|].
  intros x _. apply not_elem_of_empty.
Qed.

(** ** The four rules *)

Lemma replace_amp_keeps_http (src : string) :
  Py.startswith src "http" = true →
  Py.startswith (Py.replace src "&amp;" "&") "http" = true.
Proof.
  intros [t ->]%startswith_split.
  change ("http" +:+ t) with (String "h" (String "t" (String "t" (String "p" t)))).
  rewrite !replace_amp_other by done.
  apply (startswith_app "http").
Qed.

Lemma lower_keeps_http (x : string) :
  Py.startswith x "http" = true → Py.startswith (Py.lower x) "http" = true.
Proof. intros [t ->]%startswith_split. apply (startswith_app "http"). Qed.

(** The rule behind each candidate. *)
Lemma candidate_urls_rule (sub : submission.t) (urls : list string) :
  candidate_urls sub = Ok urls →
  (urls = gallery_urls sub ∧ urls ≠ []) ∨
  gallery_urls sub = [] ∧
    ((native_host_urls sub = Ok urls ∧ urls ≠ []) ∨
     native_host_urls sub = Ok [] ∧
       ((direct_link_urls sub = Ok urls ∧ urls ≠ []) ∨
        direct_link_urls sub = Ok [] ∧ urls = preview_urls sub)).
Proof.
  unfold candidate_urls.
  destruct (gallery_urls sub) as [|g gs] eqn:Hg.
  - destruct (native_host_urls sub) as [[|u2 r2]|] eqn:H2; [| |done].
    + simpl. destruct (direct_link_urls sub) as [[|u3 r3]|] eqn:H3; [| |done].
      * simpl. intros <-%Ok_inj. right. split; [done|]. right. split; [done|].
        by right.
      * simpl. intros <-%Ok_inj. right. split; [done|]. right. split; [done|].
        by left.
    + simpl. intros <-%Ok_inj. right. split; [done|]. by left.
  - simpl. intros <-%Ok_inj. by left.
Qed.

Lemma native_host_urls_shape (sub : submission.t) (l : list string) :
  native_host_urls sub = Ok l →
  l = [] ∨ ∃ u, l = [u] ∧ submission.url sub = Some (PStr u) ∧
                Py.startswith u "http" = true.
Proof.
  unfold native_host_urls.
  destruct (submission.url sub) as [v|]; [|done]. simpl.
  destruct (as_str (py_or v (PStr ""))) as [u|] eqn:Hu; [|done]. simpl.
  destruct (Py.startswith u "http") eqn:Hhttp; simpl;
    [|intros <-%Ok_inj; by left].
  destruct (urlparse u) as [p|]; [|done]. simpl.
  case_bool_decide; simpl; intros <-%Ok_inj; [|by left].
  right. exists u. split_and!; [done| |done]. f_equal.
  apply (submitted_url_text _ _ Hu). by intros ->.
Qed.

Lemma direct_link_urls_shape (sub : submission.t) (l : list string) :
  direct_link_urls sub = Ok l →
  l = [] ∨ ∃ u, l = [u] ∧ submission.url sub = Some (PStr u) ∧
                Py.startswith (Py.lower u) "http" = true.
Proof.
  unfold direct_link_urls.
  destruct (submission.url sub) as [v|]; [|done].
  unfold attr, mbind, result_bind.
  destruct (as_str (py_or v (PStr ""))) as [u|] eqn:Hu; [|done].
  destruct (Py.startswith (Py.lower u) "http"
            && existsb (Py.endswith (Py.lower u)) IMAGE_EXTENSIONS) eqn:Hc;
    intros <-%Ok_inj; [|by left].
  apply andb_true_iff in Hc as [Hhttp _].
  right. exists u. split_and!; [done| |done]. f_equal.
  apply (submitted_url_text _ _ Hu). by intros ->.
Qed.

Lemma preview_loop_shape (images : list pyval) (urls : list string) :
  preview_loop images = Ok urls → (length urls ≤ 1)%nat.
Proof.
  revert urls. induction images as [|img images IH]; intros urls; simpl.
  - intros <-%Ok_inj. simpl. lia.
  - destruct (preview_image_source img) as [[u|]|]; simpl; [| |done].
    + intros <-%Ok_inj. simpl. lia.
    + apply IH.
Qed.

Lemma preview_urls_shape (sub : submission.t) : (length (preview_urls sub) ≤ 1)%nat.
Proof.
  unfold preview_urls.
  destruct (attr (submission.preview sub)) as [p|]; simpl; [|lia].
  destruct (truthy p); [|simpl; lia].
  destruct (py_in "images" p) as [[|]|]; simpl; try lia.
  destruct (getitem p "images") as [images|]; simpl; [|lia].
  destruct (iterate images) as [l|]; simpl; [|lia].
  destruct (preview_loop l) as [urls|] eqn:Hl; simpl; [|lia].
  by apply (preview_loop_shape l).
Qed.

(** X4. Every URL that the resolver returns begins with [http], in upper or
    lower case: under each of the four rules. *)
Theorem resolver_output_is_http (sub : submission.t) (out : list string) (x : string) :
  get_image_urls_from_submission sub = Ok out →
  x ∈ out →
  Py.startswith (Py.lower x) "http" = true.
Proof.
  unfold get_image_urls_from_submission.
  destruct (candidate_urls sub) as [urls|] eqn:Hc; [|done]. simpl.
  intros <-%Ok_inj Hx%dedupe_loop_subset.
  destruct (candidate_urls_rule _ _ Hc)
    as [[-> _]|[_ [[H2 _]|[_ [[H3 _]| [_ ->]]]]]].
  - destruct (gallery_urls_inv _ _ Hx) as (src & Hhttp & ->).
    by apply lower_keeps_http, replace_amp_keeps_http.
  - destruct (native_host_urls_shape _ _ H2) as [->|(u & -> & _ & Hhttp)].
    + by apply elem_of_nil in Hx.
    + apply list_elem_of_singleton in Hx as ->. by apply lower_keeps_http.
  - destruct (direct_link_urls_shape _ _ H3) as [->|(u & -> & _ & Hhttp)].
    + by apply elem_of_nil in Hx.
    + by apply list_elem_of_singleton in Hx as ->.
  - destruct (preview_urls_inv _ _ Hx) as (src & Hhttp & ->).
    by apply lower_keeps_http, replace_amp_keeps_http.
Qed.

Lemma resolver_output_is_http_witness :
  Py.startswith (Py.lower "https://external-preview.redd.it/p.jpg?width=1080&s=1")
    "http" = true.
Proof.
  apply (resolver_output_is_http Sample.link_article
           ["https://external-preview.redd.it/p.jpg?width=1080&s=1"]).
  - reflexivity.
  - by left.
Defined.

(** X5. Only the gallery rule can give more than one location: when it
    gives none, the resolver returns at most one URL. *)
Theorem one_location_outside_galleries (sub : submission.t) (out : list string) :
  gallery_urls sub = [] →
  get_image_urls_from_submission sub = Ok out →
  (length out ≤ 1)%nat.
Proof.
  intros Hg. unfold get_image_urls_from_submission.
  destruct (candidate_urls sub) as [urls|] eqn:Hc; [|done]. simpl.
  intros <-%Ok_inj.
  pose proof (sublist_length _ _ (dedupe_loop_sublist urls ∅)) as Hlen.
  assert ((length urls ≤ 1)%nat); [|lia].
  destruct (candidate_urls_rule _ _ Hc)
    as [[-> Hne]|[_ [[H2 _]|[_ [[H3 _]| [_ ->]]]]]].
  - by rewrite Hg in Hne.
  - destruct (native_host_urls_shape _ _ H2) as [->|(u & -> & _)]; simpl; lia.
  - destruct (direct_link_urls_shape _ _ H3) as [->|(u & -> & _)]; simpl; lia.
  - apply preview_urls_shape.
Qed.

Lemma one_location_outside_galleries_witness :
  (length ["https://external-preview.redd.it/p.jpg?width=1080&s=1"] ≤ 1)%nat.
Proof.
  apply (one_location_outside_galleries Sample.link_article); reflexivity.
Defined.

(** X6. A submitted URL on a native image host is the only location of a
    post for which the gallery rule gives nothing, whatever its preview
    structure holds: the preview rule is not reached. *)
Theorem native_host_url_is_emitted_alone
    (sub : submission.t) (u : string) (p : ParseResult) :
  gallery_urls sub = [] →
  submission.url sub = Some (PStr u) →
  Py.startswith u "http" = true →
  urlparse u = Ok p →
  Py.lower (netloc p) ∈ REDDIT_IMAGE_HOSTS →
  get_image_urls_from_submission sub = Ok [u].
Proof.
  intros Hg Hurl Hhttp Hp Hhost.
  rewrite <- dedupe_loop_singleton. apply resolver_dedupes.
  unfold candidate_urls. rewrite Hg.
  assert (native_host_urls sub = Ok [u]) as ->; [|done].
  unfold native_host_urls. rewrite Hurl. unfold attr, mbind, result_bind.
  assert (py_or (PStr u) (PStr "") = PStr u) as ->.
  { unfold py_or. destruct u; [discriminate Hhttp|done]. }
  unfold as_str. rewrite Hhttp, Hp. by rewrite bool_decide_eq_true_2.
Qed.

Lemma native_host_url_is_emitted_alone_witness :
  get_image_urls_from_submission Sample.native_escaped =
    Ok ["https://i.redd.it/a.jpg?width=640&amp;s=11"].
Proof.
  apply (native_host_url_is_emitted_alone Sample.native_escaped _
    {| scheme := "https"; netloc := "i.redd.it"; path := "/a.jpg";
       params := ""; query := "width=640&amp;s=11"; fragment := "" |}).
  - reflexivity.
  - reflexivity.
  - reflexivity.
  - reflexivity.
  - vm_compute. set_solver.
Defined.

(** X7. A submitted URL elsewhere whose text ends in one of the five image
    extensions, in any case, is the only location of a post for which the
    gallery rule gives nothing; the preview rule is not reached.  Rule 3
    lowers the text before it looks for [http], rule 2 does not. *)
Theorem direct_image_link_is_emitted_alone
    (sub : submission.t) (u : string) :
  gallery_urls sub = [] →
  submission.url sub = Some (PStr u) →
  (Py.startswith u "http" = false ∨
   ∃ p, urlparse u = Ok p ∧ Py.lower (netloc p) ∉ REDDIT_IMAGE_HOSTS) →
  Py.startswith (Py.lower u) "http" = true →
  existsb (Py.endswith (Py.lower u)) IMAGE_EXTENSIONS = true →
  get_image_urls_from_submission sub = Ok [u].
Proof.
  intros Hg Hurl Hhost Hhttp Hext.
  rewrite <- dedupe_loop_singleton. apply resolver_dedupes.
  unfold candidate_urls. rewrite Hg.
  assert (py_or (PStr u) (PStr "") = PStr u) as Hor.
  { unfold py_or. destruct u; [discriminate Hhttp|done]. }
  assert (native_host_urls sub = Ok []) as ->.
  { unfold native_host_urls. rewrite Hurl. unfold attr, mbind, result_bind.
    rewrite Hor. unfold as_str.
    destruct Hhost as [->|(p & Hp & Hhost)]; [done|].
    destruct (Py.startswith u "http"); [|done]. rewrite Hp.
    by rewrite bool_decide_eq_false_2. }
  unfold mbind at 2, result_bind.
  assert (direct_link_urls sub = Ok [u]) as ->; [|done].
  unfold direct_link_urls. rewrite Hurl. unfold attr, mbind, result_bind.
  rewrite Hor. unfold as_str. by rewrite Hhttp, Hext.
Qed.

Lemma direct_image_link_is_emitted_alone_witness :
  get_image_urls_from_submission
    {| submission.id := "ext001";
       submission.url := Some (PStr "HTTPS://example.com/shots/One.PNG");
       submission.is_gallery := None; submission.media_metadata := None;
       submission.gallery_data := None;
       submission.preview :=
         Some (Sample.preview_of "https://external-preview.redd.it/p.jpg?s=1") |} =
    Ok ["HTTPS://example.com/shots/One.PNG"].
Proof.
  apply direct_image_link_is_emitted_alone.
  - reflexivity.
  - reflexivity.
  - by left.
  - reflexivity.
  - reflexivity.
Defined.

(** X8. The resolver does not raise on account of the gallery or preview
    data: when the submitted URL is a string that does not begin with
    [http], or that [urlparse] accepts, the resolver returns a list, whatever
    the gallery flag, the metadata, the gallery data and the preview are, or
    whether the post has them at all. *)
Theorem resolver_returns_for_parsable_url
    (pid u : string) (flag metadata data pv : option pyval) :
  (Py.startswith u "http" = false ∨ ∃ p, urlparse u = Ok p) →
  ∃ out,
    get_image_urls_from_submission
      {| submission.id := pid; submission.url := Some (PStr u);
         submission.is_gallery := flag; submission.media_metadata := metadata;
         submission.gallery_data := data; submission.preview := pv |} = Ok out.
Proof.
  intros Hu. unfold get_image_urls_from_submission.
  set (sub := {| submission.id := pid |}).
  assert (∃ urls, candidate_urls sub = Ok urls) as [urls ->]; [|by eexists].
  assert (Hor : py_or (PStr u) (PStr "") = PStr u) by by destruct u.
  assert (∃ l, native_host_urls sub = Ok l) as [l2 H2].
  { unfold native_host_urls. simpl. rewrite Hor. simpl.
    destruct Hu as [->|[p Hp]]; [by eexists|].
    destruct (Py.startswith u "http"); [|by eexists].
    rewrite Hp. simpl. case_bool_decide; by eexists. }
  assert (∃ l, direct_link_urls sub = Ok l) as [l3 H3].
  { unfold direct_link_urls.
    change (submission.url sub) with (Some (PStr u)).
    unfold attr, mbind, result_bind. rewrite Hor. unfold as_str.
    destruct (Py.startswith (Py.lower u) "http"
              && existsb (Py.endswith (Py.lower u)) IMAGE_EXTENSIONS);
      by eexists. }
  unfold candidate_urls. rewrite H2, H3.
  destruct (gallery_urls sub); [|by eexists].
  simpl. destruct l2; [|by eexists]. simpl. by eexists.
Qed.

Lemma resolver_returns_for_parsable_url_witness :
  ∃ out,
    get_image_urls_from_submission
      {| submission.id := "odd001";
         submission.url := Some (PStr "https://www.reddit.com/gallery/odd001");
         submission.is_gallery := Some (PInt 1);
         submission.media_metadata := Some (PStr "pending");
         submission.gallery_data := None;
         submission.preview := Some (PList [PStr "images"]) |} = Ok out.
Proof.
  apply resolver_returns_for_parsable_url.
  right. eexists. reflexivity.
Defined.

Lemma gallery_loop_until_raise (metadata : pyval) (good : list pyval)
    (outs : list (option string)) (tail : list pyval) (urls : list string) :
  Forall2 (λ item o, gallery_item_source metadata item = Ok o) good outs →
  gallery_loop metadata (good ++ tail) urls =
    gallery_loop metadata tail (urls ++ omap id outs).
Proof.
  intros H. revert urls. induction H as [|item o good outs Hi _ IH]; intros urls.
  - simpl. by rewrite app_nil_r.
  - simpl. rewrite Hi. destruct o as [u|]; simpl.
    + rewrite IH. by rewrite <- app_assoc.
    + apply IH.
Qed.

(** X9. The gallery loop runs inside one [try]: an item that contributes
    nothing is passed over, but an item on which the body raises ends the
    loop, with the URLs appended so far kept and the items after it never
    looked at.  When some URL was appended, that is the resolver's result
    (after the closing loop). *)
Theorem gallery_is_cut_at_a_raising_item
    (sub : submission.t) (metadata data bad : pyval) (good rest : list pyval)
    (outs : list (option string)) (e : exn) :
  truthy (getattr (submission.is_gallery sub) (PBool false)) = true →
  submission.media_metadata sub = Some metadata →
  truthy metadata = true →
  submission.gallery_data sub = Some data →
  getitem data "items" = Ok (PList (good ++ bad :: rest)) →
  Forall2 (λ item o, gallery_item_source metadata item = Ok o) good outs →
  gallery_item_source metadata bad = Raise e →
  gallery_urls sub = omap id outs ∧
  (omap id outs ≠ [] →
   get_image_urls_from_submission sub = Ok (dedupe_loop (omap id outs) [] ∅)).
Proof.
  intros Hflag Hmeta Htruthy Hdata Hitems Hgood Hbad.
  assert (Hg : gallery_urls sub = omap id outs).
  { unfold gallery_urls, gallery_items.
    rewrite Hflag, Hmeta, Hdata. simpl. rewrite Htruthy, Hitems. simpl.
    rewrite (gallery_loop_until_raise _ _ outs) by done.
    simpl. by rewrite Hbad. }
  split; [done|]. intros Hne. apply resolver_dedupes.
  unfold candidate_urls. rewrite Hg. by destruct (omap id outs).
Qed.

Lemma gallery_is_cut_at_a_raising_item_witness :
  get_image_urls_from_submission
    {| submission.id := "cut001";
       submission.url := Some (PStr "https://www.reddit.com/gallery/cut001");
       submission.is_gallery := Some (PBool true);
       submission.media_metadata := Some (PDict
         [("m1", Sample.media "https://preview.redd.it/a.jpg?width=1080&amp;s=11");
          ("m2", Sample.media "https://preview.redd.it/b.jpg?width=1080&amp;s=22")]);
       submission.gallery_data := Some (PDict [("items", PList
         [PDict [("media_id", PStr "m1")];
          PDict [("media_id", PStr "gone")];
          PDict [("id", PInt 7)];
          PDict [("media_id", PStr "m2")]])]);
       submission.preview := None |} =
    Ok (dedupe_loop (omap id [Some "https://preview.redd.it/a.jpg?width=1080&s=11"; None])
          [] ∅).
Proof.
  eapply (proj2 (gallery_is_cut_at_a_raising_item _ _ _ (PDict [("id", PInt 7)])
            [PDict [("media_id", PStr "m1")]; PDict [("media_id", PStr "gone")]]
            [PDict [("media_id", PStr "m2")]]
            [Some "https://preview.redd.it/a.jpg?width=1080&s=11"; None] KeyError
            _ _ _ _ _ _ _)).
  discriminate.
  Unshelve.
  all: try reflexivity.
  repeat constructor.
Defined.

Lemma escape_keeps_http (raw : string) :
  Py.startswith raw "http" = true →
  Py.startswith (Py.replace raw "&" "&amp;") "http" = true.
Proof.
  intros [t ->]%startswith_split.
  apply (startswith_app "http" (Py.replace t "&" "&amp;")).
Qed.

(** X10. Decoding undoes one HTML escaping exactly: a source field that
    holds a URL beginning with [http] with each ["&"] written as ["&amp;"]
    contributes that URL, as it was before the escaping. *)
Theorem escaped_source_is_restored (raw : string) :
  Py.startswith raw "http" = true →
  usable_source (PStr (Py.replace raw "&" "&amp;")) = Ok (Some raw).
Proof.
  intros Hhttp. rewrite usable_source_str by by apply escape_keeps_http.
  by rewrite replace_amp_decodes_escaped.
Qed.

Lemma escaped_source_is_restored_witness :
  usable_source (PStr (Py.replace "https://preview.redd.it/a.jpg?width=640&s=11&x=&amp;"
                         "&" "&amp;")) =
    Ok (Some "https://preview.redd.it/a.jpg?width=640&s=11&x=&amp;").
Proof. apply escaped_source_is_restored. reflexivity. Defined.

(** * Further properties of the download step *)

Lemma header_get_absent (name : string) (headers : list (string * string))
    (default : string) :
  Forall (λ kv, Py.lower kv.1 ≠ Py.lower name) headers →
  header_get name headers default = default.
Proof.
  induction 1 as [|[k v] headers Hk _ IH]; [done|]. simpl in *.
  destruct (String.eqb_spec (Py.lower k) (Py.lower name)); [done|apply IH].
Qed.

Lemma infer_extension_range (headers : list (string * string)) (fallback : string) :
  infer_extension_from_headers headers fallback ∈
    [".png"; ".jpg"; ".gif"; ".webp"; fallback].
Proof.
  unfold infer_extension_from_headers.
  destruct (Py.contains _ "image/png"); [set_solver|].
  destruct (Py.contains _ "image/jpeg" || Py.contains _ "image/jpg"); [set_solver|].
  destruct (Py.contains _ "image/gif"); [set_solver|].
  destruct (Py.contains _ "image/webp"); set_solver.
Qed.

(** X11. The extension read off the headers is one of [.png], [.jpg],
    [.gif], [.webp], or the fallback; it is the fallback when the response
    has no [Content-Type] header, under any spelling of the name. *)
Theorem inferred_extension_is_known (headers : list (string * string))
    (fallback : string) :
  infer_extension_from_headers headers fallback ∈
    [".png"; ".jpg"; ".gif"; ".webp"; fallback] ∧
  (Forall (λ kv, Py.lower kv.1 ≠ "content-type") headers →
   infer_extension_from_headers headers fallback = fallback).
Proof.
  split; [apply infer_extension_range|].
  - intros Habs. unfold infer_extension_from_headers.
    by rewrite (header_get_absent "Content-Type" headers "" Habs).
Qed.

Lemma inferred_extension_is_known_witness :
  infer_extension_from_headers [("Content-Length", "1024"); ("Server", "cdn")] ".jpg"
    = ".jpg".
Proof.
  apply (proj2 (inferred_extension_is_known _ ".jpg")).
  repeat constructor; discriminate.
Defined.

Lemma partition_spec (c : ascii) (s before after : string) :
  Py.partition c s = Some (before, after) →
  s = before +:+ String c after ∧ Py.char_in c before = false.
Proof.
  revert before. induction s as [|a s IH]; intros before; [done|]. simpl.
  destruct (Ascii.eqb a c) eqn:E.
  - apply Ascii.eqb_eq in E as ->. by intros [= <- <-].
  - destruct (Py.partition c s) as [[b' a']|]; [|done].
    intros [= <- <-]. destruct (IH b' eq_refl) as [-> Hb].
    split; [done|]. simpl. by rewrite (Ascii.eqb_sym c a), E.
Qed.

Lemma rpartition_spec (c : ascii) (s before after : string) :
  Py.rpartition c s = Some (before, after) →
  s = before +:+ String c after ∧ Py.char_in c after = false.
Proof.
  revert before. induction s as [|a s IH]; intros before; [done|]. simpl.
  destruct (Py.rpartition c s) as [[b' a']|] eqn:Hr.
  - intros [= <- <-]. by destruct (IH b' eq_refl) as [-> Ha].
  - destruct (Ascii.eqb a c) eqn:E; [|done].
    apply Ascii.eqb_eq in E as ->. intros [= <- <-]. split; [done|].
    clear IH. revert Hr. induction s as [|b s IH]; [done|]. simpl.
    destruct (Py.rpartition c s) as [[??]|]; [done|].
    rewrite (Ascii.eqb_sym c b). destruct (Ascii.eqb b c); [done|]. auto.
Qed.

Lemma splitext_extension (p : string) :
  (splitext p).2 = "" ∨
  ∃ e, (splitext p).2 = String "." e ∧ Py.char_in "/" e = false.
Proof.
  unfold splitext. destruct (Py.rpartition "." p) as [[root e]|]; [|by left].
  destruct (Py.char_in "/" e) eqn:He; [by left|].
  destruct (Py.all_in "." (basename root)); [by left|].
  right. by exists e.
Qed.

Lemma digit_is_no_slash (d : nat) :
  d < 10 → Ascii.eqb "/" (Py.digit_char d) = false.
Proof. intros Hd. do 10 (destruct d as [|d]; [reflexivity|]). lia. Qed.

Lemma str_of_nat_fuel_no_slash (fuel n : nat) (acc : string) :
  Py.char_in "/" acc = false →
  Py.char_in "/" (Py.str_of_nat_fuel fuel n acc) = false.
Proof.
  revert n acc. induction fuel as [|fuel IH]; intros n acc Hacc; [done|].
  cbn [Py.str_of_nat_fuel].
  assert (Py.char_in "/" (String (Py.digit_char (n mod 10)) acc) = false) as Hd.
  { cbn [Py.char_in]. rewrite digit_is_no_slash; [done|].
    apply Nat.mod_upper_bound. lia. }
  destruct (n <? 10)%nat; [done|by apply IH].
Qed.

Lemma no_slash_no_leading_slash (s : string) :
  Py.char_in "/" s = false → Py.startswith s "/" = false.
Proof.
  destruct s as [|a s]; [done|]. intros Hs.
  change (Py.startswith (String a s) "/") with (Ascii.eqb a "/" && true).
  change (Py.char_in "/" (String a s))
    with (if Ascii.eqb "/" a then true else Py.char_in "/" s) in Hs.
  rewrite Ascii.eqb_sym. by destruct (Ascii.eqb "/" a).
Qed.

Section Downloads.
Context `{Collaborators}.

(** X12. The name taken from a URL is never empty: where the path has no
    last component, or [unquote] leaves nothing of it, the name is
    [image].  It exists exactly when [urlparse] accepts the URL, and
    otherwise the exception of [urlparse] is passed on. *)
Theorem filename_from_url_is_never_empty (url : string) :
  match urlparse url with
  | Ok p =>
      ∃ name, filename_from_url url = Ok name ∧ name ≠ "" ∧
              (unquote (basename (path p)) = "" → name = "image")
  | Raise e => filename_from_url url = Raise e
  end.
Proof.
  unfold filename_from_url. destruct (urlparse url) as [p|e]; [|done]. simpl.
  eexists. split; [done|].
  destruct (String.eqb_spec (unquote (basename (path p))) ""); by split.
Qed.

(** X13. The name of a stored file ends in an extension that begins with a
    dot: the one of the URL's name when it has one, else the one read off
    the headers, [.jpg] at the least.  When the post identifier has no
    slash, neither has the name, whatever the URL and [unquote] are: the
    file goes into the output directory itself. *)
Theorem artifact_name_is_a_plain_name (url pid : string) (idx : nat)
    (headers : list (string * string)) (name : string) :
  artifact_name url pid idx headers = Ok name →
  ∃ ext,
    name = pid +:+ "_" +:+ Py.str_of_nat idx +:+ ext ∧
    Py.startswith ext "." = true ∧
    (Py.char_in "/" pid = false →
     Py.char_in "/" name = false ∧
     ∃ sep, (sep = "" ∨ sep = "/") ∧
            path_join SAVE_DIR name = SAVE_DIR +:+ sep +:+ name).
Proof.
  unfold artifact_name. destruct (filename_from_url url) as [base|]; [|done].
  unfold mbind, result_bind. intros <-%Ok_inj.
  set (ext := if String.eqb (splitext base).2 "" then _ else _).
  assert (Hext : Py.startswith ext "." = true ∧ Py.char_in "/" ext = false).
  { subst ext. destruct (splitext_extension base) as [->|(e & -> & He)].
    - simpl.
      pose proof (infer_extension_range headers ".jpg") as Hin.
      repeat (apply elem_of_cons in Hin as [->|Hin]; [done|]).
      by apply elem_of_nil in Hin.
    - simpl. by rewrite He. }
  destruct Hext as [Hdot Hslash]. exists ext. split_and!; [done..|].
  intros Hpid.
  assert (Hname : Py.char_in "/" (pid +:+ "_" +:+ Py.str_of_nat idx +:+ ext) = false).
  { rewrite !char_in_app, Hpid, Hslash. unfold Py.str_of_nat.
    by rewrite str_of_nat_fuel_no_slash. }
  split; [done|]. unfold path_join.
  assert (Py.startswith (pid +:+ "_" +:+ Py.str_of_nat idx +:+ ext) "/" = false) as ->.
  { by apply no_slash_no_leading_slash. }
  destruct (String.eqb SAVE_DIR "" || Py.endswith SAVE_DIR "/").
  - exists "". split; [by left|done].
  - exists "/". split; [by right|done].
Qed.

End Downloads.

Lemma filename_from_url_is_never_empty_witness :
  ∃ name, filename_from_url (H := Sample.collaborators) "https://i.redd.it/" = Ok name ∧
          name ≠ "" ∧
          (unquote (Collaborators := Sample.collaborators) (basename "/") = "" →
           name = "image").
Proof.
  exact (filename_from_url_is_never_empty (H := Sample.collaborators) "https://i.redd.it/").
Defined.

Lemma artifact_name_is_a_plain_name_witness :
  ∃ ext,
    "abc123_2.jpg" = "abc123" +:+ "_" +:+ Py.str_of_nat 2 +:+ ext ∧
    Py.startswith ext "." = true ∧
    (Py.char_in "/" "abc123" = false →
     Py.char_in "/" "abc123_2.jpg" = false ∧
     ∃ sep, (sep = "" ∨ sep = "/") ∧
            path_join (SAVE_DIR (H := Sample.collaborators)) "abc123_2.jpg" =
              SAVE_DIR (H := Sample.collaborators) +:+ sep +:+ "abc123_2.jpg").
Proof.
  apply (artifact_name_is_a_plain_name (H := Sample.collaborators)
           "https://preview.redd.it/b.jpg?width=1080&s=22" "abc123" 2 []).
  reflexivity.
Defined.

(** * Further properties of the loop over the feed *)

Section Runs.
Context `{Collaborators}.

Lemma feed_loop_app (net : transport) (pre rest : list submission.t) (st : run) :
  feed_loop net (pre ++ rest) st = (st1 ← feed_loop net pre st; feed_loop net rest st1).
Proof.
  revert st. induction pre as [|sub pre IH]; intros st; [done|]. simpl.
  destruct (process_submission net st sub) as [st1|]; [|done]. simpl. apply IH.
Qed.

(** X14. A submitted URL that [urlparse] refuses ends the run: rule 2 parses
    the URL of every unprocessed post whose gallery rule gave nothing, and
    nothing between that call and [main] catches its exception, so the posts
    after it are not reached and the exception leaves the loop. *)
Theorem unparsable_link_ends_the_run (net : transport)
    (pre rest : list submission.t) (sub : submission.t) (st st1 : run)
    (u : string) (e : exn) :
  feed_loop net pre st = Ok st1 →
  submission.id sub ∉ seen_post_ids st1 →
  gallery_urls sub = [] →
  submission.url sub = Some (PStr u) →
  Py.startswith u "http" = true →
  urlparse u = Raise e →
  get_image_urls_from_submission sub = Raise e ∧
  feed_loop net (pre ++ sub :: rest) st = Raise e.
Proof.
  intros Hpre Hnew Hg Hurl Hhttp Hparse.
  assert (Hres : get_image_urls_from_submission sub = Raise e).
  { unfold get_image_urls_from_submission, candidate_urls. rewrite Hg.
    assert (native_host_urls sub = Raise e) as ->; [|done].
    unfold native_host_urls. rewrite Hurl. unfold attr, mbind, result_bind.
    assert (py_or (PStr u) (PStr "") = PStr u) as -> by by destruct u.
    unfold as_str. by rewrite Hhttp, Hparse. }
  split; [done|]. rewrite feed_loop_app, Hpre. unfold mbind, result_bind.
  cbn [feed_loop]. unfold process_submission.
  rewrite bool_decide_eq_false_2 by done. by rewrite Hres.
Qed.

Lemma record_outcome_counts (net : transport) (url pid : string) (i : nat) (st : run) :
  let dl := download_and_dedupe net url pid i (seen_hashes st) (outside st) in
  let st' := record_outcome dl.2 dl.1 st in
  downloaded st' + length (files (outside st)) =
    downloaded st + length (files (outside st')) ∧
  (downloaded st' + skipped_hashes st' + length (requests (outside st)) ≤
    downloaded st + skipped_hashes st + length (requests (outside st')))%nat ∧
  skipped_posts st' = skipped_posts st.
Proof.
  unfold download_and_dedupe.
  destruct (net url) as [|status headers content];
    [simpl; rewrite length_app; simpl; lia|].
  destruct ((400 <=? status)%nat && (status <? 600)%nat);
    [simpl; rewrite length_app; simpl; lia|].
  case_bool_decide; [simpl; rewrite length_app; simpl; lia|].
  destruct (artifact_name url pid i headers) as [name|];
    [|simpl; rewrite length_app; simpl; lia].
  destruct (open_wb (path_join SAVE_DIR name));
    simpl; rewrite ?length_app; simpl; lia.
Qed.

Lemma candidates_loop_counts (net : transport) (pid : string) (urls : list string)
    (i : nat) (st : run) :
  let st' := candidates_loop net pid urls i st in
  downloaded st' + length (files (outside st)) =
    downloaded st + length (files (outside st')) ∧
  (downloaded st' + skipped_hashes st' + length (requests (outside st)) ≤
    downloaded st + skipped_hashes st + length (requests (outside st')))%nat ∧
  skipped_posts st' = skipped_posts st.
Proof.
  revert i st. induction urls as [|url urls IH]; intros i st.
  - unfold candidates_loop. simpl. lia.
  - cbv zeta. rewrite candidates_loop_cons.
    pose proof (record_outcome_counts net url pid i st) as H1. cbv zeta in H1.
    pose proof (IH (S i) (record_outcome
       (download_and_dedupe net url pid i (seen_hashes st) (outside st)).2
       (download_and_dedupe net url pid i (seen_hashes st) (outside st)).1 st)) as H2.
    cbv zeta in H2. lia.
Qed.

Lemma process_submission_counts (net : transport) (st st' : run) (sub : submission.t) :
  process_submission net st sub = Ok st' →
  downloaded st' + length (files (outside st)) =
    downloaded st + length (files (outside st')) ∧
  (downloaded st' + skipped_hashes st' + length (requests (outside st)) ≤
    downloaded st + skipped_hashes st + length (requests (outside st')))%nat ∧
  skipped_posts st' + length (resolved st') =
    skipped_posts st + length (resolved st) + 1.
Proof.
  unfold process_submission. case_bool_decide as Hseen.
  - intros <-%Ok_inj. simpl. lia.
  - destruct (get_image_urls_from_submission sub) as [urls|]; [|done].
    unfold mbind, result_bind. destruct urls as [|u urls]; intros <-%Ok_inj.
    + simpl. rewrite length_app. simpl. lia.
    + unfold mark_seen. cbn [downloaded skipped_hashes skipped_posts outside resolved].
      rewrite candidates_loop_resolved. cbn [resolved]. rewrite length_app.
      match goal with |- context [candidates_loop net ?p ?l ?i ?s] =>
        pose proof (candidates_loop_counts net p l i s) as Hc end.
      cbv zeta in Hc. cbn [downloaded skipped_hashes skipped_posts outside] in Hc.
      cbn [length]. lia.
Qed.

Lemma feed_loop_counts (net : transport) (feed : list submission.t) (st st' : run) :
  feed_loop net feed st = Ok st' →
  downloaded st' + length (files (outside st)) =
    downloaded st + length (files (outside st')) ∧
  (downloaded st' + skipped_hashes st' + length (requests (outside st)) ≤
    downloaded st + skipped_hashes st + length (requests (outside st')))%nat ∧
  skipped_posts st' + length (resolved st') =
    skipped_posts st + length (resolved st) + length feed.
Proof.
  revert st. induction feed as [|sub feed IH]; intros st; simpl.
  - intros <-%Ok_inj. lia.
  - destruct (process_submission net st sub) as [st1|] eqn:H1; [|done]. simpl.
    intros H2. apply process_submission_counts in H1. apply IH in H2. lia.
Qed.

(** X15. The three counters of the summary are truthful.  At the end of a
    run that completes, [downloaded] is the number of files written;
    [skipped_posts] and the number of posts handed to the resolver add up
    to the number of posts read from the feed, which is at most
    [POST_LIMIT]; and [downloaded] and [skipped_hashes] together do not
    exceed the number of requests made, the rest being the failed ones. *)
Theorem summary_counters_are_truthful (net : transport) (feed : list submission.t)
    (ids hashes ids' hashes' : list string) (st : run) :
  main_body net feed ids hashes = Ok (ids', hashes', st) →
  downloaded st = length (files (outside st)) ∧
  skipped_posts st + length (resolved st) = length feed `min` POST_LIMIT ∧
  (downloaded st + skipped_hashes st ≤ length (requests (outside st)))%nat.
Proof.
  unfold main_body.
  destruct (feed_loop net (take POST_LIMIT feed) (start ids hashes)) as [st'|] eqn:Hrun;
    [|done].
  unfold mbind, result_bind. intros [= _ _ <-].
  apply feed_loop_counts in Hrun. rewrite length_take in Hrun.
  unfold start in Hrun.
  cbn [downloaded skipped_posts skipped_hashes resolved outside files requests length]
    in Hrun.
  lia.
Qed.

Lemma process_submission_processed (net : transport) (st st' : run) (sub : submission.t) :
  process_submission net st sub = Ok st' →
  seen_post_ids st' = {[ submission.id sub ]} ∪ seen_post_ids st.
Proof.
  unfold process_submission. case_bool_decide as Hseen.
  - intros <-%Ok_inj. cbn [seen_post_ids]. apply set_eq. intros x.
    rewrite elem_of_union, elem_of_singleton. split; [by right|].
    by intros [->|?].
  - destruct (get_image_urls_from_submission sub) as [urls|]; [|done].
    unfold mbind, result_bind.
    destruct urls as [|u urls]; intros <-%Ok_inj; unfold mark_seen;
      cbn [seen_post_ids]; by rewrite ?candidates_loop_seen_post_ids.
Qed.

(** X16. The processed set after a run that completes is the set it
    started from together with the identifiers of the posts read, no more
    and no less: a post is marked whether it was skipped, had no candidate,
    or had candidates that all failed, and nothing else is ever added or
    removed. *)
Theorem processed_set_is_old_set_and_feed (net : transport)
    (feed : list submission.t) (st st' : run) :
  feed_loop net feed st = Ok st' →
  seen_post_ids st' = seen_post_ids st ∪ list_to_set (map submission.id feed).
Proof.
  revert st. induction feed as [|sub feed IH]; intros st; simpl.
  - intros <-%Ok_inj. by rewrite (right_id_L ∅ (∪)).
  - destruct (process_submission net st sub) as [st1|] eqn:H1; [|done]. simpl.
    intros H2. rewrite (IH _ H2), (process_submission_processed _ _ _ _ H1).
    apply set_eq. intros x. rewrite !elem_of_union, elem_of_singleton. tauto.
Qed.

Lemma process_submission_work (net : transport) (st st' : run) (sub : submission.t) :
  process_submission net st sub = Ok st' →
  (submission.id sub ∈ seen_post_ids st ∧
   resolved st' = resolved st ∧
   requests (outside st') = requests (outside st)) ∨
  ((submission.id sub ∉ seen_post_ids st) ∧
   resolved st' = resolved st ++ [submission.id sub] ∧
   ∃ urls, get_image_urls_from_submission sub = Ok urls ∧
           requests (outside st') = requests (outside st) ++ urls).
Proof.
  unfold process_submission. case_bool_decide as Hseen.
  - intros <-%Ok_inj. by left.
  - destruct (get_image_urls_from_submission sub) as [urls|]; [|done].
    unfold mbind, result_bind.
    destruct urls as [|u urls]; intros <-%Ok_inj; right; (split; [done|]).
    + split; [done|]. exists []. split; [done|]. simpl. by rewrite app_nil_r.
    + unfold mark_seen. cbn [resolved outside].
      rewrite candidates_loop_resolved, candidates_loop_requests. split; [done|].
      by eexists.
Qed.

(** X17. In a run that completes, the resolver is called at most once for
    a post identifier, and never for one that was in the processed set at
    the start: the identifiers handed to the resolver during the run are
    pairwise distinct, none was processed before, and each is the
    identifier of a post of the feed. *)
Theorem a_post_is_resolved_at_most_once (net : transport)
    (feed : list submission.t) (st st' : run) :
  feed_loop net feed st = Ok st' →
  ∃ new,
    resolved st' = resolved st ++ new ∧
    NoDup new ∧
    ∀ pid, pid ∈ new →
      (pid ∉ seen_post_ids st) ∧ ∃ sub, sub ∈ feed ∧ submission.id sub = pid.
Proof.
  revert st. induction feed as [|sub feed IH]; intros st; simpl.
  - intros <-%Ok_inj. exists []. rewrite app_nil_r. split_and!; [done|constructor|].
    by intros pid ?%elem_of_nil.
  - destruct (process_submission net st sub) as [st1|] eqn:H1; [|done]. simpl.
    intros H2. destruct (IH _ H2) as (new & Hres & Hnd & Hnew).
    pose proof (process_submission_processed _ _ _ _ H1) as Hseen.
    destruct (process_submission_work _ _ _ _ H1)
      as [(Hin & Hr & _)|(Hnin & Hr & _)].
    + exists new. rewrite Hres, Hr. split_and!; [done..|].
      intros pid Hpid. destruct (Hnew pid Hpid) as [Hn (s & Hs & Hid)]. split.
      * intros Hp. apply Hn. rewrite Hseen. apply elem_of_union. by right.
      * exists s. split; [|done]. apply elem_of_cons. by right.
    + exists (submission.id sub :: new). rewrite Hres, Hr, <- app_assoc.
      split_and!; [done| |].
      * constructor; [|done]. intros Hpid. apply (proj1 (Hnew _ Hpid)).
        rewrite Hseen. apply elem_of_union. left. by apply elem_of_singleton.
      * intros pid [->|Hpid]%elem_of_cons.
        -- split; [done|]. exists sub. split; [|done]. apply elem_of_cons. by left.
        -- destruct (Hnew pid Hpid) as [Hn (s & Hs & Hid)]. split.
           ++ intros Hp. apply Hn. rewrite Hseen. apply elem_of_union. by right.
           ++ exists s. split; [|done]. apply elem_of_cons. by right.
Qed.

(** X18. Requests go out only for candidates of posts that were not
    processed before: every URL requested during a run that completes is
    in the list the resolver returned for a post of the feed whose
    identifier was not in the processed set at the start. *)
Theorem requests_are_for_unprocessed_posts (net : transport)
    (feed : list submission.t) (st st' : run) :
  feed_loop net feed st = Ok st' →
  ∃ reqs,
    requests (outside st') = requests (outside st) ++ reqs ∧
    ∀ u, u ∈ reqs →
      ∃ sub urls, sub ∈ feed ∧ (submission.id sub ∉ seen_post_ids st) ∧
                  get_image_urls_from_submission sub = Ok urls ∧ u ∈ urls.
Proof.
  revert st. induction feed as [|sub feed IH]; intros st; simpl.
  - intros <-%Ok_inj. exists []. rewrite app_nil_r. split; [done|].
    by intros u ?%elem_of_nil.
  - destruct (process_submission net st sub) as [st1|] eqn:H1; [|done]. simpl.
    intros H2. destruct (IH _ H2) as (reqs & Hreq & Hall).
    pose proof (process_submission_processed _ _ _ _ H1) as Hseen.
    assert (Hrest : ∀ u, u ∈ reqs →
      ∃ s urls, s ∈ sub :: feed ∧ (submission.id s ∉ seen_post_ids st) ∧
                get_image_urls_from_submission s = Ok urls ∧ u ∈ urls).
    { intros u Hu. destruct (Hall u Hu) as (s & urls & Hs & Hn & Hr & Hin).
      exists s, urls. split_and!; [apply elem_of_cons; by right| |done..].
      intros Hp. apply Hn. rewrite Hseen. apply elem_of_union. by right. }
    destruct (process_submission_work _ _ _ _ H1)
      as [(Hin & _ & Hr)|(Hnin & _ & urls & Hurls & Hr)].
    + exists reqs. by rewrite Hreq, Hr.
    + exists (urls ++ reqs). rewrite Hreq, Hr, <- app_assoc. split; [done|].
      intros u [Hu|Hu]%elem_of_app; [|by apply Hrest].
      exists sub, urls. split_and!; [apply elem_of_cons; by left|done..].
Qed.

Lemma sorted_is_sorted (s : gset string) :
  StronglySorted String.le (sorted s) ∧ NoDup (sorted s) ∧
  ∀ x, x ∈ sorted s ↔ x ∈ s.
Proof.
  unfold sorted. split_and!.
  - apply (StronglySorted_merge_sort String.le).
  - rewrite merge_sort_Permutation. apply NoDup_elements.
  - intros x. rewrite merge_sort_Permutation. apply elem_of_elements.
Qed.

(** X19. The two lists a run hands to [save_state] are in ascending
    order and free of duplicates; they keep every entry of the lists the
    run started from, and the list of post identifiers holds the
    identifier of each of the first [POST_LIMIT] posts of the feed. *)
Theorem persisted_lists_are_sorted_and_grow (net : transport)
    (feed : list submission.t) (ids hashes ids' hashes' : list string) (st : run) :
  main_body net feed ids hashes = Ok (ids', hashes', st) →
  (StronglySorted String.le ids' ∧ NoDup ids' ∧
   (∀ x, x ∈ ids → x ∈ ids') ∧
   ∀ sub, sub ∈ take POST_LIMIT feed → submission.id sub ∈ ids') ∧
  (StronglySorted String.le hashes' ∧ NoDup hashes' ∧
   ∀ x, x ∈ hashes → x ∈ hashes').
Proof.
  unfold main_body.
  destruct (feed_loop net (take POST_LIMIT feed) (start ids hashes)) as [st'|] eqn:Hrun;
    [|done].
  unfold mbind, result_bind. intros [= <- <- <-].
  destruct (sorted_is_sorted (seen_post_ids st')) as (Hs1 & Hn1 & Hm1).
  destruct (sorted_is_sorted (seen_hashes st')) as (Hs2 & Hn2 & Hm2).
  destruct (feed_loop_marks _ _ _ _ Hrun) as [Hsub Hall].
  destruct (feed_loop_saved_once _ _ _ _ Hrun) as (new & _ & Hh & _).
  split_and!; try done.
  - intros x Hx. apply Hm1, Hsub. simpl. by apply elem_of_list_to_set.
  - intros sub Hin. by apply Hm1, Hall.
  - intros x Hx. apply Hm2. rewrite Hh. apply elem_of_union. right. simpl.
    by apply elem_of_list_to_set.
Qed.

End Runs.

Lemma unparsable_link_ends_the_run_witness :
  get_image_urls_from_submission (Sample.single "bad001" "http://[::1/a.png") =
    Raise ValueError ∧
  feed_loop Sample.net_gallery
    ([Sample.gallery_two_images; Sample.link_article] ++
     Sample.single "bad001" "http://[::1/a.png" :: [Sample.native_escaped])
    Sample.fresh = Raise ValueError.
Proof.
  apply (unparsable_link_ends_the_run Sample.net_gallery
           [Sample.gallery_two_images; Sample.link_article] [Sample.native_escaped]
           (Sample.single "bad001" "http://[::1/a.png")
           Sample.fresh Sample.first_run "http://[::1/a.png" ValueError).
  - vm_compute. reflexivity.
  - apply (bool_decide_eq_false_1 ("bad001" ∈ seen_post_ids Sample.first_run)).
    vm_compute. reflexivity.
  - reflexivity.
  - reflexivity.
  - reflexivity.
  - reflexivity.
Defined.

Lemma summary_counters_are_truthful_witness :
  downloaded Sample.first_run = length (files (outside Sample.first_run)) ∧
  skipped_posts Sample.first_run + length (resolved Sample.first_run) =
    length [Sample.gallery_two_images; Sample.link_article] `min` POST_LIMIT ∧
  (downloaded Sample.first_run + skipped_hashes Sample.first_run ≤
     length (requests (outside Sample.first_run)))%nat.
Proof.
  apply (summary_counters_are_truthful Sample.net_gallery
           [Sample.gallery_two_images; Sample.link_article] [] []
           ["abc123"; "lnk002"] ["image a"; "image b"] Sample.first_run).
  vm_compute. reflexivity.
Defined.

Lemma processed_set_is_old_set_and_feed_witness :
  seen_post_ids Sample.first_run =
    seen_post_ids Sample.fresh ∪
    list_to_set (map submission.id [Sample.gallery_two_images; Sample.link_article]).
Proof.
  apply (processed_set_is_old_set_and_feed Sample.net_gallery
           [Sample.gallery_two_images; Sample.link_article] Sample.fresh).
  vm_compute. reflexivity.
Defined.

Lemma a_post_is_resolved_at_most_once_witness :
  ∃ new,
    resolved Sample.first_run = resolved Sample.fresh ++ new ∧
    NoDup new ∧
    ∀ pid, pid ∈ new →
      (pid ∉ seen_post_ids Sample.fresh) ∧
      ∃ sub, sub ∈ [Sample.gallery_two_images; Sample.link_article] ∧
             submission.id sub = pid.
Proof.
  apply (a_post_is_resolved_at_most_once Sample.net_gallery
           [Sample.gallery_two_images; Sample.link_article] Sample.fresh).
  vm_compute. reflexivity.
Defined.

Lemma requests_are_for_unprocessed_posts_witness :
  ∃ reqs,
    requests (outside Sample.first_run) = requests (outside Sample.fresh) ++ reqs ∧
    ∀ u, u ∈ reqs →
      ∃ sub urls, sub ∈ [Sample.gallery_two_images; Sample.link_article] ∧
                  (submission.id sub ∉ seen_post_ids Sample.fresh) ∧
                  get_image_urls_from_submission sub = Ok urls ∧ u ∈ urls.
Proof.
  apply (requests_are_for_unprocessed_posts Sample.net_gallery
           [Sample.gallery_two_images; Sample.link_article] Sample.fresh).
  vm_compute. reflexivity.
Defined.

Lemma persisted_lists_are_sorted_and_grow_witness :
  (StronglySorted String.le ["abc123"; "lnk002"] ∧
   NoDup ["abc123"; "lnk002"] ∧
   (∀ x, x ∈ @nil string → x ∈ ["abc123"; "lnk002"]) ∧
   ∀ sub, sub ∈ take POST_LIMIT [Sample.link_article; Sample.gallery_two_images] →
          submission.id sub ∈ ["abc123"; "lnk002"]) ∧
  (StronglySorted String.le ["image a"; "image b"] ∧
   NoDup ["image a"; "image b"] ∧
   ∀ x, x ∈ @nil string → x ∈ ["image a"; "image b"]).
Proof.
  apply (persisted_lists_are_sorted_and_grow Sample.net_gallery
           [Sample.link_article; Sample.gallery_two_images] [] []
           ["abc123"; "lnk002"] ["image a"; "image b"]
           (match feed_loop Sample.net_gallery
                    [Sample.link_article; Sample.gallery_two_images] Sample.fresh with
            | Ok st => st
            | Raise _ => Sample.fresh
            end)).
  vm_compute. reflexivity.
Defined.

(** * Further properties of the state store *)

Lemma drop_length_app (s x : string) : Py.drop (String.length s) (s +:+ x) = x.
Proof. induction s as [|a s IH]; [by destruct x|]. by rewrite app_cons. Qed.

Lemma app_inv_head_str (s x y : string) : s +:+ x = s +:+ y → x = y.
Proof.
  induction s as [|a s IH]; [done|]. rewrite !app_cons. intros [= Heq]. by apply IH.
Qed.

Lemma startswith_app_both (s x y : string) :
  Py.startswith (s +:+ x) (s +:+ y) = Py.startswith x y.
Proof.
  induction s as [|a s IH]; [done|]. rewrite !app_cons.
  change (Py.startswith (String a (s +:+ x)) (String a (s +:+ y)))
    with (Ascii.eqb a a && Py.startswith (s +:+ x) (s +:+ y)).
  by rewrite Ascii.eqb_refl, IH.
Qed.

(** A path inside [dir] is [dir] followed by nothing or by a slash and the
    rest. *)
Lemma inside_split (dir p : string) :
  inside dir p = true ↔
  ∃ r, p = dir +:+ r ∧ (r = "" ∨ Py.startswith r "/" = true).
Proof.
  unfold inside. split.
  - intros [Heq|Hpre]%orb_true_iff.
    + apply String.eqb_eq in Heq as ->. exists "". by rewrite app_empty_r; auto.
    + apply startswith_split in Hpre as [r ->]. exists ("/" +:+ r).
      rewrite app_assoc_str. split; [done|]. right. apply (startswith_app "/" r).
  - intros (r & -> & [->|Hr]); apply orb_true_iff.
    + left. rewrite app_empty_r. apply String.eqb_refl.
    + right. by rewrite startswith_app_both.
Qed.

Lemma rebase_inside (src dst r : string) : rebase src dst (src +:+ r) = dst +:+ r.
Proof. unfold rebase. by rewrite drop_length_app. Qed.

(** The keys of the moved part are inside [dst], one for each key inside
    [src]. *)
Lemma move_tree_keys (src dst : string) (t : gmap string node) :
  NoDup (map (λ kv, (rebase src dst kv.1, kv.2))
             (map_to_list (filter (λ kv, inside src kv.1 = true) t))).*1 ∧
  ∀ p, p ∈ (map (λ kv : string * node, (rebase src dst kv.1, kv.2))
                (map_to_list (filter (λ kv, inside src kv.1 = true) t))).*1 →
       inside dst p = true.
Proof.
  set (l := map_to_list (filter (λ kv : string * node, inside src kv.1 = true) t)).
  assert (Hl : ∀ kv, kv ∈ l → ∃ r, kv.1 = src +:+ r ∧
                                   (r = "" ∨ Py.startswith r "/" = true)).
  { intros [k n] Hin. apply elem_of_map_to_list in Hin.
    apply map_lookup_filter_Some in Hin as [_ Hin]. by apply inside_split. }
  assert (Heq : (map (λ kv : string * node, (rebase src dst kv.1, kv.2)) l).*1 =
                rebase src dst <$> l.*1).
  { clear Hl. induction l as [|kv l IH]; [done|]. simpl. f_equal. exact IH. }
  rewrite Heq. split.
  - apply NoDup_fmap_2_strong; [|apply NoDup_fst_map_to_list].
    intros k1 k2 (kv1 & -> & H1)%list_elem_of_fmap (kv2 & -> & H2)%list_elem_of_fmap.
    destruct (Hl _ H1) as (r1 & -> & _). destruct (Hl _ H2) as (r2 & -> & _).
    rewrite !rebase_inside. by intros ->%app_inv_head_str.
  - intros p (k & -> & (kv & -> & Hin)%list_elem_of_fmap)%list_elem_of_fmap.
    destruct (Hl _ Hin) as (r & -> & Hr). rewrite rebase_inside.
    apply inside_split. by exists r.
Qed.

(** A rename of a directory leaves every path outside of the two
    directories alone. *)
Lemma move_tree_frame (src dst : string) (t : gmap string node) (p : string) :
  inside src p = false → inside dst p = false →
  move_tree src dst t !! p = t !! p.
Proof.
  intros Hsrc Hdst. unfold move_tree. rewrite lookup_union_r.
  - destruct (t !! p) as [n|] eqn:Hp.
    + by apply map_lookup_filter_Some_2.
    + apply map_lookup_filter_None_2. by left.
  - apply not_elem_of_list_to_map_1. intros Hin.
    apply (proj2 (move_tree_keys src dst t)) in Hin. congruence.
Qed.

(** What was at or below [src] is at or below [dst] afterwards, and the
    paths at and below [src] are free. *)
Lemma move_tree_moved (src dst : string) (t : gmap string node) (r : string)
    (n : node) :
  (r = "" ∨ Py.startswith r "/" = true) →
  t !! (src +:+ r) = Some n →
  move_tree src dst t !! (dst +:+ r) = Some n.
Proof.
  intros Hr Hn. unfold move_tree. apply lookup_union_Some_l.
  apply elem_of_list_to_map_1; [apply move_tree_keys|].
  apply list_elem_of_fmap. exists (src +:+ r, n). cbn [fst snd].
  rewrite rebase_inside. split; [done|].
  apply elem_of_map_to_list, map_lookup_filter_Some_2; [done|].
  cbn [fst]. apply inside_split. by exists r.
Qed.

Lemma move_tree_vacated (src dst : string) (t : gmap string node) (p : string) :
  inside src p = true → inside dst p = false →
  move_tree src dst t !! p = None.
Proof.
  intros Hsrc Hdst. unfold move_tree. rewrite lookup_union_r.
  - apply map_lookup_filter_None_2. right. intros n _. cbn [fst]. congruence.
  - apply not_elem_of_list_to_map_1. intros Hin.
    apply (proj2 (move_tree_keys src dst t)) in Hin. congruence.
Qed.

Section Store.
Context `{Collaborators}.

Lemma sidecar_is_beside (r : string) :
  (r = "" ∨ Py.startswith r "/" = true) →
  inside (STATE_PATH +:+ ".corrupt") (STATE_PATH +:+ r) = false ∧
  inside STATE_PATH (STATE_PATH +:+ ".corrupt" +:+ r) = false.
Proof.
  intros Hr. unfold inside. split; apply orb_false_iff; split.
  - apply String.eqb_neq. intros Heq%app_inv_head_str. by destruct Hr as [->| Hr]; subst.
  - rewrite app_assoc_str, startswith_app_both.
    destruct Hr as [->|[r' ->]%startswith_split]; reflexivity.
  - apply String.eqb_neq. rewrite <- (app_empty_r STATE_PATH) at 2.
    by intros Heq%app_inv_head_str.
  - by rewrite startswith_app_both.
Qed.

(** Steps on [tmp] alone leave the tree as it was, or as it was with a
    file at [tmp]. *)
Lemma steps_on_tmp_tree (tmp : string) (ops : list fs_op) (t : gmap string node) :
  Forall (λ op, op = OpenW tmp ∨ ∃ text, op = Append tmp text) ops →
  (steps ops t).1 = t ∨
  ((∀ e, t !! tmp ≠ Some (Dir e)) ∧ ∃ text, (steps ops t).1 = <[tmp := File text]> t).
Proof.
  intros Hops. revert t. induction Hops as [|op ops Hop _ IH]; intros t; [by left|].
  cbn [steps]. destruct (step op t) as [t'|] eqn:Hstep; [|by left].
  assert ((∀ e, t !! tmp ≠ Some (Dir e)) ∧ ∃ text, t' = <[tmp := File text]> t)
    as [Hnd [text ->]].
  { destruct Hop as [->|[text ->]]; cbn [step] in Hstep;
      destruct (t !! tmp) as [[?|?]|]; simplify_eq; split; try done; by eexists. }
  right. split; [done|].
  destruct (IH (<[tmp := File text]> t)) as [->|[_ [text' ->]]]; [by eexists|].
  rewrite insert_insert_eq. by eexists.
Qed.

(** X20. [load_state] touches nothing but what is at and below the state
    path and its [.corrupt] sidecar, and it changes the tree only when the
    state path is taken and what is there cannot be read as JSON.  When that
    is a directory and the sidecar path is free or holds an empty directory,
    the directory is set aside with all that is below it. *)
Theorem load_state_touches_only_the_state_file (t : gmap string node) :
  (∀ p, inside STATE_PATH p = false →
        inside (STATE_PATH +:+ ".corrupt") p = false →
        (load_state t).1 !! p = t !! p) ∧
  ((load_state t).1 ≠ t →
   is_Some (t !! STATE_PATH) ∧ read_json STATE_PATH t = None ∧
   (load_state t).2 = empty_state) ∧
  (∀ e r n,
     t !! STATE_PATH = Some (Dir e) →
     (t !! (STATE_PATH +:+ ".corrupt") = None ∨
      t !! (STATE_PATH +:+ ".corrupt") = Some (Dir true)) →
     (r = "" ∨ Py.startswith r "/" = true) →
     t !! (STATE_PATH +:+ r) = Some n →
     (load_state t).1 !! (STATE_PATH +:+ ".corrupt" +:+ r) = Some n ∧
     (load_state t).1 !! (STATE_PATH +:+ r) = None).
Proof.
  assert (Hbeside : String.eqb STATE_PATH (STATE_PATH +:+ ".corrupt") = false ∧
                    inside STATE_PATH (STATE_PATH +:+ ".corrupt") = false).
  { split.
    - apply String.eqb_neq. intros Heq. by apply (app_neq_self STATE_PATH "." "corrupt").
    - pose proof (proj2 (sidecar_is_beside "" (or_introl eq_refl))) as Hs.
      by rewrite app_empty_r in Hs. }
  destruct Hbeside as [Heqb Hin].
  split_and!.
  - unfold load_state. destruct (t !! STATE_PATH) as [n|] eqn:Hn; [|done].
    destruct (read_json STATE_PATH t) as [state|]; [done|]. cbn [fst].
    intros p Hp1 Hp2. unfold os_rename. rewrite Hn.
    assert (p ≠ STATE_PATH ∧ p ≠ STATE_PATH +:+ ".corrupt") as [Hne1 Hne2].
    { unfold inside in Hp1, Hp2.
      apply orb_false_iff in Hp1 as [Hp1 _]. apply orb_false_iff in Hp2 as [Hp2 _].
      by apply String.eqb_neq in Hp1, Hp2. }
    destruct n as [c|e].
    + destruct (t !! (STATE_PATH +:+ ".corrupt")) as [[?|?]|]; [|done|];
        rewrite lookup_insert_ne by done; by rewrite lookup_delete_ne.
    + rewrite Heqb, Hin.
      destruct (t !! (STATE_PATH +:+ ".corrupt")) as [[?|[]]|]; try done;
        by apply move_tree_frame.
  - unfold load_state. destruct (t !! STATE_PATH) as [n|] eqn:Hn;
      [|by intros Hne; destruct Hne].
    destruct (read_json STATE_PATH t) as [state|];
      [by intros Hne; destruct Hne|].
    intros _. by split_and!.
  - intros e r n Hdir Hside Hr Hn.
    assert ((load_state t).1 =
            move_tree STATE_PATH (STATE_PATH +:+ ".corrupt") t) as ->.
    { unfold load_state, read_json, os_rename. rewrite Hdir, Heqb, Hin.
      by destruct Hside as [-> | ->]. }
    split.
    + rewrite <- app_assoc_str. by apply move_tree_moved.
    + apply move_tree_vacated.
      * apply inside_split. by exists r.
      * by apply sidecar_is_beside.
Qed.

(** X21. What [save_state] has written, [load_state] reads back: after a
    save that completes, on any tree, a load returns the saved state and
    leaves the tree alone, provided [json.load] inverts [json.dump] on that
    state. *)
Theorem saved_state_is_loaded_back (state : pyval) (t t' : gmap string node) :
  json_load (foldr String.append "" (json_dump state)) = Some state →
  save_state state t = (t', true) →
  load_state t' = (t', state).
Proof.
  intros Hcodec. rewrite save_state_outcome. cbv zeta.
  assert (∀ m : gmap string node,
            load_state (<[STATE_PATH := File (foldr String.append "" (json_dump state))]> m)
            = (<[STATE_PATH := File (foldr String.append "" (json_dump state))]> m, state))
    as Hload.
  { intros m. unfold load_state, read_json. by rewrite lookup_insert_eq, Hcodec. }
  destruct (t !! (STATE_PATH +:+ ".tmp")) as [[?|?]|]; [|by intros [=]|];
    (destruct (t !! STATE_PATH) as [[?|?]|]; [|by intros [=]|]);
    intros [= <-]; apply Hload.
Qed.

(** X22. [save_state] fails in two ways only: a directory is at the
    temporary path, and then nothing is written at all; or a directory is at
    the state path, and then the whole text is written and left at the
    temporary path.  In every other tree it completes. *)
Theorem save_state_fails_on_directories_only (state : pyval) (t : gmap string node) :
  ((save_state state t).2 = false ↔
   (∃ e, t !! (STATE_PATH +:+ ".tmp") = Some (Dir e)) ∨
   (∃ e, t !! STATE_PATH = Some (Dir e))) ∧
  ((∃ e, t !! (STATE_PATH +:+ ".tmp") = Some (Dir e)) → (save_state state t).1 = t) ∧
  ((∀ e, t !! (STATE_PATH +:+ ".tmp") ≠ Some (Dir e)) →
   (∃ e, t !! STATE_PATH = Some (Dir e)) →
   (save_state state t).1 !! (STATE_PATH +:+ ".tmp") =
     Some (File (foldr String.append "" (json_dump state)))).
Proof.
  rewrite save_state_outcome. cbv zeta.
  destruct (t !! (STATE_PATH +:+ ".tmp")) as [[?|?]|];
    destruct (t !! STATE_PATH) as [[?|?]|]; cbn [fst snd];
    (split_and!;
     [split; [try done; eauto|intros [[? [=]]|[? [=]]]; done]
     |try done; by intros [? [=]]
     |intros Hnd [? [=]]; try apply lookup_insert_eq; by edestruct Hnd]).
Qed.

(** X23. A save that the process did not survive does no harm to the next
    one: whatever number of steps of the interrupted save happened, and
    whatever state it was writing, the next save has the outcome it would
    have had on the tree as it was. *)
Theorem save_after_a_killed_save (n : nat) (state0 state : pyval)
    (t : gmap string node) :
  n < length (save_state_ops state0) →
  save_state state (save_state_killed n state0 t).1 = save_state state t.
Proof.
  intros Hn.
  assert (Hne : STATE_PATH ≠ STATE_PATH +:+ ".tmp").
  { intros Heq. by apply (app_neq_self STATE_PATH "." "tmp"). }
  assert (Hwrites : Forall (λ op, op = OpenW (STATE_PATH +:+ ".tmp") ∨
                                  ∃ text, op = Append (STATE_PATH +:+ ".tmp") text)
            (take n (save_state_ops state0))).
  { unfold save_state_ops in *. rewrite app_comm_cons in *.
    rewrite length_app in Hn. cbn [length] in Hn.
    rewrite take_app_le by (cbn [length]; lia). apply Forall_take.
    apply Forall_cons. split; [by left|]. apply Forall_forall.
    intros op (text & -> & _)%list_elem_of_fmap. right. by exists text. }
  unfold save_state_killed.
  destruct (steps_on_tmp_tree _ _ t Hwrites) as [->|[Hnd [text ->]]]; [done|].
  rewrite !save_state_outcome. cbv zeta.
  rewrite lookup_insert_eq, lookup_insert_ne by done.
  rewrite insert_insert_eq, delete_insert_eq.
  destruct (t !! (STATE_PATH +:+ ".tmp")) as [[?|e]|]; [done| |done].
  by destruct (Hnd e).
Qed.

(** X24. [save_state] touches nothing but the state file and its
    temporary file: every other path of the tree holds after the call what
    it held before, whether the save completes, fails, or is interrupted
    after any number of steps. *)
Theorem save_state_touches_only_the_state_file (state : pyval)
    (t : gmap string node) (p : string) :
  p ≠ STATE_PATH → p ≠ STATE_PATH +:+ ".tmp" →
  (save_state state t).1 !! p = t !! p ∧
  ∀ n, (save_state_killed n state t).1 !! p = t !! p.
Proof.
  intros Hp1 Hp2. split.
  - rewrite save_state_outcome. cbv zeta.
    destruct (t !! (STATE_PATH +:+ ".tmp")) as [[?|?]|]; [|done|];
      (destruct (t !! STATE_PATH) as [[?|?]|]; cbn [fst];
       rewrite ?lookup_insert_ne by done; by rewrite ?lookup_delete_ne).
  - intros n. unfold save_state_killed.
    destruct (decide (n < length (save_state_ops state))) as [Hn|Hn].
    + apply (steps_on_tmp (STATE_PATH +:+ ".tmp")); [|done].
      unfold save_state_ops in *. rewrite app_comm_cons in *.
      rewrite length_app in Hn. cbn [length] in Hn.
      rewrite take_app_le by (cbn [length]; lia). apply Forall_take.
      apply Forall_cons. split; [by left|]. apply Forall_forall.
      intros op (text & -> & _)%list_elem_of_fmap. right. by exists text.
    + rewrite take_ge by lia. fold (save_state state t).
      rewrite save_state_outcome. cbv zeta.
      destruct (t !! (STATE_PATH +:+ ".tmp")) as [[?|?]|]; [|done|];
        (destruct (t !! STATE_PATH) as [[?|?]|]; cbn [fst];
         rewrite ?lookup_insert_ne by done; by rewrite ?lookup_delete_ne).
Qed.

(** X25. Only the last save counts: after a save that completes, a second
    save, of any state, leaves exactly the tree and the outcome it would
    have left without the first one. *)
Theorem last_save_wins (state1 state2 : pyval) (t t1 : gmap string node) :
  save_state state1 t = (t1, true) →
  save_state state2 t1 = save_state state2 t.
Proof.
  assert (Hne : STATE_PATH ≠ STATE_PATH +:+ ".tmp").
  { intros Heq. by apply (app_neq_self STATE_PATH "." "tmp"). }
  rewrite !save_state_outcome. cbv zeta.
  destruct (t !! (STATE_PATH +:+ ".tmp")) as [[?|?]|]; [|by intros [=]|];
    (destruct (t !! STATE_PATH) as [[?|?]|]; [|by intros [=]|]);
    intros [= <-];
    rewrite lookup_insert_ne, lookup_delete_eq, lookup_insert_eq by done;
    by rewrite delete_insert_ne, delete_delete_eq, insert_insert_eq by done.
Qed.

End Store.

Lemma load_state_touches_only_the_state_file_witness :
  (load_state Sample.tree_directory).1
    !! (STATE_PATH +:+ ".corrupt" +:+ "/child.txt") = Some (File "kept") ∧
  (load_state Sample.tree_directory).1 !! (STATE_PATH +:+ "/child.txt") = None.
Proof.
  apply (proj2 (proj2 (load_state_touches_only_the_state_file Sample.tree_directory))
           false "/child.txt" (File "kept")).
  - reflexivity.
  - left. reflexivity.
  - right. reflexivity.
  - reflexivity.
Defined.

(** The same tree, evaluated: the directory and the file in it are at the
    sidecar path, the file beside them is where it was. *)
Example directory_is_set_aside_whole :
  (load_state Sample.tree_directory).2 = empty_state ∧
  map_to_list (load_state Sample.tree_directory).1 ≡ₚ
    [(Sample.state_path +:+ ".corrupt", Dir false);
     (Sample.state_path +:+ ".corrupt/child.txt", File "kept");
     (Sample.state_path +:+ ".bak", File "{}")].
Proof.
  split; [reflexivity|]. vm_compute.
  repeat first [reflexivity | apply perm_skip | (etrans; [apply perm_swap|])].
Qed.

Lemma saved_state_is_loaded_back_witness :
  load_state (save_state (PDict []) Sample.tree_corrupt).1 =
    ((save_state (PDict []) Sample.tree_corrupt).1, PDict []).
Proof.
  apply (saved_state_is_loaded_back (PDict []) Sample.tree_corrupt).
  - reflexivity.
  - apply injective_projections; [reflexivity|]. vm_compute. reflexivity.
Defined.

Lemma save_state_fails_on_directories_only_witness :
  (save_state Sample.state_two (<[STATE_PATH := Dir true]> Sample.tree_valid)).1
    !! (STATE_PATH +:+ ".tmp") =
    Some (File (foldr String.append "" (json_dump Sample.state_two))).
Proof.
  apply (proj2 (proj2 (save_state_fails_on_directories_only Sample.state_two
                          (<[STATE_PATH := Dir true]> Sample.tree_valid)))).
  - intros e. vm_compute. discriminate.
  - exists true. vm_compute. reflexivity.
Defined.

Lemma save_after_a_killed_save_witness :
  save_state (PDict []) (save_state_killed 3 Sample.state_two Sample.tree_valid).1 =
    save_state (PDict []) Sample.tree_valid.
Proof.
  apply (save_after_a_killed_save 3 Sample.state_two (PDict []) Sample.tree_valid).
  vm_compute. lia.
Defined.

Lemma save_state_touches_only_the_state_file_witness :
  (save_state Sample.state_two Sample.tree_corrupt_blocked).1
    !! (STATE_PATH +:+ ".corrupt") =
    Sample.tree_corrupt_blocked !! (STATE_PATH +:+ ".corrupt") ∧
  ∀ n, (save_state_killed n Sample.state_two Sample.tree_corrupt_blocked).1
         !! (STATE_PATH +:+ ".corrupt") =
       Sample.tree_corrupt_blocked !! (STATE_PATH +:+ ".corrupt").
Proof.
  apply (save_state_touches_only_the_state_file Sample.state_two
           Sample.tree_corrupt_blocked (STATE_PATH +:+ ".corrupt")).
  - apply app_neq_self.
  - vm_compute. discriminate.
Defined.

Lemma last_save_wins_witness :
  save_state (PDict []) (save_state Sample.state_two Sample.tree_corrupt).1 =
    save_state (PDict []) Sample.tree_corrupt.
Proof.
  apply (last_save_wins Sample.state_two (PDict []) Sample.tree_corrupt).
  apply injective_projections; [reflexivity|]. vm_compute. reflexivity.
Defined.

(** * The canonical form of a URL *)

Lemma lower_cons (a : ascii) (s : string) :
  Py.lower (String a s) = String (Py.lower_char a) (Py.lower s).
Proof. reflexivity. Qed.

Lemma scheme_char_facts (a : ascii) :
  Py.char_in a scheme_chars = true →
  Py.char_in a WHATWG_C0_CONTROL_OR_SPACE = false ∧
  Py.char_in a UNSAFE_URL_BYTES_TO_REMOVE = false ∧
  Ascii.eqb ":" a = false ∧
  Py.char_in (Py.lower_char a) scheme_chars = true.
Proof.
  destruct a as [[] [] [] [] [] [] [] []]; vm_compute; intros Hc;
    first [discriminate Hc | by repeat split].
Qed.

Lemma lower_char_idem (a : ascii) : Py.lower_char (Py.lower_char a) = Py.lower_char a.
Proof. destruct a as [[] [] [] [] [] [] [] []]; reflexivity. Qed.

Lemma lower_idem (s : string) : Py.lower (Py.lower s) = Py.lower s.
Proof.
  induction s as [|a s IH]; [done|]. by rewrite !lower_cons, lower_char_idem, IH.
Qed.

Lemma scheme_lower (s : string) :
  Py.all_in scheme_chars s = true → Py.all_in scheme_chars (Py.lower s) = true.
Proof.
  induction s as [|a s IH]; [done|]. rewrite lower_cons. cbn [Py.all_in].
  intros [Ha Hs]%andb_true_iff. rewrite (IH Hs).
  by destruct (scheme_char_facts a Ha) as (_ & _ & _ & ->).
Qed.

Lemma scheme_clean (s : string) :
  Py.all_in scheme_chars s = true →
  Py.char_in ":" s = false ∧ Py.remove_chars UNSAFE_URL_BYTES_TO_REMOVE s = s.
Proof.
  induction s as [|a s IH]; [done|]. cbn [Py.all_in Py.char_in Py.remove_chars].
  intros [Ha Hs]%andb_true_iff.
  destruct (scheme_char_facts a Ha) as (_ & -> & -> & _).
  by destruct (IH Hs) as [-> ->].
Qed.

Lemma remove_chars_absent chars (x : ascii) (s : string) :
  Py.char_in x chars = true → Py.char_in x (Py.remove_chars chars s) = false.
Proof.
  intros Hx. induction s as [|a s IH]; [done|]. cbn [Py.remove_chars].
  destruct (Py.char_in a chars) eqn:Ha; [done|]. cbn [Py.char_in].
  destruct (Ascii.eqb_spec x a) as [->|]; [congruence|done].
Qed.

Lemma remove_chars_id chars (s : string) :
  (∀ x, Py.char_in x chars = true → Py.char_in x s = false) →
  Py.remove_chars chars s = s.
Proof.
  induction s as [|a s IH]; [done|]. intros Hs. cbn [Py.remove_chars].
  destruct (Py.char_in a chars) eqn:Ha.
  - specialize (Hs a Ha). cbn [Py.char_in] in Hs. by rewrite Ascii.eqb_refl in Hs.
  - rewrite IH; [done|]. intros x Hx. specialize (Hs x Hx).
    cbn [Py.char_in] in Hs. by destruct (Ascii.eqb x a).
Qed.

Lemma break_at_rest stops (s : string) :
  (Py.break_at stops s).2 = "" ∨
  ∃ a r, (Py.break_at stops s).2 = String a r ∧ Py.char_in a stops = true.
Proof.
  induction s as [|a s IH]; [by left|]. cbn [Py.break_at].
  destruct (Py.char_in a stops) eqn:Ha.
  - right. by exists a, s.
  - by destruct (Py.break_at stops s).
Qed.

Lemma break_at_absent_app stops (h t : string) :
  (Py.break_at stops h).2 = "" →
  Py.break_at stops (h +:+ t) =
    ((Py.break_at stops h).1 +:+ (Py.break_at stops t).1, (Py.break_at stops t).2).
Proof.
  induction h as [|a h IH].
  - intros _. rewrite app_nil_l. by destruct (Py.break_at stops t).
  - rewrite app_cons. cbn [Py.break_at]. destruct (Py.char_in a stops); [done|].
    destruct (Py.break_at stops h) as [b r]. cbn [fst snd]. intros Hr.
    rewrite (IH Hr). done.
Qed.

Lemma break_at_stop stops (t : string) :
  (t = "" ∨ ∃ a r, t = String a r ∧ Py.char_in a stops = true) →
  Py.break_at stops t = ("", t).
Proof.
  intros [->|(a & r & -> & Ha)]; [done|]. cbn [Py.break_at]. by rewrite Ha.
Qed.

Lemma cut_fst_absent (c : ascii) (s : string) : Py.char_in c (cut c s).1 = false.
Proof.
  unfold cut. destruct (Py.partition c s) as [[b a]|] eqn:Hp.
  - by destruct (partition_spec _ _ _ _ Hp).
  - by apply partition_None.
Qed.

Lemma cut_fst_char_in (x c : ascii) (s : string) :
  Py.char_in x s = false → Py.char_in x (cut c s).1 = false.
Proof.
  intros Hx. unfold cut. destruct (Py.partition c s) as [[b a]|] eqn:Hp; [|done].
  by destruct (partition_char_in _ x _ _ _ Hp Hx).
Qed.

Lemma cut_fst_head stops (c : ascii) (s : string) :
  (s = "" ∨ ∃ a r, s = String a r ∧ Py.char_in a stops = true) →
  (cut c s).1 = "" ∨
  ∃ a r, (cut c s).1 = String a r ∧ Py.char_in a stops = true ∧ a ≠ c.
Proof.
  intros [->|(a & r & -> & Ha)]; [by left|]. unfold cut. cbn [Py.partition].
  destruct (Ascii.eqb_spec a c) as [->|Hne]; [by left|]. right.
  destruct (Py.partition c r) as [[b af]|]; by eexists _, _.
Qed.

Lemma rpartition_None (c : ascii) (s : string) :
  Py.rpartition c s = None ↔ Py.char_in c s = false.
Proof.
  induction s as [|a s IH]; [done|]. cbn [Py.rpartition Py.char_in].
  rewrite (Ascii.eqb_sym c a).
  destruct (Py.rpartition c s) as [[x y]|].
  - split; [done|]. destruct (Ascii.eqb a c); [done|]. intros Hs.
    by apply IH in Hs.
  - destruct (Ascii.eqb a c); [done|]. split; [|done]. intros _. by apply IH.
Qed.

Lemma rpartition_here (c : ascii) (s after : string) :
  Py.char_in c after = false →
  Py.rpartition c (s +:+ String c after) = Some (s, after).
Proof.
  intros Hc. apply rpartition_None in Hc. induction s as [|a s IH].
  - rewrite app_nil_l. cbn [Py.rpartition]. by rewrite Hc, Ascii.eqb_refl.
  - rewrite app_cons. cbn [Py.rpartition]. by rewrite IH.
Qed.

Lemma splitparams_char_in (x : ascii) (s : string) :
  Py.char_in x s = false → Py.char_in x (splitparams s).1 = false.
Proof.
  intros Hx. unfold splitparams.
  destruct (Py.rpartition "/" s) as [[dir seg]|] eqn:Hr.
  - destruct (Py.partition ";" seg) as [[b a]|] eqn:Hp; [|done]. cbn [fst].
    destruct (rpartition_spec _ _ _ _ Hr) as [-> _].
    rewrite char_in_app in Hx. apply orb_false_iff in Hx as [Hd Hs].
    cbn [Py.char_in] in Hs. destruct (Ascii.eqb x "/") eqn:E; [done|].
    destruct (partition_char_in _ x _ _ _ Hp Hs) as [Hb _].
    rewrite !char_in_app, Hd, Hb. cbn [Py.char_in]. by rewrite E.
  - destruct (Py.partition ";" s) as [[b a]|] eqn:Hp; [|done]. cbn [fst].
    by destruct (partition_char_in _ x _ _ _ Hp Hx).
Qed.

Lemma splitparams_idem (s : string) :
  (splitparams (splitparams s).1).1 = (splitparams s).1.
Proof.
  unfold splitparams at 2 3.
  destruct (Py.rpartition "/" s) as [[dir seg]|] eqn:Hr.
  - destruct (Py.partition ";" seg) as [[b a]|] eqn:Hp; cbn [fst].
    + destruct (rpartition_spec _ _ _ _ Hr) as [_ Hseg].
      destruct (partition_spec _ _ _ _ Hp) as [-> Hb].
      rewrite char_in_app in Hseg. apply orb_false_iff in Hseg as [Hseg _].
      unfold splitparams.
      change (dir +:+ "/" +:+ b) with (dir +:+ String "/" b).
      rewrite (rpartition_here _ _ _ Hseg).
      by apply partition_None in Hb as ->.
    + unfold splitparams. by rewrite Hr, Hp.
  - destruct (Py.partition ";" s) as [[b a]|] eqn:Hp; cbn [fst].
    + apply rpartition_None in Hr.
      destruct (partition_char_in _ "/" _ _ _ Hp Hr) as [Hb _].
      destruct (partition_spec _ _ _ _ Hp) as [_ Hb'].
      unfold splitparams. apply rpartition_None in Hb as ->.
      by apply partition_None in Hb' as ->.
    + unfold splitparams. by rewrite Hr, Hp.
Qed.

Lemma splitparams_head (r : string) :
  ∃ r', (splitparams (String "/" r)).1 = String "/" r'.
Proof.
  unfold splitparams.
  destruct (Py.rpartition "/" (String "/" r)) as [[dir seg]|] eqn:Hr.
  - destruct (Py.partition ";" seg) as [[b a]|] eqn:Hp; cbn [fst]; [|by eexists].
    destruct (rpartition_spec _ _ _ _ Hr) as [Heq _].
    destruct dir as [|d dir]; [by eexists|].
    rewrite app_cons in Heq. injection Heq as <- _. rewrite app_cons. by eexists.
  - apply rpartition_None in Hr. cbn [Py.char_in] in Hr.
    by rewrite Ascii.eqb_refl in Hr.
Qed.

Lemma split_scheme_rest (x : ascii) (s : string) :
  Py.char_in x s = false → Py.char_in x (split_scheme s).2 = false.
Proof.
  intros Hx. unfold split_scheme.
  destruct (Py.partition ":" s) as [[b a]|] eqn:Hp; [|done].
  destruct (negb (String.eqb b "") && Py.all_in scheme_chars b); [|done].
  by destruct (partition_char_in _ x _ _ _ Hp Hx).
Qed.

Lemma split_scheme_scheme (s : string) :
  (split_scheme s).1 = "" ∨
  ∃ b, b ≠ "" ∧ Py.all_in scheme_chars b = true ∧ (split_scheme s).1 = Py.lower b.
Proof.
  unfold split_scheme. destruct (Py.partition ":" s) as [[b a]|]; [|by left].
  destruct (String.eqb_spec b "") as [->|Hb]; [by left|]. cbn [negb andb].
  destruct (Py.all_in scheme_chars b) eqn:Hall; [|by left].
  right. by exists b.
Qed.

Lemma split_netloc_rest (s loc rest : string) :
  split_netloc s = Ok (loc, rest) →
  (∀ x, Py.char_in x s = false → Py.char_in x rest = false) ∧
  (loc ≠ "" →
   rest = "" ∨ ∃ a r, rest = String a r ∧ Py.char_in a "/?#" = true).
Proof.
  unfold split_netloc. destruct (Py.startswith s "//").
  - pose proof (break_at_rest "/?#" (Py.drop 2 s)) as Hrest.
    pose proof (λ x, break_at_char_in "/?#" x (Py.drop 2 s)) as Hin.
    destruct (Py.break_at "/?#" (Py.drop 2 s)) as [l r]. cbn [fst snd] in *.
    destruct (xorb (Py.char_in "[" l) (Py.char_in "]" l)); [done|].
    intros [= <- <-]. split; [|done].
    intros x Hx. apply Hin. by apply drop_char_in.
  - intros [= <- <-]. split; [done|]. by intros [].
Qed.

Lemma urlparse_inv (u : string) (p : ParseResult) :
  urlparse u = Ok p →
  ∃ url2 url3,
    split_scheme
      (Py.remove_chars UNSAFE_URL_BYTES_TO_REMOVE
         (Py.lstrip WHATWG_C0_CONTROL_OR_SPACE u)) = (scheme p, url2) ∧
    split_netloc url2 = Ok (netloc p, url3) ∧
    path p =
      if in_list (scheme p) uses_params
         && Py.char_in ";" (cut "?" (cut "#" url3).1).1
      then (splitparams (cut "?" (cut "#" url3).1).1).1
      else (cut "?" (cut "#" url3).1).1.
Proof.
  unfold urlparse, urlsplit.
  destruct (split_scheme _) as [sch url2] eqn:Hsch.
  destruct (split_netloc url2) as [[loc url3]|] eqn:Hloc; [|done].
  unfold mbind, result_bind.
  destruct (cut "#" url3) as [url4 frag] eqn:H4.
  destruct (cut "?" url4) as [url5 qry] eqn:H5.
  assert ((cut "?" (cut "#" url3).1).1 = url5) as Hurl5
    by (rewrite H4; cbn [fst]; by rewrite H5).
  destruct (in_list sch uses_params && Py.char_in ";" url5) eqn:Hc.
  - destruct (splitparams url5) as [url6 prm] eqn:H6. intros [= <-].
    cbn [scheme netloc path]. exists url2, url3. split_and!; [done..|].
    by rewrite Hurl5, Hc, H6.
  - intros [= <-]. cbn [scheme netloc path]. exists url2, url3.
    split_and!; [done..|]. by rewrite Hurl5, Hc.
Qed.

(** What [urlparse] leaves in the path: no [?], no [#], none of the
    characters it removes; after a host, nothing or a text that begins with a
    slash; and nothing that [_splitparams] would cut again. *)
Lemma urlparse_path (u : string) (p : ParseResult) :
  urlparse u = Ok p →
  (scheme p = "" ∨
   ∃ b, b ≠ "" ∧ Py.all_in scheme_chars b = true ∧ scheme p = Py.lower b) ∧
  Py.char_in "#" (path p) = false ∧
  Py.char_in "?" (path p) = false ∧
  Py.remove_chars UNSAFE_URL_BYTES_TO_REMOVE (path p) = path p ∧
  (netloc p ≠ "" → path p = "" ∨ ∃ r, path p = String "/" r) ∧
  (in_list (scheme p) uses_params && Py.char_in ";" (path p) = true →
   (splitparams (path p)).1 = path p).
Proof.
  intros (url2 & url3 & Hsch & Hloc & Hpath)%urlparse_inv.
  set (url1 := Py.remove_chars _ _) in Hsch.
  set (url5 := (cut "?" (cut "#" url3).1).1) in Hpath.
  destruct (split_netloc_rest _ _ _ Hloc) as [Hrest Hhead].
  assert (Hkeep : ∀ x, Py.char_in x url1 = false → Py.char_in x url5 = false).
  { intros x Hx. apply cut_fst_char_in, cut_fst_char_in, Hrest.
    pose proof (split_scheme_rest x url1 Hx) as H2. by rewrite Hsch in H2. }
  assert (Hq : Py.char_in "?" url5 = false) by apply cut_fst_absent.
  assert (Hh : Py.char_in "#" url5 = false).
  { apply cut_fst_char_in, cut_fst_absent. }
  assert (H5 : netloc p ≠ "" → url5 = "" ∨ ∃ r, url5 = String "/" r).
  { intros Hne. specialize (Hhead Hne).
    destruct (cut_fst_head "/?#" "#" url3 Hhead) as [H4|(a & r & H4 & Ha & Hna)].
    - left. subst url5. by rewrite H4.
    - destruct (cut_fst_head "/?#" "?" (cut "#" url3).1) as [H5|(b & r' & H5 & Hb & Hnb)].
      + right. by exists a, r.
      + by left.
      + right. exists r'. fold url5 in H5. rewrite H5. f_equal.
        assert (Py.char_in b "/?#" = true ∧ b ≠ "?"%char ∧ b ≠ "#"%char)
          as (Hb1 & Hb2 & Hb3).
        { split; [done|]. split; [done|]. intros ->.
          pose proof (cut_fst_char_in "#" "?" _ (cut_fst_absent "#" url3)) as Hc.
          fold url5 in Hc. rewrite H5 in Hc. cbn [Py.char_in] in Hc.
          by rewrite Ascii.eqb_refl in Hc. }
        cbn [Py.char_in] in Hb1.
        destruct (Ascii.eqb_spec b "/"); [done|].
        destruct (Ascii.eqb_spec b "?"); [done|].
        by destruct (Ascii.eqb_spec b "#"). }
  split_and!.
  - pose proof (split_scheme_scheme url1) as Hs. by rewrite Hsch in Hs.
  - rewrite Hpath. destruct (_ && _); [by apply splitparams_char_in|done].
  - rewrite Hpath. destruct (_ && _); [by apply splitparams_char_in|done].
  - apply remove_chars_id. intros x Hx.
    assert (Py.char_in x url5 = false) as H5x.
    { apply Hkeep. by apply remove_chars_absent. }
    rewrite Hpath. destruct (_ && _); [by apply splitparams_char_in|done].
  - intros Hne. destruct (H5 Hne) as [H5e|[r H5r]].
    + left. rewrite Hpath, H5e. by rewrite andb_false_r.
    + right. rewrite Hpath, H5r.
      destruct (in_list (scheme p) uses_params && Py.char_in ";" (String "/" r));
        [|by eexists].
      apply splitparams_head.
  - rewrite Hpath.
    destruct (in_list (scheme p) uses_params && Py.char_in ";" url5) eqn:Hc.
    + intros _. apply splitparams_idem.
    + by rewrite Hc.
Qed.

Lemma lstrip_scheme (s t : string) :
  s ≠ "" → Py.all_in scheme_chars s = true →
  Py.lstrip WHATWG_C0_CONTROL_OR_SPACE (s +:+ t) = s +:+ t.
Proof.
  destruct s as [|a s]; [done|]. intros _. cbn [Py.all_in].
  intros [Ha _]%andb_true_iff. rewrite app_cons. cbn [Py.lstrip].
  by destruct (scheme_char_facts a Ha) as (-> & _).
Qed.

(** The parse of a text put together from a scheme, a host and a path that
    a parse has produced gives these three back. *)
Lemma urlparse_rebuilt (sch host pth : string) :
  sch ≠ "" → Py.all_in scheme_chars sch = true → Py.lower sch = sch →
  Py.remove_chars UNSAFE_URL_BYTES_TO_REMOVE host = host →
  Py.break_at "/?#" host = (host, "") →
  xorb (Py.char_in "[" host) (Py.char_in "]" host) = false →
  Py.char_in "#" pth = false →
  Py.char_in "?" pth = false →
  Py.remove_chars UNSAFE_URL_BYTES_TO_REMOVE pth = pth →
  (pth = "" ∨ ∃ r, pth = String "/" r) →
  (in_list sch uses_params && Py.char_in ";" pth = true → (splitparams pth).1 = pth) →
  ∃ p, urlparse (sch +:+ "://" +:+ host +:+ pth) = Ok p ∧
       scheme p = sch ∧ netloc p = host ∧ path p = pth.
Proof.
  intros Hne Hall Hlow Hhost Hbreak Hbr Hh Hq Hu Hhead Hsp.
  destruct (scheme_clean sch Hall) as [Hcolon Hclean].
  unfold urlparse, urlsplit.
  rewrite (lstrip_scheme _ _ Hne Hall).
  rewrite !remove_chars_app, Hclean, Hhost, Hu.
  change (Py.remove_chars UNSAFE_URL_BYTES_TO_REMOVE "://") with "://".
  assert (split_scheme (sch +:+ "://" +:+ host +:+ pth) =
          (sch, "//" +:+ host +:+ pth)) as ->.
  { unfold split_scheme.
    change (sch +:+ "://" +:+ host +:+ pth)
      with (sch +:+ String ":" ("//" +:+ host +:+ pth)).
    rewrite (partition_here _ _ _ Hcolon), Hall, Hlow.
    by destruct (String.eqb_spec sch ""). }
  assert (split_netloc ("//" +:+ host +:+ pth) = Ok (host, pth)) as ->.
  { unfold split_netloc.
    change (Py.startswith ("//" +:+ host +:+ pth) "//") with true.
    change (Py.drop 2 ("//" +:+ host +:+ pth)) with (host +:+ pth).
    rewrite break_at_absent_app by by rewrite Hbreak.
    rewrite Hbreak, break_at_stop.
    - cbn [fst snd]. by rewrite app_empty_r, Hbr.
    - destruct Hhead as [->|[r ->]]; [by left|]. right. by exists "/"%char, r. }
  unfold mbind, result_bind. rewrite (cut_absent _ _ Hh), (cut_absent _ _ Hq).
  destruct (in_list sch uses_params && Py.char_in ";" pth) eqn:Hc.
  - specialize (Hsp eq_refl). destruct (splitparams pth) as [x y].
    cbn [fst] in Hsp. subst x. by eexists.
  - by eexists.
Qed.

Lemma reddit_image_host (host : string) :
  host ∈ REDDIT_IMAGE_HOSTS →
  host = "i.redd.it" ∨ host = "preview.redd.it" ∨ host = "i.reddituploads.com".
Proof.
  unfold REDDIT_IMAGE_HOSTS. rewrite !elem_of_union, !elem_of_singleton.
  intros [[->| ->]| ->]; auto.
Qed.

(** A text that begins with a colon has no scheme and no host, and is its
    own canonical form. *)
Lemma normalize_colon_first (r : string) :
  _normalize_reddit_image_url (String ":" r) = String ":" r.
Proof.
  unfold _normalize_reddit_image_url.
  destruct (urlparse (String ":" r)) as [p|] eqn:Hp; [|done].
  apply urlparse_inv in Hp as (url2 & url3 & Hsch & Hloc & _).
  cbn [Py.lstrip] in Hsch.
  change (Py.char_in ":" WHATWG_C0_CONTROL_OR_SPACE) with false in Hsch.
  cbn [Py.remove_chars] in Hsch.
  change (Py.char_in ":" UNSAFE_URL_BYTES_TO_REMOVE) with false in Hsch.
  unfold split_scheme in Hsch. cbn [Py.partition] in Hsch.
  rewrite Ascii.eqb_refl in Hsch. cbn [String.eqb negb andb] in Hsch.
  injection Hsch as _ <-. unfold split_netloc in Hloc.
  change (Py.startswith (String ":" ?x) "//") with false in Hloc.
  injection Hloc as <- _. done.
Qed.

(** X26. The canonical form is canonical: [_normalize_reddit_image_url]
    applied to its own result changes nothing, for every text, whether it
    parses or not and whatever its host is.  The key under which the
    resolver compares two locations is therefore itself a location with
    that same key. *)
Theorem canonical_form_is_canonical (u : string) :
  _normalize_reddit_image_url (_normalize_reddit_image_url u) =
    _normalize_reddit_image_url u.
Proof.
  assert (Hcases :
    _normalize_reddit_image_url u = u ∨
    ∃ p, urlparse u = Ok p ∧ Py.lower (netloc p) ∈ REDDIT_IMAGE_HOSTS ∧
         _normalize_reddit_image_url u =
           scheme p +:+ "://" +:+ Py.lower (netloc p) +:+ path p).
  { unfold _normalize_reddit_image_url.
    destruct (urlparse u) as [p|]; [|by left].
    case_bool_decide as Hin; [|by left]. right. by exists p. }
  destruct Hcases as [Hsame|(p & Hp & Hin & Hcanon)]; [by rewrite !Hsame|].
  rewrite !Hcanon.
  destruct (urlparse_path u p Hp) as (Hs & Hh & Hq & Hu & Hhead & Hsp).
  assert (Hloc : netloc p ≠ "").
  { intros Heq. rewrite Heq in Hin. by destruct (reddit_image_host _ Hin) as [?|[?|?]]. }
  specialize (Hhead Hloc).
  destruct Hs as [->|(b & Hb & Hall & Hsch)]; [apply normalize_colon_first|].
  assert (∃ p', urlparse (scheme p +:+ "://" +:+ Py.lower (netloc p) +:+ path p) = Ok p' ∧
                scheme p' = scheme p ∧ netloc p' = Py.lower (netloc p) ∧
                path p' = path p) as (p' & Hp' & H1 & H2 & H3).
  { assert (Hne : scheme p ≠ "").
    { rewrite Hsch. destruct b; [done|]. by rewrite lower_cons. }
    assert (Hall' : Py.all_in scheme_chars (scheme p) = true).
    { rewrite Hsch. by apply scheme_lower. }
    assert (Hlow : Py.lower (scheme p) = scheme p).
    { rewrite Hsch. apply lower_idem. }
    destruct (reddit_image_host _ Hin) as [->|[->| ->]];
      by apply urlparse_rebuilt. }
  unfold _normalize_reddit_image_url. rewrite Hp', H1, H2, H3, lower_idem.
  by rewrite bool_decide_eq_true_2.
Qed.
